(** * simple-chatbot: response generator and conversation persistence

    A shallow embedding of [app/chatbot_service.py],
    [app/conversation_service.py], [app/models.py] and the message-sending
    path of [app/chatbot.py], together with the properties of the
    response pipeline and of the conversation store.

    Conventions of the embedding:
    - Python [str] values are [string]s of 8-bit characters, the code
      points 0 to 255; [lower], [strip] and [split] act on them as
      [str.lower], [str.strip] and [str.split] do on these code points.
    - [random.choice] takes its draw as an explicit argument.
    - [datetime.utcnow()] and [time.time()] read one clock, a count of
      microseconds; the amounts by which it advances and the storage
      faults of a run are inputs held in the [World]. *)

From Stdlib Require Import String Ascii List Arith Bool Lia PeanoNat.
From Stdlib Require Import Sorting.Sorted Sorting.Permutation.
Import ListNotations.
Local Open Scope string_scope.
Local Open Scope list_scope.
Local Open Scope nat_scope.

(* ===================================================================== *)
(** ** Python string primitives used by the sources *)
(* ===================================================================== *)

Module PyStr.

(** [c.lower()] on one character: the capitals among the code points 0 to
    255 (A-Z, and 192 to 222 but for the multiplication sign 215) are
    moved 32 up, to their small letters. *)
Definition lower_char (c : ascii) : ascii :=
  let n := nat_of_ascii c in
  if ((65 <=? n) && (n <=? 90))
     || ((192 <=? n) && (n <=? 214))
     || ((216 <=? n) && (n <=? 222))
  then ascii_of_nat (n + 32) else c.

(** [s.lower()] *)
Fixpoint lower (s : string) : string :=
  match s with
  | EmptyString => EmptyString
  | String c s' => String (lower_char c) (lower s')
  end.

(** [c.isspace()], the white space of [str.strip] and [str.split], among
    the code points 0 to 255: TAB, LF, VT, FF, CR (9 to 13), FS, GS, RS, US
    (28 to 31), the blank (32), NEL (133) and the no-break space (160). *)
Definition isspace (c : ascii) : bool :=
  let n := nat_of_ascii c in
  ((9 <=? n) && (n <=? 13)) || ((28 <=? n) && (n <=? 31)) || (n =? 32)
  || (n =? 133) || (n =? 160).

(** [s.lstrip()] *)
Fixpoint lstrip (s : string) : string :=
  match s with
  | EmptyString => EmptyString
  | String c s' => if isspace c then lstrip s' else s
  end.

(** [s.rstrip()]: a character is dropped when it is white space and
    everything after it has been dropped. *)
Fixpoint rstrip (s : string) : string :=
  match s with
  | EmptyString => EmptyString
  | String c s' =>
      match rstrip s' with
      | EmptyString => if isspace c then EmptyString else String c EmptyString
      | r => String c r
      end
  end.

(** [s.strip()] *)
Definition strip (s : string) : string := rstrip (lstrip s).

(** [s.startswith(p)] *)
Fixpoint startswith (p s : string) : bool :=
  match p, s with
  | EmptyString, _ => true
  | String _ _, EmptyString => false
  | String a p', String b s' => Ascii.eqb a b && startswith p' s'
  end.

(** [sub in s] *)
Fixpoint contains (sub s : string) : bool :=
  startswith sub s ||
  match s with
  | EmptyString => false
  | String _ s' => contains sub s'
  end.

(** [s.endswith(suf)] *)
Fixpoint endswith (suf s : string) : bool :=
  String.eqb s suf ||
  match s with
  | EmptyString => false
  | String _ s' => endswith suf s'
  end.

(** [any(k in s for k in keywords)] *)
Definition any_in (keywords : list string) (s : string) : bool :=
  existsb (fun k => contains k s) keywords.

(** [bool(s)]: a string is truthy when it is not empty. *)
Definition truthy (s : string) : bool :=
  match s with EmptyString => false | _ => true end.

(** [s.split()]: the maximal runs of characters that are not white space.
    [cur] is the word being read, in reverse. *)
Fixpoint rev_string (acc s : string) : string :=
  match s with
  | EmptyString => acc
  | String c s' => rev_string (String c acc) s'
  end.

Fixpoint split_from (cur : string) (s : string) : list string :=
  match s with
  | EmptyString =>
      if truthy cur then [rev_string EmptyString cur] else []
  | String c s' =>
      if isspace c
      then (if truthy cur then rev_string EmptyString cur :: split_from EmptyString s'
            else split_from EmptyString s')
      else split_from (String c cur) s'
  end.

Definition split (s : string) : list string := split_from EmptyString s.

(** [sep.join(words)] *)
Fixpoint join (sep : string) (words : list string) : string :=
  match words with
  | [] => EmptyString
  | [w] => w
  | w :: ws => (w ++ sep ++ join sep ws)%string
  end.

(** [s[:n]] for [n >= 0] *)
Fixpoint take (n : nat) (s : string) : string :=
  match n, s with
  | O, _ => EmptyString
  | S _, EmptyString => EmptyString
  | S n', String c s' => String c (take n' s')
  end.

End PyStr.

(* ===================================================================== *)
(** ** Response generator: [ChatbotService.generate_response] *)
(* ===================================================================== *)

Module Generator.
Import PyStr.

(** [random.choice(seq)] with the draw [rnd] made explicit: the element
    at index [rnd mod len(seq)]. Every list it is applied to below is a
    non-empty literal. *)
Definition choice (rnd : nat) (seq : list string) : string :=
  nth (rnd mod length seq) seq EmptyString.

Definition greeting_keywords : list string :=
  ["hello"; "hi"; "hey"; "good morning"; "good afternoon"].

Definition greeting_responses : list string :=
  [ "Hello! How can I help you today?";
    "Hi there! What's on your mind?";
    "Hey! Great to see you. What can I do for you?";
    "Hello! I'm here to chat. What would you like to talk about?" ].

Definition how_are_you_response : string :=
  "I'm doing great, thank you for asking! How are you doing today?".
Definition name_response : string :=
  "I'm your friendly chatbot assistant! You can call me ChatBot. What's your name?".
Definition weather_response : string :=
  "I don't have access to real-time weather data, but I hope it's nice where you are! Is there anything else I can help you with?".
Definition time_response : string :=
  "I don't have access to the current time, but you can check your device's clock. Is there something else I can assist you with?".

Definition question_responses : list string :=
  [ "That's an interesting question! Let me think about that...";
    "Hmm, I'm not sure about that specific question, but I'd love to help you explore it further.";
    "Great question! While I might not have the exact answer, I'm happy to discuss it with you." ].

Definition negative_keywords : list string := ["sad"; "upset"; "angry"; "frustrated"].
Definition negative_response : string :=
  "I'm sorry to hear you're feeling that way. Sometimes it helps to talk about what's bothering you. I'm here to listen.".

Definition positive_keywords : list string :=
  ["happy"; "excited"; "great"; "awesome"; "wonderful"].
Definition positive_response : string :=
  "That's wonderful to hear! I'm glad you're feeling positive. What's making you so happy?".

Definition help_keywords : list string := ["help"; "assist"; "support"].
Definition help_response : string :=
  "I'm here to help! I can chat with you about various topics, answer questions, or just have a friendly conversation. What would you like to talk about?".

Definition thanks_keywords : list string := ["thank"; "thanks"].
Definition thanks_response : string :=
  "You're very welcome! I'm happy I could help. Is there anything else you'd like to chat about?".

Definition farewell_keywords : list string := ["bye"; "goodbye"; "see you"; "talk later"].
Definition farewell_responses : list string :=
  [ "Goodbye! It was great chatting with you. Have a wonderful day!";
    "See you later! Feel free to come back anytime you want to chat.";
    "Take care! I enjoyed our conversation. Come back soon!" ].

Definition default_responses : list string :=
  [ "That's interesting! Tell me more about that.";
    "I see what you mean. What made you think about that?";
    "Thanks for sharing that with me! How do you feel about it?";
    "That sounds intriguing. Can you elaborate a bit more?";
    "I appreciate you telling me that. What's your perspective on it?";
    "Interesting point! I'd love to hear more of your thoughts on this." ].

(** [user_message.lower().strip()] *)
Definition normalize (user_message : string) : string :=
  strip (lower user_message).

(** The body of [generate_response] after the first line, on the
    normalised message. *)
Definition respond (rnd : nat) (user_message_lower : string) : string :=
  if any_in greeting_keywords user_message_lower then
    choice rnd greeting_responses
  else if endswith "?" user_message_lower then
    if contains "how are you" user_message_lower then how_are_you_response
    else if contains "what" user_message_lower && contains "name" user_message_lower
      then name_response
    else if contains "weather" user_message_lower then weather_response
    else if contains "time" user_message_lower then time_response
    else choice rnd question_responses
  else if any_in negative_keywords user_message_lower then negative_response
  else if any_in positive_keywords user_message_lower then positive_response
  else if any_in help_keywords user_message_lower then help_response
  else if any_in thanks_keywords user_message_lower then thanks_response
  else if any_in farewell_keywords user_message_lower then choice rnd farewell_responses
  else choice rnd default_responses.

Definition generate_response (rnd : nat) (user_message : string) : string :=
  respond rnd (normalize user_message).

(** Every reply the question branch (category 2) can give. *)
Definition question_category_responses : list string :=
  how_are_you_response :: name_response :: weather_response :: time_response
  :: question_responses.

(** Every reply categories 3 to 8 can give. *)
Definition later_category_responses : list string :=
  negative_response :: positive_response :: help_response :: thanks_response
  :: farewell_responses ++ default_responses.

(** Every reply the generator can give. *)
Definition all_responses : list string :=
  greeting_responses ++ question_category_responses ++ later_category_responses.

(** Membership and disjointness of reply lists, as tests. *)
Definition mem (s : string) (l : list string) : bool := existsb (String.eqb s) l.

Definition disjoint (l1 l2 : list string) : bool :=
  forallb (fun s => negb (mem s l2)) l1.

(** None of the tests of the rules holds. *)
Definition no_keyword_category (s : string) : bool :=
  negb (any_in greeting_keywords s) && negb (endswith "?" s) &&
  negb (any_in negative_keywords s) && negb (any_in positive_keywords s) &&
  negb (any_in help_keywords s) && negb (any_in thanks_keywords s) &&
  negb (any_in farewell_keywords s).

End Generator.

(* ===================================================================== *)
(** ** Data model: [app/models.py] *)
(* ===================================================================== *)

Module Models.

(** A [datetime]: microseconds on the clock. *)
Definition Time := nat.

Inductive MessageType : Type := USER | BOT.

(** Primary keys ([id], here [usr_id], [conv_id], [msg_id]) are
    [Optional[int]]: [None] until the row is stored. *)
Record User : Type := mkUser {
  usr_id : option nat;
  username : string;
  display_name : string;
  user_created_at : Time;
  user_is_active : bool
}.

Record Conversation : Type := mkConversation {
  conv_id : option nat;
  title : string;
  user_id : nat;
  conv_created_at : Time;
  updated_at : Time;
  is_active : bool
}.

Record Message : Type := mkMessage {
  msg_id : option nat;
  content : string;
  message_type : MessageType;
  conversation_id : nat;
  created_at : Time;
  response_time_ms : option nat;
  model_used : option string
}.

(** The three tables, each in insertion order. No operation removes a row. *)
Record Store : Type := mkStore {
  users : list User;
  conversations : list Conversation;
  messages : list Message
}.

Definition empty_store : Store := mkStore [] [] [].

Definition has_id (k : nat) (id : option nat) : bool :=
  match id with Some j => j =? k | None => false end.

(** The key given to a new row: one more than every key in the table. *)
Definition next_id (ids : list (option nat)) : nat :=
  S (fold_right (fun id m => match id with Some j => Nat.max j m | None => m end) 0 ids).

Definition find_user (k : nat) (st : Store) : option User :=
  find (fun u => has_id k (usr_id u)) (users st).

Definition find_user_by_username (name : string) (st : Store) : option User :=
  find (fun u => String.eqb (username u) name) (users st).

Definition find_conversation (k : nat) (st : Store) : option Conversation :=
  find (fun c => has_id k (conv_id c)) (conversations st).

Definition find_message (k : nat) (st : Store) : option Message :=
  find (fun m => has_id k (msg_id m)) (messages st).

Definition set_updated_at (t : Time) (c : Conversation) : Conversation :=
  mkConversation (conv_id c) (title c) (user_id c) (conv_created_at c) t (is_active c).

Definition set_title (s : string) (c : Conversation) : Conversation :=
  mkConversation (conv_id c) s (user_id c) (conv_created_at c) (updated_at c) (is_active c).

Definition set_is_active (b : bool) (c : Conversation) : Conversation :=
  mkConversation (conv_id c) (title c) (user_id c) (conv_created_at c) (updated_at c) b.

(** [INSERT]: the row gets its key [k] and goes to the end of its table. *)
Definition stored_user (k : nat) (u : User) : User :=
  mkUser (Some k) (username u) (display_name u) (user_created_at u) (user_is_active u).

Definition stored_conversation (k : nat) (c : Conversation) : Conversation :=
  mkConversation (Some k) (title c) (user_id c) (conv_created_at c)
                 (updated_at c) (is_active c).

Definition stored_message (k : nat) (m : Message) : Message :=
  mkMessage (Some k) (content m) (message_type m) (conversation_id m)
            (created_at m) (response_time_ms m) (model_used m).

Definition insert_user (u : User) (st : Store) : Store :=
  mkStore (users st ++ [stored_user (next_id (map usr_id (users st))) u])
          (conversations st) (messages st).

Definition insert_conversation (c : Conversation) (st : Store) : Store :=
  mkStore (users st)
          (conversations st
             ++ [stored_conversation (next_id (map conv_id (conversations st))) c])
          (messages st).

Definition insert_message (m : Message) (st : Store) : Store :=
  mkStore (users st) (conversations st)
          (messages st ++ [stored_message (next_id (map msg_id (messages st))) m]).

(** [UPDATE conversations SET ... WHERE id = c.id] *)
Definition write_conversation (c : Conversation) (st : Store) : Store :=
  mkStore (users st)
          (map (fun c' => match conv_id c with
                          | Some k => if has_id k (conv_id c') then c else c'
                          | None => c'
                          end) (conversations st))
          (messages st).

End Models.

(* ===================================================================== *)
(** ** The storage session and the environment of a run *)
(* ===================================================================== *)

Module Session.
Import Models.

(** [asc(...)] and [desc(...)] of an [order_by]. *)
Inductive Direction : Type := Asc | Desc.

Definition in_order (d : Direction) (a b : Time) : Prop :=
  match d with Asc => a <= b | Desc => b <= a end.

(** Modelled from the spec: [app/database.py] and the storage engine it
    sets up behind [get_session] are not part of the sources. An engine
    answers ORDER BY: it returns the selected rows rearranged by one sort
    key, ascending or descending. *)
Definition Engine : Type :=
  forall A : Type, Direction -> (A -> Time) -> list A -> list A.

Definition order_by (engine : Engine) {A : Type} := engine A.

(** Modelled from the spec: what every engine guarantees of ORDER BY (the
    rows "sorted by" the key, spec 4.1): the result is the selected rows,
    rearranged, and the key is in order along it. The statements of the
    service name no second key, so the order of rows with equal keys is the
    engine's. *)
Record engine_contract (engine : Engine) : Prop := mkContract {
  order_by_permutation :
    forall (A : Type) (d : Direction) (key : A -> Time) (rows : list A),
      Permutation rows (order_by engine d key rows);
  order_by_sorted :
    forall (A : Type) (d : Direction) (key : A -> Time) (rows : list A),
      StronglySorted (fun a b => in_order d (key a) (key b)) (order_by engine d key rows)
}.

(** Modelled from the spec: the storage engine behind [get_session] is
    not part of the sources; of rows with equal keys the spec says that
    "ties are broken by insertion order" (spec 3) and that the ordering "is
    stable under insertion order when timestamps collide" (spec 8). An
    engine that keeps ties returns, among the rows of any one key, the
    selected rows in the order in which it was given them, which is the
    order of the table. *)
Record keeps_ties (engine : Engine) : Prop := mkKeepsTies {
  keeps_ties_contract : engine_contract engine;
  order_by_keeps_ties :
    forall (A : Type) (d : Direction) (key : A -> Time) (rows : list A) (k : Time),
      filter (fun r => key r =? k) (order_by engine d key rows)
      = filter (fun r => key r =? k) rows
}.

(** An engine: sorting by insertion, a row going before the first row
    whose key is not before its own. It meets the contract and keeps ties
    ([SortFacts]). *)
Definition goes_before (d : Direction) (a b : Time) : bool :=
  match d with
  | Asc => a <=? b
  | Desc => b <=? a
  end.

Fixpoint insert_row {A : Type} (d : Direction) (key : A -> Time)
         (x : A) (sorted : list A) : list A :=
  match sorted with
  | [] => [x]
  | y :: rest =>
      if goes_before d (key x) (key y) then x :: y :: rest
      else y :: insert_row d key x rest
  end.

Fixpoint insertion_sort {A : Type} (d : Direction) (key : A -> Time)
         (rows : list A) : list A :=
  match rows with
  | [] => []
  | x :: rest => insert_row d key x (insertion_sort d key rest)
  end.

Definition keep_ties_engine : Engine :=
  fun A d key rows => insertion_sort d key rows.

(** What can go wrong in a call. *)
Inductive Exn : Type :=
| ValidationError      (* a schema's [max_length] is exceeded *)
| IntegrityError       (* a foreign key or uniqueness constraint *)
| OperationalError     (* the storage failed during a round trip *)
| InvalidRequestError  (* [refresh] of a row that is not there *)
| OtherError.          (* anything else raised inside a [try] *)

(** The store and the environment of a run. [ticks] are the amounts by
    which the clock advances before each of the coming clock reads,
    [faults] tell for each of the coming storage round trips whether it
    fails, [draws] are the coming random draws. An exhausted list means:
    the clock stands still, no fault, draw 0. *)
Record World : Type := mkWorld {
  db : Store;
  clock : Time;
  ticks : list nat;
  faults : list bool;
  draws : list nat
}.

Definition set_db (st : Store) (w : World) : World :=
  mkWorld st (clock w) (ticks w) (faults w) (draws w).

Inductive Outcome (A : Type) : Type :=
| Returned (a : A)
| Raised (e : Exn).
Arguments Returned {A} a.
Arguments Raised {A} e.

(** A computation: it returns or raises, and in both cases leaves a world
    behind (what was committed stays committed). *)
Definition M (A : Type) : Type := World -> Outcome A * World.

Definition ret {A : Type} (a : A) : M A := fun w => (Returned a, w).

Definition raise {A : Type} (e : Exn) : M A := fun w => (Raised e, w).

Definition bind {A B : Type} (m : M A) (k : A -> M B) : M B :=
  fun w => match m w with
           | (Returned a, w') => k a w'
           | (Raised e, w') => (Raised e, w')
           end.

(** [try: m except Exception as e: handler e] *)
Definition try_except {A : Type} (m : M A) (handler : Exn -> M A) : M A :=
  fun w => match m w with
           | (Returned a, w') => (Returned a, w')
           | (Raised e, w') => handler e w'
           end.

Declare Scope session_scope.
Delimit Scope session_scope with session.
Notation "x <- m ;; k" := (bind m (fun x => k))
  (at level 61, m at next level, right associativity) : session_scope.
Notation "m ;;; k" := (bind m (fun _ => k))
  (at level 61, right associativity) : session_scope.
Local Open Scope session_scope.

(** The world after the clock has advanced by the next tick. *)
Definition advance (w : World) : World :=
  match ticks w with
  | [] => w
  | d :: rest => mkWorld (db w) (clock w + d) rest (faults w) (draws w)
  end.

(** [datetime.utcnow()], [time.time()] *)
Definition utcnow : M Time :=
  fun w => (Returned (clock (advance w)), advance w).

(** The draw behind one [random.choice]. *)
Definition after_draw (w : World) : World :=
  mkWorld (db w) (clock w) (ticks w) (faults w) (tl (draws w)).

Definition random_draw : M nat :=
  fun w => (Returned (hd 0 (draws w)), after_draw w).

(** One round trip to the storage: it fails when the environment says so. *)
Definition next_fault (w : World) : bool := hd false (faults w).

Definition after_round_trip (w : World) : World :=
  mkWorld (db w) (clock w) (ticks w) (tl (faults w)) (draws w).

Definition round_trip : M unit :=
  fun w => (if next_fault w then Raised OperationalError else Returned tt,
            after_round_trip w).

(** Some coming round trip fails; in a quiet world none does. *)
Definition fault_coming (w : World) : Prop := In true (faults w).

Definition quiet (w : World) : Prop := faults w = [].

(** From [w] to [w'] every message row is kept as it is and in place; new
    rows come after them. *)
Definition keeps_messages (w w' : World) : Prop :=
  exists l, messages (db w') = messages (db w) ++ l.

Definition read {A : Type} (q : Store -> A) : M A :=
  fun w => (Returned (q (db w)), w).

Definition write (f : Store -> Store) : M unit :=
  fun w => (Returned tt, set_db (f (db w)) w).

(** A schema field declared with [max_length]. *)
Definition check_max_length (n : nat) (s : string) : M unit :=
  if String.length s <=? n then ret tt else raise ValidationError.

Definition check_max_length_opt (n : nat) (s : option string) : M unit :=
  match s with Some s' => check_max_length n s' | None => ret tt end.

(** *** Session calls

    The calls the services make on the session that [get_session] yields.
    Each call is one round trip to the storage; a call that raises leaves
    the store as it was. *)

(** [session.exec(select(User).where(User.username == username)).first()] *)
Definition exec_first_user (name : string) : M (option User) :=
  round_trip ;;; read (find_user_by_username name).

(** Modelled from the spec: [app/database.py], which sets up the storage,
    is not part of the sources; the storage enforces the uniqueness that
    [User.username] declares ([unique=True]; spec 3, 6).
    [session.add(user); session.commit()] for a new user: the row gets its
    key and goes to the end of the table. *)
Definition commit_new_user (u : User) : M User :=
  round_trip ;;;
  existing <- read (find_user_by_username (username u)) ;;
  match existing with
  | Some _ => raise IntegrityError
  | None =>
      k <- read (fun st => next_id (map usr_id (users st))) ;;
      write (insert_user u) ;;;
      ret (stored_user k u)
  end.

(** [session.refresh(user)] *)
Definition refresh_user (u : User) : M User :=
  round_trip ;;;
  row <- read (fun st => match usr_id u with
                         | Some k => find_user k st
                         | None => None
                         end) ;;
  match row with
  | Some u' => ret u'
  | None => raise InvalidRequestError
  end.

(** Modelled from the spec: [app/database.py], which sets up the storage,
    is not part of the sources; the storage enforces the foreign key that
    [Conversation.user_id] declares (spec 4.1: "enforced by the underlying
    storage's referential constraint").
    [session.add(conversation); session.commit()] for a new conversation. *)
Definition commit_new_conversation (c : Conversation) : M Conversation :=
  round_trip ;;;
  owner <- read (find_user (user_id c)) ;;
  match owner with
  | None => raise IntegrityError
  | Some _ =>
      k <- read (fun st => next_id (map conv_id (conversations st))) ;;
      write (insert_conversation c) ;;;
      ret (stored_conversation k c)
  end.

(** [session.refresh(conversation)] *)
Definition refresh_conversation (c : Conversation) : M Conversation :=
  round_trip ;;;
  row <- read (fun st => match conv_id c with
                         | Some k => find_conversation k st
                         | None => None
                         end) ;;
  match row with
  | Some c' => ret c'
  | None => raise InvalidRequestError
  end.

(** [session.get(Conversation, conversation_id)] *)
Definition get (conversation_id : nat) : M (option Conversation) :=
  round_trip ;;; read (find_conversation conversation_id).

(** [session.add(conversation); session.commit()] for a loaded
    conversation whose fields were assigned *)
Definition commit_conversation (c : Conversation) : M unit :=
  round_trip ;;; write (write_conversation c).

(** Modelled from the spec: [app/database.py], which sets up the storage,
    is not part of the sources; the storage enforces the foreign key that
    [Message.conversation_id] declares (spec 3: "creating a message for a
    non-existent conversation is a no-op failure").
    [session.add(message); session.commit()] for a new message. *)
Definition commit_new_message (m : Message) : M Message :=
  round_trip ;;;
  parent <- read (find_conversation (conversation_id m)) ;;
  match parent with
  | None => raise IntegrityError
  | Some _ =>
      k <- read (fun st => next_id (map msg_id (messages st))) ;;
      write (insert_message m) ;;;
      ret (stored_message k m)
  end.

(** [session.refresh(message)] *)
Definition refresh_message (m : Message) : M Message :=
  round_trip ;;;
  row <- read (fun st => match msg_id m with
                         | Some k => find_message k st
                         | None => None
                         end) ;;
  match row with
  | Some m' => ret m'
  | None => raise InvalidRequestError
  end.

(** [wp m Q w]: the run of [m] from [w] ends in an outcome and a world
    that satisfy [Q]. A computation is a function, so this speaks of the one
    run there is from [w]. *)
Definition wp {A : Type} (m : M A) (Q : Outcome A -> World -> Prop) (w : World) : Prop :=
  Q (fst (m w)) (snd (m w)).

End Session.

(* ===================================================================== *)
(** ** [ConversationService]: [app/conversation_service.py] *)
(* ===================================================================== *)

Module ConversationService.
Import PyStr Models Session.
Local Open Scope session_scope.

(** [x or default] on an optional string *)
Definition or_else (x : option string) (default : string) : string :=
  match x with
  | Some s => if truthy s then s else default
  | None => default
  end.

Definition get_or_create_user (username : string) (display_name : option string)
  : M (option User) :=
  try_except
    (user <- exec_first_user username ;;
     match user with
     | Some u => ret (Some u)
     | None =>
         let display := or_else display_name username in
         check_max_length 100 username ;;;
         check_max_length 200 display ;;;
         now <- utcnow ;;
         user <- commit_new_user (mkUser None username display now true) ;;
         user <- refresh_user user ;;
         ret (Some user)
     end)
    (fun _ => ret None).

Definition create_conversation (user_id : nat) (title : option string)
  : M (option Conversation) :=
  try_except
    (let title' := or_else title "New Conversation" in
     check_max_length 500 title' ;;;
     created <- utcnow ;;
     updated <- utcnow ;;
     conversation <- commit_new_conversation
                       (mkConversation None title' user_id created updated true) ;;
     conversation <- refresh_conversation conversation ;;
     ret (Some conversation))
    (fun _ => ret None).

Definition get_conversation (conversation_id : nat) : M (option Conversation) :=
  try_except (get conversation_id) (fun _ => ret None).

Definition create_message (content : string) (message_type : MessageType)
           (conversation_id : nat) (response_time_ms : option nat)
           (model_used : option string) : M (option Message) :=
  try_except
    (check_max_length 5000 content ;;;
     check_max_length_opt 100 model_used ;;;
     now <- utcnow ;;
     message <- commit_new_message
                  (mkMessage None content message_type conversation_id now
                             response_time_ms model_used) ;;
     message <- refresh_message message ;;
     (* Update conversation's updated_at timestamp *)
     conversation <- get conversation_id ;;
     match conversation with
     | Some c =>
         now' <- utcnow ;;
         commit_conversation (set_updated_at now' c)
     | None => ret tt
     end ;;;
     ret (Some message))
    (fun _ => ret None).

Definition update_conversation_title (conversation_id : nat) (title : string)
  : M (option Conversation) :=
  try_except
    (conversation <- get conversation_id ;;
     match conversation with
     | None => ret None
     | Some c =>
         now <- utcnow ;;
         let c' := set_updated_at now (set_title title c) in
         commit_conversation c' ;;;
         c'' <- refresh_conversation c' ;;
         ret (Some c'')
     end)
    (fun _ => ret None).

Definition delete_conversation (conversation_id : nat) : M bool :=
  try_except
    (conversation <- get conversation_id ;;
     match conversation with
     | None => ret false
     | Some c =>
         now <- utcnow ;;
         commit_conversation (set_updated_at now (set_is_active false c)) ;;;
         ret true
     end)
    (fun _ => ret false).

(** The three ways a call of [create_message] can end, each with what
    brings it about: nothing stored; the message stored and the conversation
    not touched; the message stored and the conversation touched. [t] is the
    clock read for [created_at], [t'] the one for [updated_at]. *)
Inductive create_message_end (content : string) (message_type : MessageType)
          (conversation_id : nat) (response_time_ms : option nat)
          (model_used : option string) (w : World)
  : Outcome (option Message) -> World -> Prop :=
| Nothing_stored (w' : World) :
    5000 < String.length content
    \/ (exists s, model_used = Some s /\ 100 < String.length s)
    \/ next_fault w = true
    \/ find_conversation conversation_id (db w) = None ->
    db w' = db w ->
    create_message_end content message_type conversation_id response_time_ms
                       model_used w (Returned None) w'
| Insert_only (c : Conversation) (t : Time) (w' : World) :
    next_fault w = false -> fault_coming w ->
    find_conversation conversation_id (db w) = Some c ->
    clock w <= t -> t <= clock w' ->
    db w' = insert_message
              (mkMessage None content message_type conversation_id t
                         response_time_ms model_used) (db w) ->
    create_message_end content message_type conversation_id response_time_ms
                       model_used w (Returned None) w'
| Insert_and_touch (c : Conversation) (t t' : Time) (w' : World) :
    next_fault w = false ->
    find_conversation conversation_id (db w) = Some c ->
    clock w <= t -> t <= t' -> t' = clock w' ->
    db w' = write_conversation
              (set_updated_at t' c)
              (insert_message
                 (mkMessage None content message_type conversation_id t
                            response_time_ms model_used) (db w)) ->
    create_message_end content message_type conversation_id response_time_ms
                       model_used w
                       (Returned
                          (Some (mkMessage
                                   (Some (next_id (map msg_id (messages (db w)))))
                                   content message_type conversation_id t
                                   response_time_ms model_used)))
                       w'.

Section Queries.

Variable engine : Engine.

(** [select(Conversation).where(user_id == ...)[.where(is_active)]
     .order_by(desc(updated_at))] *)
Definition select_user_conversations (user_id : nat) (active_only : bool)
           (st : Store) : list Conversation :=
  let rows := filter (fun c => Models.user_id c =? user_id) (conversations st) in
  let rows := if active_only then filter is_active rows else rows in
  order_by engine Desc updated_at rows.

Definition get_user_conversations (user_id : nat) (active_only : bool)
  : M (list Conversation) :=
  try_except
    (round_trip ;;; read (select_user_conversations user_id active_only))
    (fun _ => ret []).

(** [select(Message).where(conversation_id == ...).order_by(asc(created_at))
     [.limit(limit)]]; [if limit:] skips [None] and [0]. *)
Definition select_conversation_messages (conversation_id : nat) (limit : option nat)
           (st : Store) : list Message :=
  let rows := filter (fun m => Models.conversation_id m =? conversation_id) (messages st) in
  let rows := order_by engine Asc created_at rows in
  match limit with
  | Some (S n) => firstn (S n) rows
  | _ => rows
  end.

Definition get_conversation_messages (conversation_id : nat) (limit : option nat)
  : M (list Message) :=
  try_except
    (round_trip ;;; read (select_conversation_messages conversation_id limit))
    (fun _ => ret []).

End Queries.

(** Rows with equal [created_at] stand in the result in the order in which
    they stand in the table, that is, in insertion order. *)
Definition ties_in_insertion_order (table result : list Message) : Prop :=
  forall i j mi mj,
    i < j ->
    nth_error result i = Some mi ->
    nth_error result j = Some mj ->
    created_at mi = created_at mj ->
    exists p q, p < q /\ nth_error table p = Some mi /\ nth_error table q = Some mj.

End ConversationService.

(* ===================================================================== *)
(** ** [ChatbotService]: [app/chatbot_service.py] *)
(* ===================================================================== *)

Module ChatbotService.
Import PyStr Models Session.
Local Open Scope session_scope.

Definition model_name : string := "simple-chatbot-v1.0".

Definition error_reply : string :=
  "I'm sorry, I encountered an error while processing your message. Please try again.".

(** [generate_response] as a call: one random draw, then the rules. *)
Definition generate_response (user_message : string) : M string :=
  rnd <- random_draw ;;
  ret (Generator.generate_response rnd user_message).

Definition create_bot_message (content : string) (conversation_id : nat)
           (response_time_ms : option nat) : M (option Message) :=
  try_except
    (check_max_length 5000 content ;;;
     check_max_length_opt 100 (Some model_name) ;;;
     now <- utcnow ;;
     message <- commit_new_message
                  (mkMessage None content BOT conversation_id now
                             response_time_ms (Some model_name)) ;;
     message <- refresh_message message ;;
     ret (Some message))
    (fun _ => ret None).

(** The ways a call of [create_bot_message] can end. No branch touches the
    conversation. *)
Inductive create_bot_message_end (content : string) (conversation_id : nat)
          (response_time_ms : option nat) (w : World)
  : Outcome (option Message) -> World -> Prop :=
| Bot_nothing_stored (w' : World) :
    5000 < String.length content
    \/ next_fault w = true
    \/ find_conversation conversation_id (db w) = None ->
    db w' = db w ->
    create_bot_message_end content conversation_id response_time_ms w
                           (Returned None) w'
| Bot_insert_unseen (c : Conversation) (t : Time) (w' : World) :
    next_fault w = false -> fault_coming w ->
    find_conversation conversation_id (db w) = Some c ->
    clock w <= t -> t <= clock w' ->
    db w' = insert_message
              (mkMessage None content BOT conversation_id t
                         response_time_ms (Some model_name)) (db w) ->
    create_bot_message_end content conversation_id response_time_ms w
                           (Returned None) w'
| Bot_insert (c : Conversation) (t : Time) (w' : World) :
    next_fault w = false ->
    find_conversation conversation_id (db w) = Some c ->
    clock w <= t -> t = clock w' ->
    db w' = insert_message
              (mkMessage None content BOT conversation_id t
                         response_time_ms (Some model_name)) (db w) ->
    create_bot_message_end content conversation_id response_time_ms w
                           (Returned
                              (Some (mkMessage
                                       (Some (next_id (map msg_id (messages (db w)))))
                                       content BOT conversation_id t
                                       response_time_ms (Some model_name))))
                           w'.

(** [process_user_message], with the method it calls through [self] as a
    parameter: the [except] branch is what runs when that method raises,
    which [generate_response] does not. [int((t1 - t0) * 1000)] of two
    clock reads in seconds is the whole number of milliseconds between
    them. *)
Definition process_user_message_with (self_generate_response : string -> M string)
           (user_message : string) (conversation_id : nat) : M (option Message) :=
  start_time <- utcnow ;;
  try_except
    (response_content <- self_generate_response user_message ;;
     end_time <- utcnow ;;
     let response_time_ms := (end_time - start_time) / 1000 in
     bot_message <- create_bot_message response_content conversation_id
                                       (Some response_time_ms) ;;
     ret bot_message)
    (fun _ => create_bot_message error_reply conversation_id None).

Definition process_user_message : string -> nat -> M (option Message) :=
  process_user_message_with generate_response.

(** The world in which [process_user_message] reaches the persistence
    step: two clock reads and one draw later, the store as it was; and the
    response time it has measured by then. *)
Definition at_persistence (w : World) : World :=
  advance (after_draw (advance w)).

Definition elapsed_ms (w : World) : nat :=
  (clock (at_persistence w) - clock (advance w)) / 1000.

End ChatbotService.

(* ===================================================================== *)
(** ** One turn of the exchange: [ChatbotUI.send_message] *)
(* ===================================================================== *)

Module ChatbotUI.
Import PyStr Models Session.
Local Open Scope session_scope.

(** The title given after the first exchange: the first four words,
    cut to 47 characters and an ellipsis when longer than 50. *)
Definition auto_title (content : string) : string :=
  let title_words := firstn 4 (split (strip content)) in
  let new_title := join " " title_words in
  if 50 <? String.length new_title then (take 47 new_title ++ "...")%string
  else new_title.

(** [send_message] without the widgets: the conversation the page holds,
    the text typed, and the bot message shown (or none). *)
Definition send_message_with (self_generate_response : string -> M string)
           (current_conversation : option Conversation) (content : string)
  : M (option Message) :=
  match current_conversation with
  | None => ret None
  | Some conversation =>
      if negb (truthy (strip content)) then ret None
      else
        match conv_id conversation with
        | None => ret None
        | Some id =>
            try_except
              (user_message <- ConversationService.create_message
                                 (strip content) USER id None None ;;
               match user_message with
               | None => ret None
               | Some _ =>
                   bot_message <- ChatbotService.process_user_message_with
                                    self_generate_response (strip content) id ;;
                   match bot_message with
                   | Some b =>
                       (if String.eqb (title conversation) "New Chat"
                        then ConversationService.update_conversation_title
                               id (auto_title content) ;;; ret tt
                        else ret tt) ;;;
                       ret (Some b)
                   | None => ret None
                   end
               end)
              (fun _ => ret None)
        end
  end.

Definition send_message : option Conversation -> string -> M (option Message) :=
  send_message_with ChatbotService.generate_response.

End ChatbotUI.

(* ===================================================================== *)
(** ** Example stores and worlds *)
(* ===================================================================== *)

Module Examples.
Import Models Session.

Definition alice : User := mkUser (Some 1) "alice" "Alice" 10 true.

Definition chat : Conversation :=
  mkConversation (Some 1) "New Conversation" 1 20 20 true.

(** One user with one conversation and no message. *)
Definition one_chat : Store := mkStore [alice] [chat] [].

(** The clock at 100, advancing by 5 before each of the next reads. *)
Definition steady (st : Store) (faults : list bool) : World :=
  mkWorld st 100 [5; 5; 5; 5; 5; 5; 5; 5] faults [].

(** The clock at 100 and standing still. *)
Definition frozen (st : Store) : World := mkWorld st 100 [] [] [].

(** Two messages of one conversation created at the same instant. *)
Definition first_message : Message := mkMessage (Some 1) "first" USER 1 100 None None.
Definition second_message : Message := mkMessage (Some 2) "second" USER 1 100 None None.

Definition tie_store : Store :=
  mkStore [alice]
          [mkConversation (Some 1) "New Conversation" 1 20 100 true]
          [first_message; second_message].

(** The world after "Hello" has been stored as a user message, in a run in
    which the fifth round trip fails, and the message stored. *)
Definition hello_sent : World := steady one_chat [false; false; false; false; true].

Definition hello_stored : World :=
  snd (ConversationService.create_message "Hello" USER 1 None None hello_sent).

Definition hello : Message := mkMessage (Some 1) "Hello" USER 1 105 None None.

End Examples.

(* ===================================================================== *)
(** ** Blank text *)
(* ===================================================================== *)

Module Blank.
Import PyStr.

(** Every character is white space (so also: the empty string). *)
Fixpoint blank (s : string) : bool :=
  match s with
  | EmptyString => true
  | String c s' => isspace c && blank s'
  end.

(** The first character is not white space; the last one is not. *)
Definition starts_nonspace (s : string) : bool :=
  match s with
  | EmptyString => false
  | String c _ => negb (isspace c)
  end.

Fixpoint ends_nonspace (s : string) : bool :=
  match s with
  | EmptyString => false
  | String c EmptyString => negb (isspace c)
  | String _ s' => ends_nonspace s'
  end.

End Blank.

(* ===================================================================== *)
(** ** [ConversationService.get_conversation_with_messages] *)
(* ===================================================================== *)

Module ConversationView.
Import PyStr Models Session.
Local Open Scope session_scope.

(** The schemas [MessageResponse] and [ConversationWithMessages] of
    [app/models.py]; dates are ISO strings. *)
Record MessageResponse : Type := mkMessageResponse {
  response_id : nat;
  response_content : string;
  response_message_type : MessageType;
  response_conversation_id : nat;
  response_created_at : string;
  response_response_time_ms : option nat;
  response_model_used : option string
}.

Record ConversationWithMessages : Type := mkConversationWithMessages {
  view_id : nat;
  view_title : string;
  view_user_id : nat;
  view_created_at : string;
  view_updated_at : string;
  view_is_active : bool;
  view_messages : list MessageResponse
}.

(** [x.id or 0] *)
Definition id_or_0 (id : option nat) : nat :=
  match id with Some k => k | None => 0 end.

Section View.

Variable engine : Engine.

(** [datetime.isoformat], of the standard library. *)
Variable isoformat : Time -> string.

Definition message_response (msg : Message) : MessageResponse :=
  mkMessageResponse (id_or_0 (msg_id msg)) (content msg) (message_type msg)
                    (conversation_id msg) (isoformat (created_at msg))
                    (response_time_ms msg) (model_used msg).

Definition get_conversation_with_messages (conversation_id : nat)
  : M (option ConversationWithMessages) :=
  try_except
    (conversation <- get conversation_id ;;
     match conversation with
     | None => ret None
     | Some c =>
         messages <- ConversationService.get_conversation_messages
                       engine conversation_id None ;;
         ret (Some (mkConversationWithMessages
                      (id_or_0 (conv_id c)) (title c) (user_id c)
                      (isoformat (conv_created_at c)) (isoformat (updated_at c))
                      (is_active c) (map message_response messages)))
     end)
    (fun _ => ret None).

End View.

End ConversationView.

(* ===================================================================== *)
(** ** The page's conversation: [ChatbotUI.create_new_conversation],
       [ChatbotUI.load_conversation], [ChatbotUI.refresh_messages] *)
(* ===================================================================== *)

Module Page.
Import PyStr Models Session.
Local Open Scope session_scope.

(** What a [ChatbotUI] holds, as far as the storage is concerned: the user,
    the conversation, the id kept in the tab storage, and whether the
    message container has been built. Notifications and the drawing of
    messages are left out. *)
Record Page : Type := mkPage {
  current_user : option User;
  current_conversation : option Conversation;
  tab_conversation_id : option nat;
  message_container : bool
}.

Definition set_conversation (p : Page) (c : option Conversation) (tab : option nat)
  : Page :=
  mkPage (current_user p) c tab (message_container p).

Section WithEngine.

Variable engine : Engine.

(** [refresh_messages]: the messages are read again when there is a
    container to draw them in and a stored conversation to read. *)
Definition refresh_messages (p : Page) : M unit :=
  match current_conversation p with
  | None => ret tt
  | Some c =>
      if negb (message_container p) then ret tt
      else
        match conv_id c with
        | None => ret tt
        | Some id =>
            try_except
              (ConversationService.get_conversation_messages engine id None ;;; ret tt)
              (fun _ => ret tt)
        end
  end.

Definition create_new_conversation (p : Page) : M (bool * Page) :=
  match current_user p with
  | None => ret (false, p)
  | Some u =>
      match usr_id u with
      | None => ret (false, p)
      | Some uid =>
          try_except
            (c <- ConversationService.create_conversation uid (Some "New Chat") ;;
             match c with
             | Some conversation =>
                 ret (true, set_conversation p c (conv_id conversation))
             | None => ret (false, set_conversation p None (tab_conversation_id p))
             end)
            (fun _ => ret (false, p))
      end
  end.

Definition load_conversation (p : Page) (conversation_id : nat) : M (bool * Page) :=
  try_except
    (c <- ConversationService.get_conversation conversation_id ;;
     match c with
     | Some _ =>
         let p' := set_conversation p c (Some conversation_id) in
         refresh_messages p' ;;;
         ret (true, p')
     | None => ret (false, set_conversation p None (tab_conversation_id p))
     end)
    (fun _ => ret (false, p)).

End WithEngine.

End Page.

(* ===================================================================== *)
(** ** Calls and what they do to the store *)
(* ===================================================================== *)

Module History.
Import PyStr Models Session.

(** One change of the clock or of the store, as the calls of the services
    make them. The time is the clock at the change. A new row carries the
    clock as its date; a conversation is rewritten with the clock as its
    updated_at, with any title, and with is_active as it was or false. *)
Inductive micro : Time * Store -> Time * Store -> Prop :=
| Tick (t t' : Time) (st : Store) :
    t <= t' -> micro (t, st) (t', st)
| Insert_user (t : Time) (st : Store) (u : User) :
    find_user_by_username (username u) st = None ->
    user_created_at u = t ->
    micro (t, st) (t, insert_user u st)
| Insert_conversation (t : Time) (st : Store) (c : Conversation) :
    find_user (user_id c) st <> None ->
    conv_created_at c <= updated_at c -> updated_at c = t ->
    is_active c = true ->
    micro (t, st) (t, insert_conversation c st)
| Insert_message (t : Time) (st : Store) (m : Message) :
    find_conversation (conversation_id m) st <> None ->
    created_at m = t ->
    micro (t, st) (t, insert_message m st)
| Touch (t : Time) (st : Store) (k : nat) (c : Conversation)
        (new_title : string) (active : bool) :
    find_conversation k st = Some c ->
    (active = is_active c \/ active = false) ->
    micro (t, st)
          (t, write_conversation
                (mkConversation (conv_id c) new_title (user_id c)
                                (conv_created_at c) t active) st).

(** Any number of changes, one after the other. *)
Inductive history : Time * Store -> Time * Store -> Prop :=
| history_refl (x : Time * Store) : history x x
| history_step (x y z : Time * Store) : history x y -> micro y z -> history x z.

(** Keys: every stored row has a key, keys are not shared within a table,
    nor are usernames. *)
Definition has_key (id : option nat) : Prop := id <> None.

Record keys_ok (st : Store) : Prop := mkKeysOk {
  users_have_keys : Forall has_key (map usr_id (users st));
  user_keys_differ : NoDup (map usr_id (users st));
  usernames_differ : NoDup (map username (users st));
  conversations_have_keys : Forall has_key (map conv_id (conversations st));
  conversation_keys_differ : NoDup (map conv_id (conversations st));
  messages_have_keys : Forall has_key (map msg_id (messages st));
  message_keys_differ : NoDup (map msg_id (messages st))
}.

(** References: every conversation has its user, every message its
    conversation. *)
Record references_ok (st : Store) : Prop := mkReferencesOk {
  conversations_have_users :
    forall c, In c (conversations st) -> find_user (user_id c) st <> None;
  messages_have_conversations :
    forall m, In m (messages st) -> find_conversation (conversation_id m) st <> None
}.

(** Dates: nothing is dated after the clock, a conversation is not updated
    before it is created, and the messages stand in the table in the order
    of their dates. *)
Record dates_ok (x : Time * Store) : Prop := mkDatesOk {
  users_dated : forall u, In u (users (snd x)) -> user_created_at u <= fst x;
  conversations_dated :
    forall c, In c (conversations (snd x)) ->
              conv_created_at c <= updated_at c /\ updated_at c <= fst x;
  messages_dated : forall m, In m (messages (snd x)) -> created_at m <= fst x;
  messages_in_date_order :
    StronglySorted (fun a b => created_at a <= created_at b) (messages (snd x))
}.

(** From one store to a later one: the users and the messages that were
    there are there as they were, in place; the keys of the conversations
    are there, in place; every conversation that was there is there under
    its key, with the user and the creation date it had, and inactive if it
    was. *)
Record grown (st st' : Store) : Prop := mkGrown {
  users_kept : exists l, users st' = users st ++ l;
  messages_kept : exists l, messages st' = messages st ++ l;
  conversation_keys_kept :
    exists l, map conv_id (conversations st') = map conv_id (conversations st) ++ l;
  conversations_kept :
    forall k c, find_conversation k st = Some c ->
      exists c', find_conversation k st' = Some c' /\
                 conv_id c' = conv_id c /\
                 user_id c' = user_id c /\
                 conv_created_at c' = conv_created_at c /\
                 (is_active c = false -> is_active c' = false)
}.

(** No conversation is updated earlier in the later store than in the
    first. *)
Definition not_updated_earlier (st st' : Store) : Prop :=
  forall k c, find_conversation k st = Some c ->
    exists c', find_conversation k st' = Some c' /\ updated_at c <= updated_at c'.

(** The calls a user of the services can make. *)
Inductive Call : Type :=
| Get_or_create_user (username : string) (display_name : option string)
| Create_conversation (user_id : nat) (title : option string)
| Get_conversation (conversation_id : nat)
| Get_user_conversations (user_id : nat) (active_only : bool)
| Create_message (content : string) (message_type : MessageType)
                 (conversation_id : nat) (response_time_ms : option nat)
                 (model_used : option string)
| Get_conversation_messages (conversation_id : nat) (limit : option nat)
| Get_conversation_with_messages (conversation_id : nat)
| Update_conversation_title (conversation_id : nat) (title : string)
| Delete_conversation (conversation_id : nat)
| Create_bot_message (content : string) (conversation_id : nat)
                     (response_time_ms : option nat)
| Process_user_message (user_message : string) (conversation_id : nat)
| Send_message (current_conversation : option Conversation) (content : string).

Section Calls.

Variable engine : Engine.
Variable isoformat : Time -> string.

(** The world a call leaves. *)
Definition after_call (c : Call) (w : World) : World :=
  match c with
  | Get_or_create_user n d => snd (ConversationService.get_or_create_user n d w)
  | Create_conversation u t => snd (ConversationService.create_conversation u t w)
  | Get_conversation k => snd (ConversationService.get_conversation k w)
  | Get_user_conversations u a =>
      snd (ConversationService.get_user_conversations engine u a w)
  | Create_message s ty k rt mu =>
      snd (ConversationService.create_message s ty k rt mu w)
  | Get_conversation_messages k l =>
      snd (ConversationService.get_conversation_messages engine k l w)
  | Get_conversation_with_messages k =>
      snd (ConversationView.get_conversation_with_messages engine isoformat k w)
  | Update_conversation_title k t =>
      snd (ConversationService.update_conversation_title k t w)
  | Delete_conversation k => snd (ConversationService.delete_conversation k w)
  | Create_bot_message s k rt => snd (ChatbotService.create_bot_message s k rt w)
  | Process_user_message s k => snd (ChatbotService.process_user_message s k w)
  | Send_message cur s => snd (ChatbotUI.send_message cur s w)
  end.

(** The world a sequence of calls leaves. *)
Definition after_calls (cs : list Call) (w : World) : World :=
  fold_left (fun w c => after_call c w) cs w.

End Calls.

End History.

(* ===================================================================== *)
(** ** Sample texts *)
(* ===================================================================== *)

From Stdlib Require DecimalString.

Module Samples.
Import Models History.

(** [n] times the letter a. *)
Definition letters (n : nat) : string := string_of_list_ascii (repeat "a"%char n).

(** A username one character beyond the bound of the schema. *)
Definition long_name : string := letters 101.

(** A message of 5100 characters, beyond the 5000 of the schema. *)
Definition long_text : string := letters (51 * 100).

(** A conversation as [ChatbotUI.create_new_conversation] makes it, and the
    store that holds it. *)
Definition new_chat : Conversation :=
  mkConversation (Some 1) "New Chat" 1 20 20 true.

Definition new_chat_store : Store := mkStore [Examples.alice] [new_chat] [].

(** A session: a second user comes, opens a chat and says hello; the first
    chat is renamed, written to, deleted and read. *)
Definition session_calls : list Call :=
  [ Get_or_create_user "bob" None;
    Create_conversation 2 (Some "New Chat");
    Send_message (Some (mkConversation (Some 2) "New Chat" 2 0 0 true)) "Hello";
    Update_conversation_title 1 "Renamed";
    Create_message "again" USER 1 None None;
    Delete_conversation 1;
    Process_user_message "bye" 1;
    Get_conversation_with_messages 1 ].

(** A page that has its user and no conversation yet, and one that holds
    the only conversation of [Examples.one_chat]. *)
Definition fresh_page : Page.Page :=
  Page.mkPage (Some Examples.alice) None None true.

Definition chat_page : Page.Page :=
  Page.mkPage (Some Examples.alice) (Some Examples.chat) (Some 1) true.

(** [datetime.isoformat], for the examples: the clock reading in decimal. *)
Definition isoformat (t : nat) : string :=
  DecimalString.NilEmpty.string_of_uint (Nat.to_uint t).

End Samples.

(* ===================================================================== *)
(** * Properties *)
(* ===================================================================== *)

(** ** Sorting by insertion meets the engine's contract and keeps ties *)

Module SortFacts.
Import Models Session.

Section InsertionSort.

Context {A : Type}.
Variables (d : Direction) (key : A -> Time).

Let R (a b : A) : Prop := in_order d (key a) (key b).

Lemma goes_before_true (a b : Time) :
  goes_before d a b = true -> in_order d a b.
Proof.
  unfold goes_before, in_order; destruct d; intros H;
    apply Nat.leb_le in H; lia.
Qed.

Lemma goes_before_false (a b : Time) :
  goes_before d a b = false -> in_order d b a /\ a <> b.
Proof.
  unfold goes_before, in_order; destruct d; intros H;
    apply Nat.leb_gt in H; lia.
Qed.

Lemma in_order_trans (a b c : Time) :
  in_order d a b -> in_order d b c -> in_order d a c.
Proof. unfold in_order; destruct d; lia. Qed.

Lemma insert_row_permutation (x : A) (l : list A) :
  Permutation (x :: l) (insert_row d key x l).
Proof.
  induction l as [|y l IH]; simpl.
  - reflexivity.
  - destruct (goes_before d (key x) (key y)).
    + reflexivity.
    + rewrite perm_swap. now apply perm_skip.
Qed.

Lemma insertion_sort_permutation (l : list A) :
  Permutation l (insertion_sort d key l).
Proof.
  induction l as [|x l IH]; simpl.
  - constructor.
  - rewrite <- insert_row_permutation. now apply perm_skip.
Qed.

Lemma insert_row_sorted (x : A) (l : list A) :
  StronglySorted R l -> StronglySorted R (insert_row d key x l).
Proof.
  induction 1 as [|y l Hl IH Hy]; simpl.
  - constructor; constructor.
  - destruct (goes_before d (key x) (key y)) eqn:Hxy.
    + apply goes_before_true in Hxy.
      constructor; [constructor; assumption|].
      constructor; [exact Hxy|].
      eapply Forall_impl; [|exact Hy].
      intros z Hz. eapply in_order_trans; [exact Hxy|exact Hz].
    + apply goes_before_false in Hxy. destruct Hxy as [Hxy _].
      constructor; [exact IH|].
      eapply Permutation_Forall; [apply insert_row_permutation|].
      constructor; assumption.
Qed.

Lemma insertion_sort_sorted (l : list A) :
  StronglySorted R (insertion_sort d key l).
Proof.
  induction l as [|x l IH]; simpl.
  - constructor.
  - now apply insert_row_sorted.
Qed.

(** A row is put before the first row whose key is not before its own:
    the rows it passes have other keys, so among the rows of one key it
    stays first. *)
Lemma insert_row_keeps_ties (k : Time) (x : A) (l : list A) :
  filter (fun r => key r =? k) (insert_row d key x l)
  = filter (fun r => key r =? k) (x :: l).
Proof.
  induction l as [|y l IH]; [reflexivity|].
  cbn [insert_row].
  destruct (goes_before d (key x) (key y)) eqn:Hxy; [reflexivity|].
  apply goes_before_false in Hxy. destruct Hxy as [_ Hne].
  cbn [filter] in *. rewrite IH.
  destruct (Nat.eqb_spec (key x) k) as [Hx|Hx];
    destruct (Nat.eqb_spec (key y) k) as [Hy|Hy]; try reflexivity.
  congruence.
Qed.

Lemma insertion_sort_keeps_ties (k : Time) (l : list A) :
  filter (fun r => key r =? k) (insertion_sort d key l)
  = filter (fun r => key r =? k) l.
Proof.
  induction l as [|x l IH]; [reflexivity|].
  cbn [insertion_sort]. rewrite insert_row_keeps_ties.
  cbn [filter]. now rewrite IH.
Qed.

End InsertionSort.

End SortFacts.

Lemma keep_ties_engine_contract : Session.engine_contract Session.keep_ties_engine.
Proof.
  split; intros A d key rows; unfold Session.order_by, Session.keep_ties_engine.
  - apply SortFacts.insertion_sort_permutation.
  - apply SortFacts.insertion_sort_sorted.
Qed.

Lemma keep_ties_engine_keeps_ties : Session.keeps_ties Session.keep_ties_engine.
Proof.
  split; [exact keep_ties_engine_contract|].
  intros A d key rows k. unfold Session.order_by, Session.keep_ties_engine.
  apply SortFacts.insertion_sort_keeps_ties.
Qed.

(* ===================================================================== *)
(** ** The response generator *)
(* ===================================================================== *)

Module GeneratorFacts.
Import PyStr Generator.

Lemma choice_In (rnd : nat) (seq : list string) :
  seq <> [] -> In (choice rnd seq) seq.
Proof.
  intros Hne. unfold choice. apply nth_In.
  apply Nat.mod_upper_bound. destruct seq; [contradiction|discriminate].
Qed.

Lemma mem_In (s : string) (l : list string) : mem s l = true <-> In s l.
Proof.
  unfold mem. rewrite existsb_exists. split.
  - intros [y [Hy He]]. apply String.eqb_eq in He. now subst.
  - intros H. exists s. split; [assumption|apply String.eqb_refl].
Qed.

Lemma disjoint_spec (l1 l2 : list string) (s : string) :
  disjoint l1 l2 = true -> In s l1 -> ~ In s l2.
Proof.
  unfold disjoint. rewrite forallb_forall. intros H H1 H2.
  apply H in H1. apply mem_In in H2. rewrite H2 in H1. discriminate.
Qed.

(** On a question that holds no greeting keyword the reply is one of the
    replies of the question branch, whatever else the message holds. *)
Lemma respond_question (rnd : nat) (s : string) :
  any_in greeting_keywords s = false ->
  endswith "?" s = true ->
  In (respond rnd s) question_category_responses.
Proof.
  intros Hg Hq. unfold respond. rewrite Hg, Hq.
  unfold question_category_responses.
  destruct (contains "how are you" s); [simpl; tauto|].
  destruct (contains "what" s && contains "name" s); [simpl; tauto|].
  destruct (contains "weather" s); [simpl; tauto|].
  destruct (contains "time" s); [simpl; tauto|].
  do 4 right. apply choice_In. discriminate.
Qed.

(** A message with a greeting keyword gets a greeting, question or not. *)
Lemma respond_greeting (rnd : nat) (s : string) :
  any_in greeting_keywords s = true ->
  In (respond rnd s) greeting_responses.
Proof.
  intros Hg. unfold respond. rewrite Hg. apply choice_In. discriminate.
Qed.

(** Whatever the message and the draw, the reply is one of the fixed
    strings of the rules. *)
Lemma respond_range (rnd : nat) (s : string) : In (respond rnd s) all_responses.
Proof.
  assert (Hc : forall l, l <> [] -> (forall x, In x l -> In x all_responses) ->
                         In (choice rnd l) all_responses)
    by (intros l Hl Hincl; apply Hincl, choice_In, Hl).
  assert (Hm : forall x, mem x all_responses = true -> In x all_responses)
    by (intros x; apply mem_In).
  assert (Hsub : forall l, forallb (fun x => mem x all_responses) l = true ->
                           forall x, In x l -> In x all_responses).
  { intros l Hl x Hx. rewrite forallb_forall in Hl. apply mem_In. now apply Hl. }
  unfold respond.
  repeat match goal with
         | |- In (if ?b then _ else _) _ => destruct b
         end;
    first [ apply Hm; vm_compute; reflexivity
          | apply Hc; [discriminate|apply Hsub; vm_compute; reflexivity] ].
Qed.

(** C1, as stated, fails: the greeting test comes first, so a question that
    holds a greeting keyword ("hello?") gets a greeting reply. *)
Lemma question_may_get_greeting :
  ~ (forall (rnd : nat) (x : string),
        endswith "?" (normalize x) = true ->
        ~ In (generate_response rnd x) greeting_responses).
Proof.
  intros H. apply (H 0 "hello?").
  - reflexivity.
  - apply respond_greeting. reflexivity.
Qed.

(** C1, amended: for every input whose trimmed, lower-cased form ends with
    "?" and holds none of the greeting keywords, generate returns a reply of
    the question category (2) and never one of the four greeting replies nor
    a reply of categories 3 to 8, whatever keywords of those categories the
    input holds. *)
Theorem question_without_greeting (rnd : nat) (x : string) :
  endswith "?" (normalize x) = true ->
  any_in greeting_keywords (normalize x) = false ->
  In (generate_response rnd x) question_category_responses /\
  ~ In (generate_response rnd x) greeting_responses /\
  ~ In (generate_response rnd x) later_category_responses.
Proof.
  intros Hq Hg.
  assert (Hin : In (generate_response rnd x) question_category_responses)
    by (apply respond_question; assumption).
  split; [exact Hin|split].
  - revert Hin. apply disjoint_spec. vm_compute. reflexivity.
  - revert Hin. apply disjoint_spec. vm_compute. reflexivity.
Qed.

Lemma question_without_greeting_witness :
  In (generate_response 1 "I am sad, what time?") question_category_responses /\
  ~ In (generate_response 1 "I am sad, what time?") greeting_responses /\
  ~ In (generate_response 1 "I am sad, what time?") later_category_responses.
Proof.
  apply (question_without_greeting 1 "I am sad, what time?"); reflexivity.
Defined.

Lemma respond_default (rnd : nat) (s : string) :
  no_keyword_category s = true -> In (respond rnd s) default_responses.
Proof.
  unfold no_keyword_category. intros H.
  repeat (apply andb_prop in H; destruct H as [H ?]).
  repeat match goal with
         | H : negb _ = true |- _ => apply negb_true_iff in H
         end.
  unfold respond.
  repeat match goal with
         | H : _ = false |- _ => rewrite H; clear H
         end.
  apply choice_In. discriminate.
Qed.

(** C9: generate("Hello") is one of the four greeting replies; generate("")
    and generate("   ") match no keyword category and are each one of the
    six fallback replies, none of which is empty. *)
Theorem hello_and_blank_inputs (rnd : nat) :
  In (generate_response rnd "Hello") greeting_responses /\
  (no_keyword_category (normalize "") = true /\
   In (generate_response rnd "") default_responses /\
   generate_response rnd "" <> "") /\
  (no_keyword_category (normalize "   ") = true /\
   In (generate_response rnd "   ") default_responses /\
   generate_response rnd "   " <> "").
Proof.
  assert (Hne : forall s, In s default_responses -> s <> "").
  { intros s Hs He. subst s. revert Hs.
    change (~ In "" default_responses).
    rewrite <- mem_In. vm_compute. discriminate. }
  split; [apply respond_greeting; reflexivity|].
  split.
  - assert (H : In (generate_response rnd "") default_responses)
      by (apply respond_default; reflexivity).
    split; [reflexivity|split; [exact H|apply Hne, H]].
  - assert (H : In (generate_response rnd "   ") default_responses)
      by (apply respond_default; reflexivity).
    split; [reflexivity|split; [exact H|apply Hne, H]].
Qed.

End GeneratorFacts.

(* ===================================================================== *)
(** ** Reasoning about runs *)
(* ===================================================================== *)

Module RunFacts.
Import Models Session.
Local Open Scope session_scope.

Lemma wp_run {A : Type} (m : M A) (Q : Outcome A -> World -> Prop) (w : World) :
  wp m Q w <-> (forall o w', m w = (o, w') -> Q o w').
Proof.
  unfold wp. split.
  - intros H o w' E. rewrite E in H. exact H.
  - intros H. apply H. destruct (m w); reflexivity.
Qed.

Lemma wp_conseq {A : Type} (m : M A) (Q Q' : Outcome A -> World -> Prop) (w : World) :
  wp m Q w -> (forall o w', Q o w' -> Q' o w') -> wp m Q' w.
Proof. unfold wp. auto. Qed.

Lemma wp_ret {A : Type} (a : A) (Q : Outcome A -> World -> Prop) (w : World) :
  Q (Returned a) w -> wp (ret a) Q w.
Proof. exact (fun H => H). Qed.

Lemma wp_raise {A : Type} (e : Exn) (Q : Outcome A -> World -> Prop) (w : World) :
  Q (Raised e) w -> wp (raise e) Q w.
Proof. exact (fun H => H). Qed.

Lemma wp_bind {A B : Type} (m : M A) (k : A -> M B)
      (Q : Outcome B -> World -> Prop) (w : World) :
  wp m (fun o w' => match o with
                    | Returned a => wp (k a) Q w'
                    | Raised e => Q (Raised e) w'
                    end) w ->
  wp (bind m k) Q w.
Proof.
  unfold wp, bind. destruct (m w) as [[a|e] w']; simpl; auto.
Qed.

Lemma wp_try_except {A : Type} (m : M A) (h : Exn -> M A)
      (Q : Outcome A -> World -> Prop) (w : World) :
  wp m (fun o w' => match o with
                    | Returned a => Q (Returned a) w'
                    | Raised e => wp (h e) Q w'
                    end) w ->
  wp (try_except m h) Q w.
Proof.
  unfold wp, try_except. destruct (m w) as [[a|e] w']; simpl; auto.
Qed.

Lemma wp_utcnow (Q : Outcome Time -> World -> Prop) (w : World) :
  Q (Returned (clock (advance w))) (advance w) -> wp utcnow Q w.
Proof. exact (fun H => H). Qed.

Lemma wp_random_draw (Q : Outcome nat -> World -> Prop) (w : World) :
  Q (Returned (hd 0 (draws w))) (after_draw w) ->
  wp random_draw Q w.
Proof. exact (fun H => H). Qed.

Lemma wp_round_trip (Q : Outcome unit -> World -> Prop) (w : World) :
  (next_fault w = true -> Q (Raised OperationalError) (after_round_trip w)) ->
  (next_fault w = false -> Q (Returned tt) (after_round_trip w)) ->
  wp round_trip Q w.
Proof.
  unfold wp, round_trip. simpl. destruct (next_fault w); auto.
Qed.

Lemma wp_read {A : Type} (q : Store -> A) (Q : Outcome A -> World -> Prop) (w : World) :
  Q (Returned (q (db w))) w -> wp (read q) Q w.
Proof. exact (fun H => H). Qed.

Lemma wp_write (f : Store -> Store) (Q : Outcome unit -> World -> Prop) (w : World) :
  Q (Returned tt) (set_db (f (db w)) w) -> wp (write f) Q w.
Proof. exact (fun H => H). Qed.

Lemma wp_check_max_length (n : nat) (s : string)
      (Q : Outcome unit -> World -> Prop) (w : World) :
  (String.length s <= n -> Q (Returned tt) w) ->
  (n < String.length s -> Q (Raised ValidationError) w) ->
  wp (check_max_length n s) Q w.
Proof.
  unfold check_max_length. intros H1 H2.
  destruct (String.length s <=? n) eqn:E.
  - apply Nat.leb_le in E. apply wp_ret; auto.
  - apply Nat.leb_gt in E. apply wp_raise; auto.
Qed.

(** One step of a run, chosen by the shape of the computation. *)
Ltac wp_step :=
  lazymatch goal with
  | |- wp (bind _ _) _ _ => apply wp_bind
  | |- wp (try_except _ _) _ _ => apply wp_try_except
  | |- wp (ret _) _ _ => apply wp_ret
  | |- wp (raise _) _ _ => apply wp_raise
  | |- wp utcnow _ _ => apply wp_utcnow
  | |- wp random_draw _ _ => apply wp_random_draw
  | |- wp (read _) _ _ => apply wp_read
  | |- wp (write _) _ _ => apply wp_write
  | |- wp round_trip _ _ => apply wp_round_trip; intros ?
  | |- wp (check_max_length _ _) _ _ => apply wp_check_max_length; intros ?
  end;
  cbn beta iota.

Ltac wp_steps := repeat wp_step.

(** *** The environment across the primitive steps *)

Lemma db_advance (w : World) : db (advance w) = db w.
Proof. unfold advance. destruct (ticks w); reflexivity. Qed.

Lemma faults_advance (w : World) : faults (advance w) = faults w.
Proof. unfold advance. destruct (ticks w); reflexivity. Qed.

Lemma next_fault_advance (w : World) : next_fault (advance w) = next_fault w.
Proof. unfold next_fault. now rewrite faults_advance. Qed.

Lemma clock_advance (w : World) : clock w <= clock (advance w).
Proof. unfold advance. destruct (ticks w); simpl; lia. Qed.

Lemma db_after_round_trip (w : World) : db (after_round_trip w) = db w.
Proof. reflexivity. Qed.

Lemma clock_after_round_trip (w : World) : clock (after_round_trip w) = clock w.
Proof. reflexivity. Qed.

Lemma quiet_next_fault (w : World) : quiet w -> next_fault w = false.
Proof. unfold quiet, next_fault. now intros ->. Qed.

Lemma quiet_advance (w : World) : quiet w -> quiet (advance w).
Proof. unfold quiet. now rewrite faults_advance. Qed.

Lemma quiet_after_round_trip (w : World) : quiet w -> quiet (after_round_trip w).
Proof. unfold quiet, after_round_trip. simpl. now intros ->. Qed.

Lemma quiet_set_db (st : Store) (w : World) : quiet w -> quiet (set_db st w).
Proof. exact (fun H => H). Qed.

Lemma quiet_no_fault (w : World) : quiet w -> ~ fault_coming w.
Proof. unfold quiet, fault_coming. intros ->. exact (fun H => H). Qed.

Lemma hd_true_In (l : list bool) : hd false l = true -> In true l.
Proof. destruct l; simpl; [discriminate|auto]. Qed.

Lemma In_tl {A : Type} (x : A) (l : list A) : In x (tl l) -> In x l.
Proof. destruct l; simpl; auto. Qed.

(** From a fault met at some step of the run to [fault_coming] at its start. *)
Ltac fault_trace :=
  match goal with
  | H : next_fault _ = true |- fault_coming _ =>
      unfold next_fault in H;
      repeat (cbn [faults after_round_trip set_db] in H; rewrite ?faults_advance in H);
      apply hd_true_In in H; repeat apply In_tl in H; exact H
  end.

(** A quiet world stays quiet along the run. *)
Ltac quiet_trace :=
  match goal with
  | Hq : quiet ?w |- quiet _ =>
      unfold quiet in *;
      repeat (cbn [faults after_round_trip after_draw set_db]; rewrite ?faults_advance);
      rewrite ?Hq; reflexivity
  end.

End RunFacts.

(* ===================================================================== *)
(** ** The store *)
(* ===================================================================== *)

Module StoreFacts.
Import Models.

Lemma has_id_true (k : nat) (id : option nat) : has_id k id = true <-> id = Some k.
Proof.
  destruct id as [j|]; simpl.
  - rewrite Nat.eqb_eq. split; [now intros ->|now intros [= ->]].
  - split; discriminate.
Qed.

Lemma next_id_above (ids : list (option nat)) (j : nat) :
  In (Some j) ids -> j < next_id ids.
Proof.
  unfold next_id. induction ids as [|id ids IH]; simpl; [contradiction|].
  intros [->|Hin].
  - lia.
  - specialize (IH Hin). destruct id; lia.
Qed.

Lemma find_fresh {A : Type} (id : A -> option nat) (rows : list A) :
  find (fun r => has_id (next_id (map id rows)) (id r)) rows = None.
Proof.
  destruct (find _ rows) as [r|] eqn:E; [|reflexivity].
  apply find_some in E. destruct E as [Hin Hid].
  apply has_id_true in Hid.
  assert (next_id (map id rows) < next_id (map id rows)); [|lia].
  apply next_id_above. rewrite <- Hid. now apply in_map.
Qed.

Lemma find_app_new {A : Type} (p : A -> bool) (rows : list A) (r : A) :
  find p rows = None -> p r = true -> find p (rows ++ [r]) = Some r.
Proof.
  induction rows as [|x rows IH]; simpl; intros Hn Hp.
  - now rewrite Hp.
  - destruct (p x); [discriminate|auto].
Qed.

Lemma find_app_old {A : Type} (p : A -> bool) (rows : list A) (r x : A) :
  find p rows = Some x -> find p (rows ++ [r]) = Some x.
Proof.
  induction rows as [|y rows IH]; simpl; [discriminate|].
  destruct (p y); auto.
Qed.

Lemma find_message_inserted (m : Message) (st : Store) :
  find_message (next_id (map msg_id (messages st))) (insert_message m st)
  = Some (stored_message (next_id (map msg_id (messages st))) m).
Proof.
  unfold find_message, insert_message. simpl.
  apply find_app_new; [apply (find_fresh msg_id)|].
  simpl. apply Nat.eqb_refl.
Qed.

Lemma find_user_inserted (u : User) (st : Store) :
  find_user (next_id (map usr_id (users st))) (insert_user u st)
  = Some (stored_user (next_id (map usr_id (users st))) u).
Proof.
  unfold find_user, insert_user. simpl.
  apply find_app_new; [apply (find_fresh usr_id)|].
  simpl. apply Nat.eqb_refl.
Qed.

Lemma find_conversation_inserted (c : Conversation) (st : Store) :
  find_conversation (next_id (map conv_id (conversations st))) (insert_conversation c st)
  = Some (stored_conversation (next_id (map conv_id (conversations st))) c).
Proof.
  unfold find_conversation, insert_conversation. simpl.
  apply find_app_new; [apply (find_fresh conv_id)|].
  simpl. apply Nat.eqb_refl.
Qed.

Lemma find_user_by_username_inserted (u : User) (st : Store) :
  find_user_by_username (username u) st = None ->
  find_user_by_username (username u) (insert_user u st)
  = Some (stored_user (next_id (map usr_id (users st))) u).
Proof.
  intros H. unfold find_user_by_username, insert_user in *. simpl.
  apply find_app_new; [exact H|]. simpl. apply String.eqb_refl.
Qed.

Lemma find_conversation_id (k : nat) (st : Store) (c : Conversation) :
  find_conversation k st = Some c -> conv_id c = Some k.
Proof.
  intros H. apply find_some in H. now apply has_id_true.
Qed.

Lemma find_conversation_In (k : nat) (st : Store) (c : Conversation) :
  find_conversation k st = Some c -> In c (conversations st).
Proof. intros H. now apply find_some in H. Qed.

(** After [UPDATE ... WHERE id = k] the row found under [k] is the new one. *)
Lemma find_conversation_written (k : nat) (st : Store) (c c' : Conversation) :
  find_conversation k st = Some c ->
  conv_id c' = Some k ->
  find_conversation k (write_conversation c' st) = Some c'.
Proof.
  unfold find_conversation, write_conversation. simpl. intros H Hid. rewrite Hid.
  induction (conversations st) as [|x rows IH]; simpl in *; [discriminate|].
  destruct (has_id k (conv_id x)) eqn:E.
  - rewrite Hid. simpl. now rewrite Nat.eqb_refl.
  - rewrite E. auto.
Qed.

(** ... and the rows under other keys are as before. *)
Lemma find_conversation_written_other (k j : nat) (st : Store) (c' : Conversation) :
  conv_id c' = Some k -> j <> k ->
  find_conversation j (write_conversation c' st) = find_conversation j st.
Proof.
  unfold find_conversation, write_conversation. simpl. intros Hid Hne. rewrite Hid.
  induction (conversations st) as [|x rows IH]; simpl; [reflexivity|].
  destruct (has_id k (conv_id x)) eqn:E.
  - rewrite Hid. simpl. apply has_id_true in E. rewrite E. simpl.
    destruct (Nat.eqb_spec k j); [congruence|]. exact IH.
  - destruct (has_id j (conv_id x)); [reflexivity|exact IH].
Qed.

Lemma In_write_conversation (c' : Conversation) (k : nat) (st : Store)
      (x : Conversation) :
  conv_id c' = Some k ->
  In x (conversations (write_conversation c' st)) ->
  x = c' \/ (In x (conversations st) /\ conv_id x <> Some k).
Proof.
  unfold write_conversation. simpl. intros Hid. rewrite Hid.
  induction (conversations st) as [|y rows IH]; simpl; [contradiction|].
  intros [Hx|Hx].
  - destruct (has_id k (conv_id y)) eqn:E.
    + left. now symmetry.
    + right. subst x. split; [now left|].
      intros Hk. apply has_id_true in Hk. congruence.
  - destruct (IH Hx) as [?|[? ?]]; [now left|right; split; [now right|assumption]].
Qed.

Lemma In_written (c' c : Conversation) (k : nat) (st : Store) :
  conv_id c' = Some k -> conv_id c = Some k ->
  In c (conversations st) ->
  In c' (conversations (write_conversation c' st)).
Proof.
  unfold write_conversation. simpl. intros Hid Hc. rewrite Hid.
  induction (conversations st) as [|y rows IH]; simpl; [contradiction|].
  intros [->|Hin].
  - left. apply has_id_true in Hc. now rewrite Hc.
  - right. now apply IH.
Qed.

Lemma messages_write_conversation (c : Conversation) (st : Store) :
  messages (write_conversation c st) = messages st.
Proof. reflexivity. Qed.

End StoreFacts.

(* ===================================================================== *)
(** ** [ConversationService]: the ways its calls end *)
(* ===================================================================== *)

Module ConversationFacts.
Import PyStr Models Session RunFacts StoreFacts ConversationService.
Local Open Scope session_scope.

Lemma wp_commit_new_message (m : Message) (Q : Outcome Message -> World -> Prop) (w : World) :
  (next_fault w = true -> Q (Raised OperationalError) (after_round_trip w)) ->
  (next_fault w = false -> find_conversation (conversation_id m) (db w) = None ->
   Q (Raised IntegrityError) (after_round_trip w)) ->
  (forall c, next_fault w = false ->
             find_conversation (conversation_id m) (db w) = Some c ->
             Q (Returned (stored_message (next_id (map msg_id (messages (db w)))) m))
               (set_db (insert_message m (db w)) (after_round_trip w))) ->
  wp (commit_new_message m) Q w.
Proof.
  intros H1 H2 H3. unfold commit_new_message.
  wp_steps; [auto|].
  cbn [db after_round_trip].
  destruct (find_conversation (conversation_id m) (db w)) as [c|] eqn:E.
  - wp_steps. eapply H3; eauto.
  - wp_steps. auto.
Qed.

Lemma wp_refresh_message (m : Message) (Q : Outcome Message -> World -> Prop) (w : World) :
  (next_fault w = true -> Q (Raised OperationalError) (after_round_trip w)) ->
  (forall m', next_fault w = false ->
              (exists k, msg_id m = Some k /\ find_message k (db w) = Some m') ->
              Q (Returned m') (after_round_trip w)) ->
  (next_fault w = false ->
   (forall k, msg_id m = Some k -> find_message k (db w) = None) ->
   Q (Raised InvalidRequestError) (after_round_trip w)) ->
  wp (refresh_message m) Q w.
Proof.
  intros H1 H2 H3. unfold refresh_message.
  wp_steps; [auto|].
  cbn [db after_round_trip].
  destruct (msg_id m) as [k|] eqn:Ek.
  - destruct (find_message k (db w)) as [m'|] eqn:E; wp_steps.
    + apply H2; eauto.
    + apply H3; auto. intros k' [= <-]. exact E.
  - wp_steps. apply H3; auto. discriminate.
Qed.

Lemma wp_get (k : nat) (Q : Outcome (option Conversation) -> World -> Prop) (w : World) :
  (next_fault w = true -> Q (Raised OperationalError) (after_round_trip w)) ->
  (next_fault w = false ->
   Q (Returned (find_conversation k (db w))) (after_round_trip w)) ->
  wp (get k) Q w.
Proof.
  intros H1 H2. unfold get. wp_steps; auto.
Qed.

Lemma wp_commit_conversation (c : Conversation) (Q : Outcome unit -> World -> Prop) (w : World) :
  (next_fault w = true -> Q (Raised OperationalError) (after_round_trip w)) ->
  (next_fault w = false ->
   Q (Returned tt) (set_db (write_conversation c (db w)) (after_round_trip w))) ->
  wp (commit_conversation c) Q w.
Proof.
  intros H1 H2. unfold commit_conversation. wp_steps; auto.
Qed.


Lemma wp_check_max_length_opt (n : nat) (s : option string)
      (Q : Outcome unit -> World -> Prop) (w : World) :
  ((forall s', s = Some s' -> String.length s' <= n) -> Q (Returned tt) w) ->
  ((exists s', s = Some s' /\ n < String.length s') -> Q (Raised ValidationError) w) ->
  wp (check_max_length_opt n s) Q w.
Proof.
  intros H1 H2. destruct s as [s'|]; simpl.
  - apply wp_check_max_length; intros H.
    + apply H1. now intros ? [= <-].
    + apply H2. eauto.
  - apply wp_ret. apply H1. discriminate.
Qed.

Ltac wp_call :=
  lazymatch goal with
  | |- wp (check_max_length_opt _ _) _ _ => apply wp_check_max_length_opt; intros ?
  | |- wp (commit_new_message _) _ _ =>
      apply wp_commit_new_message; [intros ?|intros ? ?|intros ? ? ?]
  | |- wp (refresh_message _) _ _ =>
      apply wp_refresh_message; [intros ?|intros ? ? ?|intros ? ?]
  | |- wp (get _) _ _ => apply wp_get; intros ?
  | |- wp (commit_conversation _) _ _ => apply wp_commit_conversation; intros ?
  | |- _ => wp_step
  end;
  cbn beta iota.

Ltac world_simpl :=
  repeat (progress (cbn [db clock ticks faults draws after_round_trip set_db
                         conversation_id msg_id stored_message
                         conversations messages users insert_message] in *;
                    rewrite ?db_advance in * ));
  try rewrite !db_advance in *.

Ltac clock_le :=
  cbn [clock after_round_trip set_db];
  repeat first
    [ apply Nat.le_refl
    | apply clock_advance
    | (etransitivity; [|apply clock_advance]); cbn [clock after_round_trip set_db] ].

Lemma create_message_cases content ty cid rt mu (w : World) :
  wp (create_message content ty cid rt mu)
     (create_message_end content ty cid rt mu w) w.
Proof.
  unfold create_message.
  repeat wp_call; world_simpl;
    try (apply Nothing_stored; [|world_simpl; reflexivity];
         rewrite ?next_fault_advance in *; tauto);
    try (eapply Insert_only with (t := clock (advance w));
         [now rewrite <- next_fault_advance|fault_trace|eassumption|apply clock_advance|clock_le|world_simpl; reflexivity]).
  change (find_conversation cid (insert_message _ (db w)))
    with (find_conversation cid (db w)).
  match goal with H : find_conversation cid (db w) = Some _ |- _ => rewrite H end.
  repeat wp_call; world_simpl.
  - eapply Insert_only with (t := clock (advance w));
      [now rewrite <- next_fault_advance|fault_trace|eassumption|apply clock_advance|clock_le|world_simpl; reflexivity].
  - match goal with
    | H : exists k, _ /\ find_message k _ = Some _ |- _ =>
        destruct H as [k [[= <-] Hf]]; rewrite find_message_inserted in Hf;
        injection Hf as <-
    end.
    eapply Insert_and_touch with (t := clock (advance w));
      [now rewrite <- next_fault_advance|eassumption|apply clock_advance|idtac|reflexivity|reflexivity].
    clock_le.
  - match goal with
    | H : forall k, _ -> find_message k _ = None |- _ =>
        specialize (H _ eq_refl); rewrite find_message_inserted in H; discriminate
    end.
Qed.

Lemma create_message_quiet content ty cid rt mu c (w : World) :
  quiet w -> String.length content <= 5000 ->
  (forall s, mu = Some s -> String.length s <= 100) ->
  find_conversation cid (db w) = Some c ->
  exists t t' w',
    create_message content ty cid rt mu w
    = (Returned (Some (mkMessage (Some (next_id (map msg_id (messages (db w)))))
                                 content ty cid t rt mu)), w') /\
    clock w <= t /\ t <= t' /\ t' = clock w' /\
    db w' = write_conversation
              (set_updated_at t' c)
              (insert_message (mkMessage None content ty cid t rt mu) (db w)).
Proof.
  intros Hq Hlen Hmu Hc.
  pose proof (create_message_cases content ty cid rt mu w) as H. unfold wp in H.
  destruct (create_message content ty cid rt mu w) as [o w']. simpl in H.
  inversion H; subst.
  - exfalso. rewrite (quiet_next_fault _ Hq) in *.
    match goal with
    | H : _ \/ _ \/ _ \/ _ |- _ =>
        destruct H as [?|[[s [Hs ?]]|[?|?]]];
        [lia|apply Hmu in Hs; lia|discriminate|congruence]
    end.
  - exfalso. now apply (quiet_no_fault w).
  - match goal with
    | H1 : find_conversation cid (db w) = Some ?c0 |- _ =>
        rewrite Hc in H1; injection H1 as <-
    end.
    eexists _, _, _. repeat split; try eassumption; reflexivity.
Qed.

Lemma wp_refresh_conversation (c : Conversation)
      (Q : Outcome Conversation -> World -> Prop) (w : World) :
  (forall e, Q (Raised e) (after_round_trip w)) ->
  (forall c', next_fault w = false ->
              (exists k, conv_id c = Some k /\ find_conversation k (db w) = Some c') ->
              Q (Returned c') (after_round_trip w)) ->
  wp (refresh_conversation c) Q w.
Proof.
  intros H1 H2. unfold refresh_conversation.
  wp_steps; [auto|].
  cbn [db after_round_trip].
  destruct (conv_id c) as [k|] eqn:Ek.
  - destruct (find_conversation k (db w)) as [c'|] eqn:E; wp_steps.
    + apply H2; eauto.
    + apply H1.
  - wp_steps. apply H1.
Qed.

(** The ways [update_conversation_title] and [delete_conversation] can
    end: the store as it was, or the one row rewritten with the clock. *)
Lemma update_conversation_title_cases cid new_title (w : World) :
  wp (update_conversation_title cid new_title)
     (fun o w' =>
        (exists r, o = Returned r) /\
        (db w' = db w \/
         exists c t, find_conversation cid (db w) = Some c /\
                     clock w <= t /\ t <= clock w' /\
                     db w' = write_conversation
                               (set_updated_at t (set_title new_title c)) (db w))) w.
Proof.
  unfold update_conversation_title.
  repeat wp_call; world_simpl; try (split; [eauto|left; reflexivity]).
  destruct (find_conversation cid (db w)) as [c|] eqn:Hc;
    repeat wp_call; world_simpl; try (split; [eauto|left; reflexivity]).
  all: apply wp_refresh_conversation; [intros e|intros c' ? ?]; cbn beta iota;
    repeat wp_call; world_simpl;
    (split; [eauto|right; exists c, (clock (advance (after_round_trip w)));
                   repeat split; clock_le]).
Qed.

Lemma delete_conversation_cases cid (w : World) :
  wp (delete_conversation cid)
     (fun o w' =>
        (o = Returned false /\ db w' = db w /\
         (fault_coming w \/ find_conversation cid (db w) = None)) \/
        (exists c t, o = Returned true /\
                     find_conversation cid (db w) = Some c /\
                     clock w <= t /\ t <= clock w' /\
                     db w' = write_conversation
                               (set_updated_at t (set_is_active false c)) (db w))) w.
Proof.
  unfold delete_conversation.
  repeat wp_call; world_simpl;
    try (left; split; [reflexivity|split; [reflexivity|left; fault_trace]]).
  destruct (find_conversation cid (db w)) as [c|] eqn:Hc;
    repeat wp_call; world_simpl;
    try (left; split; [reflexivity|split; [reflexivity|left; fault_trace]]).
  - right. exists c, (clock (advance (after_round_trip w))).
    repeat split; clock_le.
  - left. split; [reflexivity|split; [reflexivity|now right]].
Qed.

End ConversationFacts.

(* ===================================================================== *)
(** ** [ChatbotService] and the turn *)
(* ===================================================================== *)

Module ChatbotFacts.
Import PyStr Models Session RunFacts StoreFacts ConversationFacts.
Import ConversationService ChatbotService.
Local Open Scope session_scope.

Lemma create_bot_message_cases content cid rt (w : World) :
  wp (create_bot_message content cid rt)
     (create_bot_message_end content cid rt w) w.
Proof.
  unfold create_bot_message.
  repeat wp_call; world_simpl;
    try (apply Bot_nothing_stored; [|world_simpl; reflexivity];
         rewrite ?next_fault_advance in *; tauto);
    try (eapply Bot_insert_unseen with (t := clock (advance w));
         [now rewrite <- next_fault_advance|fault_trace|eassumption|apply clock_advance|clock_le|world_simpl; reflexivity]).
  - match goal with
    | H : exists k, _ /\ find_message k _ = Some _ |- _ =>
        destruct H as [k [[= <-] Hf]]; rewrite find_message_inserted in Hf;
        injection Hf as <-
    end.
    eapply Bot_insert with (t := clock (advance w));
      [now rewrite <- next_fault_advance|eassumption|apply clock_advance
      |reflexivity|reflexivity].
  - match goal with
    | H : forall k, _ -> find_message k _ = None |- _ =>
        specialize (H _ eq_refl); rewrite find_message_inserted in H; discriminate
    end.
  - match goal with
    | H : exists s', Some model_name = Some s' /\ _ |- _ =>
        destruct H as [s' [[= <-] Hlen]]; simpl in Hlen; lia
    end.
Qed.

Lemma keeps_messages_refl (w w' : World) : db w' = db w -> keeps_messages w w'.
Proof. intros H. exists []. now rewrite H, app_nil_r. Qed.

Lemma keeps_messages_trans (w1 w2 w3 : World) :
  keeps_messages w1 w2 -> keeps_messages w2 w3 -> keeps_messages w1 w3.
Proof.
  intros [l1 H1] [l2 H2]. exists (l1 ++ l2). now rewrite H2, H1, app_assoc.
Qed.

Lemma create_message_end_keeps content ty cid rt mu w o w' :
  create_message_end content ty cid rt mu w o w' ->
  keeps_messages w w' /\ exists r, o = Returned r.
Proof.
  intros H. inversion H; subst; (split; [|eauto]).
  - now apply keeps_messages_refl.
  - eexists. match goal with H : db w' = _ |- _ => rewrite H end. reflexivity.
  - eexists. match goal with H : db w' = _ |- _ => rewrite H end. reflexivity.
Qed.

Lemma create_bot_message_end_keeps content cid rt w o w' :
  create_bot_message_end content cid rt w o w' ->
  keeps_messages w w' /\ exists r, o = Returned r.
Proof.
  intros H. inversion H; subst; (split; [|eauto]).
  - now apply keeps_messages_refl.
  - eexists. match goal with H : db w' = _ |- _ => rewrite H end. reflexivity.
  - eexists. match goal with H : db w' = _ |- _ => rewrite H end. reflexivity.
Qed.

Lemma draws_advance (w : World) : draws (advance w) = draws w.
Proof. unfold advance. destruct (ticks w); reflexivity. Qed.

Lemma db_at_persistence (w : World) : db (at_persistence w) = db w.
Proof. unfold at_persistence. now rewrite db_advance, <- (db_advance w). Qed.

Lemma faults_at_persistence (w : World) : faults (at_persistence w) = faults w.
Proof.
  unfold at_persistence. rewrite faults_advance. simpl. apply faults_advance.
Qed.

Lemma clock_at_persistence (w : World) : clock w <= clock (at_persistence w).
Proof.
  unfold at_persistence.
  etransitivity; [apply clock_advance|].
  etransitivity; [|apply clock_advance]. apply Nat.le_refl.
Qed.

(** With the rule-based generator the turn is: generate, then persist. The
    outcome is the outcome of the persistence step. *)
Lemma process_user_message_run (s : string) (cid : nat) (w : World) :
  process_user_message s cid w
  = create_bot_message (Generator.generate_response (hd 0 (draws w)) s) cid
                       (Some (elapsed_ms w)) (at_persistence w).
Proof.
  rewrite <- (draws_advance w).
  pose proof (create_bot_message_cases
                (Generator.generate_response (hd 0 (draws (advance w))) s) cid
                (Some (elapsed_ms w)) (at_persistence w)) as H.
  unfold wp in H.
  unfold process_user_message, process_user_message_with, generate_response.
  unfold bind, try_except, utcnow, random_draw, ret.
  fold (at_persistence w). fold (elapsed_ms w).
  destruct (create_bot_message _ cid (Some (elapsed_ms w)) (at_persistence w))
    as [[r|e] w']; [reflexivity|].
  simpl in H. inversion H.
Qed.

(** Generation does not fail: one draw, and the reply of the rules. *)
Lemma generate_response_returns (s : string) (w : World) :
  generate_response s w
  = (Returned (Generator.generate_response (hd 0 (draws w)) s), after_draw w).
Proof. reflexivity. Qed.

(** [create_bot_message] never writes to the conversations. *)
Lemma create_bot_message_end_conversations content cid rt w o w' :
  create_bot_message_end content cid rt w o w' ->
  conversations (db w') = conversations (db w).
Proof.
  intros H. inversion H; subst;
    match goal with Hdb : db w' = _ |- _ => now rewrite Hdb end.
Qed.

Lemma create_bot_message_quiet content cid rt c (w : World) :
  quiet w -> String.length content <= 5000 ->
  find_conversation cid (db w) = Some c ->
  exists b w',
    create_bot_message content cid rt w = (Returned (Some b), w') /\
    b = mkMessage (Some (next_id (map msg_id (messages (db w))))) content BOT cid
                  (clock w') rt (Some model_name) /\
    db w' = insert_message (mkMessage None content BOT cid (clock w') rt
                                      (Some model_name)) (db w) /\
    clock w <= clock w'.
Proof.
  intros Hq Hlen Hc.
  pose proof (create_bot_message_cases content cid rt w) as H. unfold wp in H.
  destruct (create_bot_message content cid rt w) as [o w']. simpl in H.
  inversion H; subst.
  - exfalso. rewrite (quiet_next_fault _ Hq) in *.
    match goal with
    | H : _ \/ _ \/ _ |- _ => destruct H as [?|[?|?]]; [lia|discriminate|congruence]
    end.
  - exfalso. now apply (quiet_no_fault w).
  - eexists _, _. repeat split; try eassumption. 
Qed.

(** In a quiet world [create_bot_message] stores the bot message with the
    clock as its created_at and leaves the conversation's row, and so its
    updated_at, as it was. *)
Lemma create_bot_message_leaves_updated_at content cid rt c (w : World) :
  quiet w -> String.length content <= 5000 ->
  find_conversation cid (db w) = Some c ->
  exists b w',
    create_bot_message content cid rt w = (Returned (Some b), w') /\
    In b (messages (db w')) /\
    find_conversation cid (db w') = Some c /\
    clock w <= created_at b.
Proof.
  intros Hq Hlen Hc.
  destruct (create_bot_message_quiet content cid rt c w Hq Hlen Hc)
    as [b [w' [Hrun [Hb [Hdb Hclock]]]]].
  exists b, w'. split; [exact Hrun|].
  rewrite Hdb. subst b. cbn [created_at].
  split; [cbn; apply in_or_app; right; now left|].
  split; [exact Hc|exact Hclock].
Qed.

End ChatbotFacts.

(* ===================================================================== *)
(** ** Users *)
(* ===================================================================== *)

Module UserFacts.
Import PyStr Models Session RunFacts StoreFacts ConversationFacts ConversationService.
Local Open Scope session_scope.

Lemma find_user_by_username_name (name : string) (st : Store) (u : User) :
  find_user_by_username name st = Some u -> username u = name.
Proof.
  intros H. apply find_some in H. now apply String.eqb_eq.
Qed.

Lemma wp_exec_first_user (name : string)
      (Q : Outcome (option User) -> World -> Prop) (w : World) :
  (next_fault w = true -> Q (Raised OperationalError) (after_round_trip w)) ->
  (next_fault w = false ->
   Q (Returned (find_user_by_username name (db w))) (after_round_trip w)) ->
  wp (exec_first_user name) Q w.
Proof. intros H1 H2. unfold exec_first_user. wp_steps; auto. Qed.

Lemma wp_commit_new_user (u : User) (Q : Outcome User -> World -> Prop) (w : World) :
  (next_fault w = true -> Q (Raised OperationalError) (after_round_trip w)) ->
  (next_fault w = false -> find_user_by_username (username u) (db w) <> None ->
   Q (Raised IntegrityError) (after_round_trip w)) ->
  (next_fault w = false -> find_user_by_username (username u) (db w) = None ->
   Q (Returned (stored_user (next_id (map usr_id (users (db w)))) u))
     (set_db (insert_user u (db w)) (after_round_trip w))) ->
  wp (commit_new_user u) Q w.
Proof.
  intros H1 H2 H3. unfold commit_new_user.
  wp_steps; [auto|].
  cbn [db after_round_trip].
  destruct (find_user_by_username (username u) (db w)) eqn:E; wp_steps.
  - apply H2; [assumption|discriminate].
  - apply H3; [assumption|reflexivity].
Qed.

Lemma wp_refresh_user (u : User) (Q : Outcome User -> World -> Prop) (w : World) :
  (next_fault w = true -> Q (Raised OperationalError) (after_round_trip w)) ->
  (forall u', next_fault w = false ->
              (exists k, usr_id u = Some k /\ find_user k (db w) = Some u') ->
              Q (Returned u') (after_round_trip w)) ->
  (next_fault w = false ->
   (forall k, usr_id u = Some k -> find_user k (db w) = None) ->
   Q (Raised InvalidRequestError) (after_round_trip w)) ->
  wp (refresh_user u) Q w.
Proof.
  intros H1 H2 H3. unfold refresh_user.
  wp_steps; [auto|].
  cbn [db after_round_trip].
  destruct (usr_id u) as [k|] eqn:Ek.
  - destruct (find_user k (db w)) as [u'|] eqn:E; wp_steps.
    + apply H2; eauto.
    + apply H3; auto. intros k' [= <-]. exact E.
  - wp_steps. apply H3; auto. discriminate.
Qed.

Ltac wp_user_call :=
  lazymatch goal with
  | |- wp (exec_first_user _) _ _ => apply wp_exec_first_user; intros ?
  | |- wp (commit_new_user _) _ _ =>
      apply wp_commit_new_user; [intros ?|intros ? ?|intros ? ?]
  | |- wp (refresh_user _) _ _ =>
      apply wp_refresh_user; [intros ?|intros ? ? ?|intros ? ?]
  | |- _ => wp_step
  end;
  cbn beta iota.

(** What [get_or_create_user] returns is the row stored under the name;
    in a quiet world, with a name and a display name within their bounds,
    it returns a user. *)
Ltac no_user_returned :=
  exists None; split; [reflexivity|split; [discriminate|]];
  let Hq := fresh "Hq" in
  intros Hq; split; [quiet_trace|];
  intros ? ?; exfalso;
  first [ lia
        | apply (quiet_no_fault _ Hq); fault_trace
        | cbn [username] in *; congruence ].

Lemma get_or_create_user_cases (name : string) (d : option string) (w : World) :
  wp (get_or_create_user name d)
     (fun o w' =>
        exists r, o = Returned r /\
          (forall u, r = Some u ->
                     find_user_by_username name (db w') = Some u) /\
          (quiet w ->
           quiet w' /\
           (String.length name <= 100 ->
            String.length (or_else d name) <= 200 -> r <> None))) w.
Proof.
  unfold get_or_create_user.
  repeat wp_user_call; world_simpl; try no_user_returned.
  destruct (find_user_by_username name (db w)) as [u|] eqn:Hu.
  - repeat wp_user_call; world_simpl.
    exists (Some u). split; [reflexivity|split].
    + now intros ? [= <-].
    + intros Hq. split; [quiet_trace|discriminate].
  - repeat wp_user_call; world_simpl; try no_user_returned.
    + match goal with
      | H : exists k, _ /\ find_user k _ = Some _ |- _ =>
          cbn [usr_id stored_user] in H;
          destruct H as [k [[= <-] Hf]]; rewrite find_user_inserted in Hf;
          injection Hf as <-
      end.
      eexists. split; [reflexivity|split].
      * intros ? [= <-].
        apply (find_user_by_username_inserted
                 (mkUser None name (or_else d name)
                         (clock (advance (after_round_trip w))) true)).
        exact Hu.
      * intros Hq. split; [quiet_trace|discriminate].
    + match goal with
      | H : forall k, _ -> find_user k _ = None |- _ =>
          cbn [usr_id stored_user] in H;
          specialize (H _ eq_refl); rewrite find_user_inserted in H; discriminate
      end.
Qed.

(** A user stored under the name is returned as stored, whatever display
    name the call carries, and nothing is written; when the storage fails
    the call returns None, and nothing is written either. *)
Lemma get_or_create_user_stored (name : string) (d : option string)
      (u : User) (w : World) :
  find_user_by_username name (db w) = Some u ->
  get_or_create_user name d w
  = (Returned (if next_fault w then None else Some u), after_round_trip w).
Proof.
  intros Hu.
  unfold get_or_create_user, exec_first_user, try_except, bind, round_trip, read.
  destruct (next_fault w); [reflexivity|].
  cbn [db after_round_trip]. rewrite Hu. reflexivity.
Qed.

Lemma get_or_create_user_existing (name : string) (d : option string)
      (u : User) (w : World) :
  find_user_by_username name (db w) = Some u ->
  next_fault w = false ->
  get_or_create_user name d w = (Returned (Some u), after_round_trip w).
Proof.
  intros Hu Hf. rewrite (get_or_create_user_stored name d u w Hu), Hf. reflexivity.
Qed.

(** C6, as stated, fails: for a username of 101 characters the schema
    [UserCreate] refuses the creation, and the two calls return no user at
    all, also with a storage that does not fail. *)
Lemma long_username_gets_no_user :
  ~ (forall (name : string) (d1 d2 : option string) (w : World),
        quiet w ->
        exists u1 u2 w1 w2,
          get_or_create_user name d1 w = (Returned (Some u1), w1) /\
          get_or_create_user name d2 w1 = (Returned (Some u2), w2) /\
          usr_id u1 = usr_id u2).
Proof.
  intros H.
  destruct (H Samples.long_name None None (Examples.frozen Examples.one_chat) eq_refl)
    as [u1 [u2 [w1 [w2 [H1 _]]]]].
  vm_compute in H1. discriminate.
Qed.

(** C6, amended: find-or-create is idempotent per username. For every
    username, display names and world: when the first of two successive
    calls returns a user, that user is stored under the username, the
    second call writes nothing whatever display name it carries (the
    display name stored is not overwritten), and what the second call
    returns is that same user, or None when the storage fails at its
    lookup. With a storage that does not fail, a username of at most 100
    characters and a display name (the username when none is given) of at
    most 200, both calls return the user. *)
Theorem find_or_create_is_idempotent (name : string) (d1 d2 : option string) (w : World) :
  (forall u w1,
      get_or_create_user name d1 w = (Returned (Some u), w1) ->
      username u = name /\
      find_user_by_username name (db w1) = Some u /\
      exists r w2,
        get_or_create_user name d2 w1 = (Returned r, w2) /\
        db w2 = db w1 /\
        find_user_by_username name (db w2) = Some u /\
        (r = Some u \/ (r = None /\ next_fault w1 = true))) /\
  (quiet w ->
   String.length name <= 100 ->
   String.length (or_else d1 name) <= 200 ->
   exists u w1 w2,
     get_or_create_user name d1 w = (Returned (Some u), w1) /\
     get_or_create_user name d2 w1 = (Returned (Some u), w2) /\
     username u = name /\
     db w2 = db w1 /\
     find_user_by_username name (db w2) = Some u).
Proof.
  pose proof (get_or_create_user_cases name d1 w) as H. unfold wp in H.
  destruct (get_or_create_user name d1 w) as [o1 w1]. simpl in H.
  destruct H as [r [-> [Hfound Hquiet]]].
  split.
  - intros u w1' [= -> <-].
    specialize (Hfound u eq_refl).
    split; [eapply find_user_by_username_name; eassumption|].
    split; [exact Hfound|].
    rewrite (get_or_create_user_stored name d2 u w1 Hfound).
    eexists _, _. split; [reflexivity|].
    split; [reflexivity|]. split; [exact Hfound|].
    destruct (next_fault w1); [right; now split|now left].
  - intros Hq Hn Hd.
    destruct (Hquiet Hq) as [Hq1 Hsome].
    destruct r as [u|]; [|exfalso; now apply Hsome].
    specialize (Hfound u eq_refl).
    exists u, w1, (after_round_trip w1).
    split; [reflexivity|].
    split; [apply get_or_create_user_existing; [exact Hfound|now apply quiet_next_fault]|].
    split; [eapply find_user_by_username_name; eassumption|].
    split; [reflexivity|exact Hfound].
Qed.

Lemma find_or_create_is_idempotent_witness :
  (forall u w1,
      get_or_create_user "bob" (Some "Bob") (Examples.frozen Examples.one_chat)
      = (Returned (Some u), w1) ->
      username u = "bob" /\
      find_user_by_username "bob" (db w1) = Some u /\
      exists r w2,
        get_or_create_user "bob" (Some "Robert") w1 = (Returned r, w2) /\
        db w2 = db w1 /\
        find_user_by_username "bob" (db w2) = Some u /\
        (r = Some u \/ (r = None /\ next_fault w1 = true))) /\
  exists u w1 w2,
    get_or_create_user "bob" (Some "Bob") (Examples.frozen Examples.one_chat)
    = (Returned (Some u), w1) /\
    get_or_create_user "bob" (Some "Robert") w1 = (Returned (Some u), w2) /\
    username u = "bob" /\
    display_name u = "Bob" /\
    db w2 = db w1 /\
    find_user_by_username "bob" (db w2) = Some u.
Proof.
  destruct (find_or_create_is_idempotent "bob" (Some "Bob") (Some "Robert")
              (Examples.frozen Examples.one_chat)) as [H1 H2].
  split; [exact H1|].
  destruct H2 as [u [w1 [w2 [Ha [Hb [Hc [Hd He]]]]]]];
    [reflexivity|simpl; lia|simpl; lia|].
  exists u, w1, w2. repeat split; try assumption.
  vm_compute in Ha. injection Ha as <- _. reflexivity.
Defined.

End UserFacts.

(* ===================================================================== *)
(** ** Queries *)
(* ===================================================================== *)

Module QueryFacts.
Import PyStr Models Session RunFacts StoreFacts ConversationFacts ConversationService.
Import Examples.
Local Open Scope session_scope.

Lemma In_firstn {A : Type} (x : A) (n : nat) (l : list A) :
  In x (firstn n l) -> In x l.
Proof.
  revert l. induction n as [|n IH]; intros [|y l]; simpl; try contradiction.
  intros [->|H]; [now left|right; now apply IH].
Qed.

Lemma StronglySorted_firstn {A : Type} (R : A -> A -> Prop) (n : nat) (l : list A) :
  StronglySorted R l -> StronglySorted R (firstn n l).
Proof.
  intros H. revert n. induction H as [|x l Hl IH Hx]; intros [|n]; simpl;
    try constructor.
  - apply IH.
  - rewrite Forall_forall in *. intros y Hy. apply Hx.
    exact (In_firstn _ _ _ Hy).
Qed.

Section WithEngine.

Variable engine : Engine.
Hypothesis contract : engine_contract engine.

Lemma select_conversation_messages_sorted (cid : nat) (limit : option nat) (st : Store) :
  StronglySorted (fun a b => created_at a <= created_at b)
                 (select_conversation_messages engine cid limit st).
Proof.
  unfold select_conversation_messages.
  pose proof (order_by_sorted engine contract Message Asc created_at
                (filter (fun m => conversation_id m =? cid) (messages st))) as H.
  destruct limit as [[|n]|]; try exact H.
  now apply StronglySorted_firstn.
Qed.

Lemma select_conversation_messages_sound (cid : nat) (limit : option nat)
      (st : Store) (m : Message) :
  In m (select_conversation_messages engine cid limit st) ->
  In m (messages st) /\ conversation_id m = cid.
Proof.
  unfold select_conversation_messages. intros H.
  assert (Hin : In m (order_by engine Asc created_at
                        (filter (fun m => conversation_id m =? cid) (messages st)))).
  { destruct limit as [[|n]|]; try exact H. exact (In_firstn _ _ _ H). }
  eapply Permutation_in in Hin;
    [|apply Permutation_sym, (order_by_permutation engine contract)].
  apply filter_In in Hin. destruct Hin as [? E]. now apply Nat.eqb_eq in E.
Qed.

Lemma select_conversation_messages_all (cid : nat) (st : Store) :
  Permutation (filter (fun m => conversation_id m =? cid) (messages st))
              (select_conversation_messages engine cid None st).
Proof. apply (order_by_permutation engine contract). Qed.

Lemma get_conversation_messages_run (cid : nat) (limit : option nat) (w : World) :
  get_conversation_messages engine cid limit w
  = (Returned (if next_fault w then []
               else select_conversation_messages engine cid limit (db w)),
     after_round_trip w).
Proof.
  unfold get_conversation_messages, try_except, bind, round_trip, read, ret.
  destruct (next_fault w); reflexivity.
Qed.

(** *** Conversations of a user *)

Lemma select_user_conversations_In (uid : nat) (active_only : bool)
      (st : Store) (x : Conversation) :
  In x (select_user_conversations engine uid active_only st) <->
  In x (conversations st) /\ user_id x = uid /\
  (active_only = true -> is_active x = true).
Proof.
  unfold select_user_conversations.
  set (rows := filter (fun c => user_id c =? uid) (conversations st)).
  assert (Hrows : forall y, In y rows <-> In y (conversations st) /\ user_id y = uid).
  { intros y. unfold rows. rewrite filter_In, Nat.eqb_eq. reflexivity. }
  split.
  - intros H.
    eapply Permutation_in in H;
      [|apply Permutation_sym, (order_by_permutation engine contract)].
    destruct active_only.
    + apply filter_In in H. destruct H as [H Ha]. apply Hrows in H. tauto.
    + apply Hrows in H. split; [tauto|split; [tauto|discriminate]].
  - intros [H1 [H2 H3]].
    eapply Permutation_in; [apply (order_by_permutation engine contract)|].
    destruct active_only.
    + apply filter_In. split; [apply Hrows; tauto|auto].
    + apply Hrows; tauto.
Qed.

Lemma get_user_conversations_run (uid : nat) (active_only : bool) (w : World) :
  get_user_conversations engine uid active_only w
  = (Returned (if next_fault w then []
               else select_user_conversations engine uid active_only (db w)),
     after_round_trip w).
Proof.
  unfold get_user_conversations, try_except, bind, round_trip, read, ret.
  destruct (next_fault w); reflexivity.
Qed.

Lemma get_conversation_run (cid : nat) (w : World) :
  get_conversation cid w
  = (Returned (if next_fault w then None else find_conversation cid (db w)),
     after_round_trip w).
Proof.
  unfold get_conversation, get, try_except, bind, round_trip, read, ret.
  destruct (next_fault w); reflexivity.
Qed.

(** C8: softDeleteConversation returns false for an unknown id and leaves
    the store as it is; for an existing conversation it returns true in a
    quiet world; and after it has returned true, getConversation returns the
    record with is_active=false, listUserConversations with activeOnly=true
    holds no row of that id, and listUserConversations(owner,
    activeOnly=false) holds the record. *)
Theorem soft_delete_hides_and_keeps (cid : nat) (w : World) :
  (find_conversation cid (db w) = None ->
   exists w', delete_conversation cid w = (Returned false, w') /\ db w' = db w) /\
  (forall c, find_conversation cid (db w) = Some c -> quiet w ->
   exists w', delete_conversation cid w = (Returned true, w')) /\
  (forall w', delete_conversation cid w = (Returned true, w') ->
   exists c t,
     find_conversation cid (db w) = Some c /\
     let c' := set_updated_at t (set_is_active false c) in
     conv_id c' = Some cid /\ is_active c' = false /\
     forall w2, db w2 = db w' -> next_fault w2 = false ->
       fst (get_conversation cid w2) = Returned (Some c') /\
       (forall uid l,
           fst (get_user_conversations engine uid true w2) = Returned l ->
           forall x, In x l -> conv_id x <> Some cid) /\
       (exists l,
           fst (get_user_conversations engine (user_id c) false w2) = Returned l /\
           In c' l)).
Proof.
  pose proof (delete_conversation_cases cid w) as H. unfold wp in H.
  destruct (delete_conversation cid w) as [o w1]. simpl in H.
  split; [|split].
  - intros Hn. destruct H as [[-> [Hdb _]]|[c [t [_ [Hc _]]]]]; [eauto|congruence].
  - intros c Hc Hq.
    destruct H as [[_ [_ [Hf|Hn]]]|[c0 [t [-> _]]]]; [| |eauto].
    + exfalso. now apply (quiet_no_fault w).
    + congruence.
  - intros w' [= -> ->].
    destruct H as [[[=] _]|[c [t [_ [Hc [_ [_ Hdb]]]]]]].
    exists c, t. split; [exact Hc|]. cbn zeta.
    set (c' := set_updated_at t (set_is_active false c)) in *.
    assert (Hid : conv_id c' = Some cid) by (apply (find_conversation_id _ _ _ Hc)).
    split; [exact Hid|]. split; [reflexivity|].
    intros w2 Hw2 Hf2.
    split; [|split].
    + rewrite get_conversation_run, Hf2, Hw2, Hdb. cbn [fst].
      f_equal. eapply find_conversation_written; eassumption.
    + intros uid l Hl x Hx.
      rewrite get_user_conversations_run, Hf2, Hw2, Hdb in Hl. cbn [fst] in Hl.
      injection Hl as Hl. subst l.
      apply select_user_conversations_In in Hx. destruct Hx as [Hin [_ Hact]].
      destruct (In_write_conversation c' cid (db w) x Hid Hin) as [->|[_ Hne]].
      * specialize (Hact eq_refl). discriminate.
      * exact Hne.
    + eexists. rewrite get_user_conversations_run, Hf2, Hw2, Hdb. cbn [fst].
      split; [reflexivity|].
      apply select_user_conversations_In.
      split; [|split; [reflexivity|discriminate]].
      eapply In_written; [exact Hid|eapply find_conversation_id; exact Hc|].
      eapply find_conversation_In; exact Hc.
Qed.

End WithEngine.

(** [tie_store] is what two calls of [create_message] leave when the clock
    does not advance between them. *)
Lemma tie_store_reached :
  db (snd (bind (create_message "first" USER 1 None None)
                (fun _ => create_message "second" USER 1 None None)
                (frozen one_chat)))
  = tie_store.
Proof. reflexivity. Qed.

(** *** Ties

    [a] stands before [b] in [l]. *)
Lemma before_split {A : Type} (l : list A) (i j : nat) (a b : A) :
  i < j -> nth_error l i = Some a -> nth_error l j = Some b ->
  exists l1 l2 l3, l = l1 ++ a :: l2 ++ b :: l3.
Proof.
  intros Hij Hi Hj.
  destruct (nth_error_split l i Hi) as [l1 [r [-> Hlen]]].
  rewrite nth_error_app2 in Hj by lia.
  destruct (j - length l1) as [|m] eqn:E; [lia|].
  cbn [nth_error] in Hj.
  destruct (nth_error_split r m Hj) as [l2 [l3 [-> _]]].
  now exists l1, l2, l3.
Qed.

Lemma split_before {A : Type} (l1 l2 l3 : list A) (a b : A) :
  exists p q, p < q /\
    nth_error (l1 ++ a :: l2 ++ b :: l3) p = Some a /\
    nth_error (l1 ++ a :: l2 ++ b :: l3) q = Some b.
Proof.
  exists (length l1), (length l1 + S (length l2)).
  split; [lia|]. split.
  - rewrite nth_error_app2 by lia. now rewrite Nat.sub_diag.
  - rewrite nth_error_app2 by lia.
    replace (length l1 + S (length l2) - length l1) with (S (length l2)) by lia.
    cbn [nth_error]. rewrite nth_error_app2 by lia. now rewrite Nat.sub_diag.
Qed.

(** A row of the selection is a row of the table, at its place. *)
Lemma filter_split {A : Type} (f : A -> bool) (l l1 r : list A) (a : A) :
  filter f l = l1 ++ a :: r ->
  exists l1' r', l = l1' ++ a :: r' /\ filter f r' = r.
Proof.
  revert l1. induction l as [|y l IH]; intros l1 H; cbn [filter] in H.
  - destruct l1; discriminate.
  - destruct (f y).
    + destruct l1 as [|z l1]; cbn [app] in H; injection H as Hy Hl.
      * subst y. now exists [], l.
      * destruct (IH l1 Hl) as [l1' [r' [-> Hr]]].
        now exists (y :: l1'), r'.
    + destruct (IH l1 H) as [l1' [r' [-> Hr]]].
      now exists (y :: l1'), r'.
Qed.

Lemma filter_before {A : Type} (f : A -> bool) (l l1 l2 l3 : list A) (a b : A) :
  filter f l = l1 ++ a :: l2 ++ b :: l3 ->
  exists l1' l2' l3', l = l1' ++ a :: l2' ++ b :: l3'.
Proof.
  intros H.
  destruct (filter_split f l l1 _ a H) as [l1' [r [-> Hr]]].
  destruct (filter_split f r l2 _ b Hr) as [l2' [l3' [-> _]]].
  now exists l1', l2', l3'.
Qed.

(** With an engine that keeps ties, two rows of equal key stand in the
    result of ORDER BY as they stand in the rows selected. *)
Lemma order_by_before (engine : Engine) (stable : keeps_ties engine)
      {A : Type} (d : Direction) (key : A -> Time) (rows l1 l2 l3 : list A) (a b : A) :
  order_by engine d key rows = l1 ++ a :: l2 ++ b :: l3 ->
  key a = key b ->
  exists r1 r2 r3, rows = r1 ++ a :: r2 ++ b :: r3.
Proof.
  intros Hl Hk.
  pose proof (order_by_keeps_ties engine stable A d key rows (key a)) as Hties.
  rewrite Hl in Hties.
  rewrite filter_app in Hties. cbn [filter] in Hties.
  rewrite filter_app in Hties. cbn [filter] in Hties.
  rewrite Nat.eqb_refl, <- Hk, Nat.eqb_refl in Hties.
  symmetry in Hties.
  exact (filter_before _ _ _ _ _ _ _ Hties).
Qed.



Lemma soft_delete_hides_and_keeps_witness :
  engine_contract keep_ties_engine /\
  (exists w', delete_conversation 2 (steady one_chat []) = (Returned false, w') /\
              db w' = one_chat) /\
  (exists w', delete_conversation 1 (steady one_chat []) = (Returned true, w')) /\
  (exists c t,
     find_conversation 1 one_chat = Some c /\
     let c' := set_updated_at t (set_is_active false c) in
     conv_id c' = Some 1 /\ is_active c' = false /\
     forall w2, db w2 = db (snd (delete_conversation 1 (steady one_chat []))) ->
                next_fault w2 = false ->
       fst (get_conversation 1 w2) = Returned (Some c') /\
       (forall uid l,
           fst (get_user_conversations keep_ties_engine uid true w2) = Returned l ->
           forall x, In x l -> conv_id x <> Some 1) /\
       (exists l,
           fst (get_user_conversations keep_ties_engine (user_id c) false w2)
           = Returned l /\
           In c' l)).
Proof.
  split; [exact keep_ties_engine_contract|].
  pose proof (soft_delete_hides_and_keeps keep_ties_engine keep_ties_engine_contract
                                          1 (steady one_chat [])) as H1.
  pose proof (soft_delete_hides_and_keeps keep_ties_engine keep_ties_engine_contract
                                          2 (steady one_chat [])) as H2.
  split; [exact (proj1 H2 eq_refl)|].
  split; [exact (proj1 (proj2 H1) chat eq_refl eq_refl)|].
  exact (proj2 (proj2 H1) _ eq_refl).
Defined.

End QueryFacts.

(* ===================================================================== *)
(** ** Creating messages *)
(* ===================================================================== *)

Module MessageFacts.
Import PyStr Models Session RunFacts StoreFacts ConversationFacts ConversationService.
Import Examples.
Local Open Scope session_scope.

(** C3, as stated, fails: the insert and the touch are two commits. When the
    storage fails at the second one, the new message row is there, the
    conversation keeps the updated_at it had before the call, and the call
    reports failure. *)
Lemma message_stored_without_touch :
  ~ (forall content ty cid rt mu (w : World) (c : Conversation),
        find_conversation cid (db w) = Some c ->
        updated_at c < clock w ->
        let w' := snd (create_message content ty cid rt mu w) in
        messages (db w') <> messages (db w) ->
        exists c', find_conversation cid (db w') = Some c' /\
                   updated_at c' <> updated_at c).
Proof.
  intros H.
  specialize (H "Hello" USER 1 None None
                (steady one_chat [false; false; false; true]) chat eq_refl).
  assert (Hpast : updated_at chat < clock (steady one_chat [false; false; false; true]))
    by (vm_compute; lia).
  specialize (H Hpast). cbv zeta in H.
  destruct H as [c' [Hc' Hne]].
  - vm_compute. discriminate.
  - vm_compute in Hc'. injection Hc' as <-. apply Hne. reflexivity.
Qed.

(** C3, amended: createMessage commits the insert and then, in a second
    commit, the touch of updated_at. A call ends in one of three ways:
    nothing is stored and failure is reported; the message row is stored,
    the conversation is untouched and failure is reported (only when the
    storage fails after the first commit); the message row is stored,
    updated_at is set to the clock and the message is returned. In a quiet
    world, for a valid message of an existing conversation, it is the
    third. *)
Theorem create_message_commits_twice content ty cid rt mu (w : World) :
  (forall o w', create_message content ty cid rt mu w = (o, w') ->
                create_message_end content ty cid rt mu w o w') /\
  (forall c, quiet w -> String.length content <= 5000 ->
             (forall s, mu = Some s -> String.length s <= 100) ->
             find_conversation cid (db w) = Some c ->
             exists t t' w',
               create_message content ty cid rt mu w
               = (Returned (Some (mkMessage (Some (next_id (map msg_id (messages (db w)))))
                                            content ty cid t rt mu)), w') /\
               clock w <= t /\ t <= t' /\ t' = clock w' /\
               db w' = write_conversation
                         (set_updated_at t' c)
                         (insert_message (mkMessage None content ty cid t rt mu) (db w))).
Proof.
  split.
  - apply wp_run, create_message_cases.
  - intros c Hq Hlen Hmu Hc. eapply create_message_quiet; eassumption.
Qed.

Lemma create_message_commits_twice_witness :
  exists t t' w',
    create_message "Hello" USER 1 None None (steady one_chat [])
    = (Returned (Some (mkMessage (Some 1) "Hello" USER 1 t None None)), w') /\
    100 <= t /\ t <= t' /\ t' = clock w' /\
    db w' = write_conversation
              (set_updated_at t' chat)
              (insert_message (mkMessage None "Hello" USER 1 t None None) one_chat).
Proof.
  apply (proj2 (create_message_commits_twice "Hello" USER 1 None None
                                             (steady one_chat [])) chat).
  - reflexivity.
  - simpl. lia.
  - discriminate.
  - reflexivity.
Defined.

(** C10: createMessage does not look at is_active. For a conversation that
    exists and is soft-deleted, in a quiet world and for a message within
    the bounds of the schema, createMessage returns the message, appends it
    to the messages, and sets the conversation's updated_at to the clock;
    the conversation stays inactive. *)
Theorem soft_deleted_conversation_accepts_messages content ty cid rt mu
        (c : Conversation) (w : World) :
  find_conversation cid (db w) = Some c ->
  is_active c = false ->
  quiet w ->
  String.length content <= 5000 ->
  (forall s, mu = Some s -> String.length s <= 100) ->
  exists m c' w',
    create_message content ty cid rt mu w = (Returned (Some m), w') /\
    Models.content m = content /\ message_type m = ty /\
    conversation_id m = cid /\
    messages (db w') = messages (db w) ++ [m] /\
    find_conversation cid (db w') = Some c' /\
    is_active c' = false /\
    updated_at c' = clock w' /\ clock w <= created_at m /\
    created_at m <= updated_at c'.
Proof.
  intros Hc Hact Hq Hlen Hmu.
  destruct (create_message_quiet content ty cid rt mu c w Hq Hlen Hmu Hc)
    as [t [t' [w' [Hrun [Ht [Htt' [Ht' Hdb]]]]]]].
  eexists _, (set_updated_at t' c), w'.
  split; [exact Hrun|].
  cbn [Models.content message_type conversation_id created_at is_active
       updated_at set_updated_at].
  repeat split; try assumption; try (now subst t').
  - rewrite Hdb. reflexivity.
  - rewrite Hdb. eapply find_conversation_written.
    + exact Hc.
    + apply (find_conversation_id _ _ _ Hc).
Qed.

Lemma soft_deleted_conversation_accepts_messages_witness :
  exists m c' w',
    create_message "Hello again" USER 1 None None
                   (snd (delete_conversation 1 (steady one_chat [])))
    = (Returned (Some m), w') /\
    Models.content m = "Hello again" /\ message_type m = USER /\
    conversation_id m = 1 /\
    messages (db w')
    = messages (db (snd (delete_conversation 1 (steady one_chat [])))) ++ [m] /\
    find_conversation 1 (db w') = Some c' /\
    is_active c' = false /\
    updated_at c' = clock w' /\
    clock (snd (delete_conversation 1 (steady one_chat []))) <= created_at m /\
    created_at m <= updated_at c'.
Proof.
  apply (soft_deleted_conversation_accepts_messages
           "Hello again" USER 1 None None
           (mkConversation (Some 1) "New Conversation" 1 20 105 false)).
  - reflexivity.
  - reflexivity.
  - reflexivity.
  - simpl. lia.
  - discriminate.
Defined.

End MessageFacts.

(* ===================================================================== *)
(** ** One turn: user message, generation, bot message *)
(* ===================================================================== *)

Module TurnFacts.
Import PyStr Models Session RunFacts StoreFacts ConversationFacts ChatbotFacts.
Import ConversationService ChatbotService ChatbotUI Examples.
Local Open Scope session_scope.

Lemma create_message_unknown content ty cid rt mu (w : World) :
  find_conversation cid (db w) = None ->
  exists w', create_message content ty cid rt mu w = (Returned None, w') /\
             db w' = db w.
Proof.
  intros Hn.
  pose proof (create_message_cases content ty cid rt mu w) as H. unfold wp in H.
  destruct (create_message content ty cid rt mu w) as [o w']. simpl in H.
  inversion H; subst; [eauto|congruence|congruence].
Qed.

Lemma create_bot_message_unknown content cid rt (w : World) :
  find_conversation cid (db w) = None ->
  exists w', create_bot_message content cid rt w = (Returned None, w') /\
             db w' = db w.
Proof.
  intros Hn.
  pose proof (create_bot_message_cases content cid rt w) as H. unfold wp in H.
  destruct (create_bot_message content cid rt w) as [o w']. simpl in H.
  inversion H; subst; [eauto|congruence|congruence].
Qed.

(** When the user message cannot be stored the turn stops there. *)
Lemma send_message_user_message_refused gen conv id text (w w1 : World) :
  conv_id conv = Some id ->
  create_message (strip text) USER id None None w = (Returned None, w1) ->
  exists w', send_message_with gen (Some conv) text w = (Returned None, w') /\
             (w' = w1 \/ w' = w).
Proof.
  intros Hid Hrun. unfold send_message_with. rewrite Hid.
  destruct (truthy (strip text)); simpl.
  - unfold try_except, bind. rewrite Hrun.
    exists w1. split; [reflexivity|now left].
  - exists w. split; [reflexivity|now right].
Qed.

(** When the user message is stored and the bot step returns nothing, the
    turn returns nothing. *)
Lemma send_message_no_reply gen conv id text um (w w1 w2 : World) :
  conv_id conv = Some id ->
  truthy (strip text) = true ->
  create_message (strip text) USER id None None w = (Returned (Some um), w1) ->
  process_user_message_with gen (strip text) id w1 = (Returned None, w2) ->
  send_message_with gen (Some conv) text w = (Returned None, w2).
Proof.
  intros Hid Ht Hum Hbot. unfold send_message_with. rewrite Hid, Ht. simpl.
  unfold try_except, bind. rewrite Hum, Hbot. reflexivity.
Qed.

(** C2: for a conversationId that references no conversation, createMessage
    returns the failure marker and leaves the store as it is (no message
    row), and so do the bot step and the whole turn; none of them raises. *)
Theorem unknown_conversation_is_refused content ty cid rt mu text conv (w : World) :
  find_conversation cid (db w) = None ->
  conv_id conv = Some cid ->
  (exists w', create_message content ty cid rt mu w = (Returned None, w') /\
              db w' = db w) /\
  (exists w', process_user_message text cid w = (Returned None, w') /\
              db w' = db w) /\
  (exists w', send_message (Some conv) text w = (Returned None, w') /\
              db w' = db w).
Proof.
  intros Hn Hid. split; [|split].
  - now apply create_message_unknown.
  - rewrite process_user_message_run.
    destruct (create_bot_message_unknown
                (Generator.generate_response (hd 0 (draws w)) text) cid
                (Some (elapsed_ms w)) (at_persistence w)) as [w' [Hrun Hdb]].
    + now rewrite db_at_persistence.
    + exists w'. split; [exact Hrun|]. now rewrite Hdb, db_at_persistence.
  - destruct (create_message_unknown (strip text) USER cid None None w Hn)
      as [w1 [Hrun Hdb]].
    destruct (send_message_user_message_refused
                generate_response conv cid text w w1 Hid Hrun)
      as [w' [Hsend [->| ->]]]; eauto.
Qed.

Lemma unknown_conversation_is_refused_witness :
  (exists w', create_message "Hello" USER 404 None None (steady one_chat [])
              = (Returned None, w') /\ db w' = one_chat) /\
  (exists w', process_user_message "Hello" 404 (steady one_chat [])
              = (Returned None, w') /\ db w' = one_chat) /\
  (exists w', send_message
                (Some (mkConversation (Some 404) "New Chat" 1 20 20 true))
                "Hello" (steady one_chat [])
              = (Returned None, w') /\ db w' = one_chat).
Proof.
  apply (unknown_conversation_is_refused
           "Hello" USER 404 None None "Hello"
           (mkConversation (Some 404) "New Chat" 1 20 20 true)
           (steady one_chat [])); reflexivity.
Defined.

Lemma error_reply_not_generated (rnd : nat) (s : string) :
  Generator.generate_response rnd s <> error_reply.
Proof.
  intros E.
  pose proof (GeneratorFacts.respond_range rnd (Generator.normalize s)) as H.
  fold (Generator.generate_response rnd s) in H. rewrite E in H.
  apply GeneratorFacts.mem_In in H. vm_compute in H. discriminate.
Qed.

Lemma keeps_messages_In (w w' : World) (m : Message) :
  keeps_messages w w' -> In m (messages (db w)) -> In m (messages (db w')).
Proof. intros [l ->] H. apply in_or_app. now left. Qed.

(** What a stored user message leaves behind. *)
Lemma create_message_stored content ty cid rt mu um (w w1 : World) :
  create_message content ty cid rt mu w = (Returned (Some um), w1) ->
  In um (messages (db w1)) /\
  exists c, find_conversation cid (db w1) = Some c.
Proof.
  intros Hrun.
  pose proof (create_message_cases content ty cid rt mu w) as H. unfold wp in H.
  rewrite Hrun in H. simpl in H. inversion H; subst.
  match goal with Hdb : db w1 = _ |- _ => rewrite Hdb end.
  split.
  - cbn. apply in_or_app. right. now left.
  - eexists. eapply find_conversation_written.
    + cbn. eassumption.
    + cbn. eapply find_conversation_id. eassumption.
Qed.

(** C5: once the user message has been stored, the turn returns the
    failure marker whenever the bot step fails, never a substitute reply,
    and the stored USER message stays in the store as it is. The generation
    step does not fail: [generate_response] returns for every text. The
    turn then returns what the persistence step [create_bot_message]
    returns: None when it fails, and otherwise the stored BOT message whose
    content is the generated reply, never the apology of the [except]
    branch, which is not reached. When the bot step returns None,
    [send_message] returns None. *)
Theorem bot_step_after_user_message conv id text um (w w1 : World) :
  conv_id conv = Some id ->
  truthy (strip text) = true ->
  create_message (strip text) USER id None None w = (Returned (Some um), w1) ->
  In um (messages (db w1)) /\
  (forall w0, exists reply w0',
      generate_response (strip text) w0 = (Returned reply, w0')) /\
  (forall o w2,
      process_user_message (strip text) id w1 = (o, w2) ->
      create_bot_message
        (Generator.generate_response (hd 0 (draws w1)) (strip text)) id
        (Some (elapsed_ms w1)) (at_persistence w1) = (o, w2) /\
      create_bot_message_end
        (Generator.generate_response (hd 0 (draws w1)) (strip text)) id
        (Some (elapsed_ms w1)) (at_persistence w1) o w2 /\
      In um (messages (db w2)) /\
      (o = Returned None \/
       exists b, o = Returned (Some b) /\
                 content b = Generator.generate_response (hd 0 (draws w1)) (strip text) /\
                 content b <> error_reply /\
                 message_type b = BOT /\ In b (messages (db w2))) /\
      (o = Returned None ->
       send_message (Some conv) text w = (Returned None, w2))).
Proof.
  intros Hid Ht Hum.
  destruct (create_message_stored _ _ _ _ _ _ _ _ Hum) as [Hin [c Hc]].
  split; [exact Hin|split].
  - intros w0. eexists _, _. apply generate_response_returns.
  - intros o w2 Hrun.
    pose proof Hrun as Hbot. rewrite process_user_message_run in Hbot.
    pose proof (create_bot_message_cases
                  (Generator.generate_response (hd 0 (draws w1)) (strip text)) id
                  (Some (elapsed_ms w1)) (at_persistence w1)) as Hend.
    unfold wp in Hend. rewrite Hbot in Hend. simpl in Hend.
    split; [exact Hbot|]. split; [exact Hend|].
    destruct (create_bot_message_end_keeps _ _ _ _ _ _ Hend) as [Hk _].
    split; [|split].
    + eapply keeps_messages_In; [exact Hk|]. now rewrite db_at_persistence.
    + inversion Hend; subst; [now left|now left|right].
      eexists. split; [reflexivity|]. cbn [content message_type].
      split; [reflexivity|]. split; [apply error_reply_not_generated|].
      split; [reflexivity|].
      match goal with Hdb : db w2 = _ |- _ => rewrite Hdb end.
      cbn. apply in_or_app. right. now left.
    + intros ->. eapply send_message_no_reply; eassumption.
Qed.

Lemma bot_step_after_user_message_witness :
  (conv_id chat = Some 1 /\ truthy (strip "Hello") = true /\
   create_message (strip "Hello") USER 1 None None hello_sent
   = (Returned (Some hello), hello_stored)) /\
  In hello (messages (db hello_stored)) /\
  (forall w0, exists reply w0',
      generate_response (strip "Hello") w0 = (Returned reply, w0')) /\
  (forall o w2,
      process_user_message (strip "Hello") 1 hello_stored = (o, w2) ->
      create_bot_message
        (Generator.generate_response (hd 0 (draws hello_stored)) (strip "Hello")) 1
        (Some (elapsed_ms hello_stored)) (at_persistence hello_stored) = (o, w2) /\
      create_bot_message_end
        (Generator.generate_response (hd 0 (draws hello_stored)) (strip "Hello")) 1
        (Some (elapsed_ms hello_stored)) (at_persistence hello_stored) o w2 /\
      In hello (messages (db w2)) /\
      (o = Returned None \/
       exists b, o = Returned (Some b) /\
                 content b
                 = Generator.generate_response (hd 0 (draws hello_stored))
                                               (strip "Hello") /\
                 content b <> error_reply /\
                 message_type b = BOT /\ In b (messages (db w2))) /\
      (o = Returned None ->
       send_message (Some chat) "Hello" hello_sent = (Returned None, w2))).
Proof.
  split; [repeat split|].
  apply (bot_step_after_user_message chat 1 "Hello" hello hello_sent hello_stored);
    reflexivity.
Defined.

(** In the run of the example the storage fails at the bot step: the turn
    returns None and "Hello" is the one message stored. *)
Lemma hello_gets_no_reply :
  process_user_message "Hello" 1 hello_stored
  = (Returned None, snd (process_user_message "Hello" 1 hello_stored)) /\
  messages (db (snd (process_user_message "Hello" 1 hello_stored))) = [hello] /\
  fst (send_message (Some chat) "Hello" hello_sent) = Returned None.
Proof. repeat split. Qed.

Lemma generated_reply_length (rnd : nat) (s : string) :
  String.length (Generator.generate_response rnd s) <= 5000.
Proof.
  pose proof (GeneratorFacts.respond_range rnd (Generator.normalize s)) as H.
  fold (Generator.generate_response rnd s) in H.
  assert (Hall : forallb (fun x => String.length x <=? 5000) Generator.all_responses
                 = true) by (vm_compute; reflexivity).
  rewrite forallb_forall in Hall. apply Nat.leb_le. now apply Hall.
Qed.

(** The bot step in general: in a quiet world, for a conversation that
    exists and was last touched no later than now, once the clock moves the
    stored bot message is newer than the conversation's updated_at, which
    the step leaves as it was. *)
Lemma process_user_message_outruns_updated_at s cid c d rest (w : World) :
  quiet w ->
  find_conversation cid (db w) = Some c ->
  updated_at c <= clock w ->
  ticks w = d :: rest -> 0 < d ->
  exists b w',
    process_user_message s cid w = (Returned (Some b), w') /\
    In b (messages (db w')) /\
    find_conversation cid (db w') = Some c /\
    updated_at c < created_at b.
Proof.
  intros Hq Hc Hup Hticks Hd.
  rewrite process_user_message_run.
  destruct (create_bot_message_leaves_updated_at
              (Generator.generate_response (hd 0 (draws w)) s) cid
              (Some (elapsed_ms w)) c (at_persistence w))
    as [b [w' [Hrun [Hin [Hfind Hclock]]]]].
  - unfold quiet. now rewrite faults_at_persistence.
  - apply generated_reply_length.
  - now rewrite db_at_persistence.
  - exists b, w'. repeat split; try assumption.
    assert (Hadv : clock w + d <= clock (at_persistence w)).
    { unfold at_persistence.
      etransitivity; [|apply clock_advance].
      unfold advance at 1. rewrite Hticks. simpl. lia. }
    lia.
Qed.

(** C7 on a first turn: "Hello" is sent in a conversation whose title is not
    "New Chat", the clock advancing before every read. The user message is
    stored and updated_at touched; the bot message is stored later by
    [create_bot_message], which does not touch the conversation: its
    created_at is greater than the conversation's updated_at. *)
Theorem bot_message_newer_than_updated_at :
  exists b w' c,
    send_message (Some chat) "Hello" (steady one_chat []) = (Returned (Some b), w') /\
    In b (messages (db w')) /\
    message_type b = BOT /\ conversation_id b = 1 /\
    find_conversation 1 (db w') = Some c /\
    updated_at c = 110 /\ created_at b = 125 /\
    updated_at c < created_at b.
Proof.
  eexists _, _, _.
  split; [vm_compute; reflexivity|].
  split; [right; left; reflexivity|].
  repeat split.
  vm_compute. lia.
Qed.

End TurnFacts.

(* ===================================================================== *)
(** ** What a call does to the store *)
(* ===================================================================== *)

Module HistoryFacts.
Import PyStr Models Session RunFacts StoreFacts ConversationFacts UserFacts.
Import ConversationService ChatbotService ChatbotUI History.
Local Open Scope session_scope.

Lemma history_trans (x y z : Time * Store) :
  history x y -> history y z -> history x z.
Proof.
  intros Hxy Hyz. induction Hyz as [|y z z' _ IH Hm]; [exact Hxy|].
  eapply history_step; [apply IH, Hxy|exact Hm].
Qed.

(** Steps a match on a looked-up row. *)
Ltac wp_match :=
  lazymatch goal with
  | |- wp (match ?x with _ => _ end) _ _ => destruct x eqn:?
  | |- wp (if ?b then _ else _) _ _ => destruct b eqn:?
  end.

Ltac wp_any :=
  first
    [ lazymatch goal with
      | |- wp (exec_first_user _) _ _ => apply wp_exec_first_user; intros ?
      | |- wp (commit_new_user _) _ _ =>
          apply wp_commit_new_user; [intros ?|intros ? ?|intros ? ?]
      | |- wp (refresh_user _) _ _ =>
          apply wp_refresh_user; [intros ?|intros ? ? ?|intros ? ?]
      | |- wp (refresh_conversation _) _ _ =>
          apply wp_refresh_conversation; [intros ?|intros ? ? ?]
      end; cbn beta iota
    | wp_call
    | wp_match ].

(** The pair of clock and store at the end of a run, reached through the
    primitive steps that lead there. *)
Ltac reach :=
  lazymatch goal with
  | |- history ?X (clock ?W, db ?W) =>
      lazymatch W with
      | after_round_trip ?W1 => change (history X (clock W1, db W1)); reach
      | after_draw ?W1 => change (history X (clock W1, db W1)); reach
      | advance ?W1 =>
          apply history_step with (y := (clock W1, db W1));
          [reach|rewrite (db_advance W1); apply Tick, clock_advance]
      | set_db _ ?W1 =>
          apply history_step with (y := (clock W1, db W1)); [reach|]
      | _ => first [eassumption|apply history_refl]
      end
  end.

Lemma Some_not_None {A : Type} (x : option A) (a : A) : x = Some a -> x <> None.
Proof. intros -> ?. discriminate. Qed.

Ltac touch c :=
  match goal with
  | H : find_conversation ?k _ = Some c |- _ =>
      eapply (Touch _ _ k c);
      [exact H|first [left; reflexivity|right; reflexivity]]
  end.

(** One change of the store, justified by what the run has checked. *)
Ltac micro_step :=
  repeat (progress (cbn [clock db set_db after_round_trip] in *;
                    rewrite ?db_advance in * ));
  lazymatch goal with
  | |- micro _ (_, insert_user _ _) =>
      apply Insert_user; [assumption|reflexivity]
  | |- micro _ (_, insert_conversation _ _) =>
      apply Insert_conversation;
      [eapply Some_not_None; eassumption|cbn; clock_le|reflexivity|reflexivity]
  | |- micro _ (_, insert_message _ _) =>
      apply Insert_message; [eapply Some_not_None; eassumption|reflexivity]
  | |- micro _ (_, write_conversation (set_updated_at _ (set_title _ ?c)) _) => touch c
  | |- micro _ (_, write_conversation (set_updated_at _ (set_is_active false ?c)) _) =>
      touch c
  | |- micro _ (_, write_conversation (set_updated_at _ ?c) _) => touch c
  end.

Ltac run_history := repeat wp_any; try (reach; micro_step).

Lemma get_or_create_user_history X name d (w : World) :
  history X (clock w, db w) ->
  wp (get_or_create_user name d) (fun _ w' => history X (clock w', db w')) w.
Proof. intros H. unfold get_or_create_user. run_history. Qed.

Lemma create_conversation_history X uid t (w : World) :
  history X (clock w, db w) ->
  wp (create_conversation uid t) (fun _ w' => history X (clock w', db w')) w.
Proof.
  intros H. unfold create_conversation, commit_new_conversation. run_history.
Qed.

Lemma create_message_history X content ty cid rt mu (w : World) :
  history X (clock w, db w) ->
  wp (create_message content ty cid rt mu) (fun _ w' => history X (clock w', db w')) w.
Proof. intros H. unfold create_message. run_history. Qed.

Lemma update_conversation_title_history X cid t (w : World) :
  history X (clock w, db w) ->
  wp (update_conversation_title cid t) (fun _ w' => history X (clock w', db w')) w.
Proof. intros H. unfold update_conversation_title. run_history. Qed.

Lemma delete_conversation_history X cid (w : World) :
  history X (clock w, db w) ->
  wp (delete_conversation cid) (fun _ w' => history X (clock w', db w')) w.
Proof. intros H. unfold delete_conversation. run_history. Qed.

Lemma create_bot_message_history X content cid rt (w : World) :
  history X (clock w, db w) ->
  wp (create_bot_message content cid rt) (fun _ w' => history X (clock w', db w')) w.
Proof. intros H. unfold create_bot_message. run_history. Qed.

(** A call inside a call: its own lemma, then on from the world it leaves. *)
Ltac wp_inner :=
  lazymatch goal with
  | |- wp (create_message _ _ _ _ _) _ _ =>
      eapply wp_conseq; [apply create_message_history; reach|]
  | |- wp (create_bot_message _ _ _) _ _ =>
      eapply wp_conseq; [apply create_bot_message_history; reach|]
  | |- wp (update_conversation_title _ _) _ _ =>
      eapply wp_conseq; [apply update_conversation_title_history; reach|]
  end;
  cbn beta; intros [?|?] ? ?; cbn beta iota.

Ltac run_calls := repeat first [wp_inner|wp_any]; try (reach; micro_step).

Lemma process_user_message_history X s cid (w : World) :
  history X (clock w, db w) ->
  wp (process_user_message s cid) (fun _ w' => history X (clock w', db w')) w.
Proof.
  intros H.
  unfold process_user_message, process_user_message_with, generate_response.
  run_calls.
Qed.

Lemma send_message_history X cur content (w : World) :
  history X (clock w, db w) ->
  wp (send_message cur content) (fun _ w' => history X (clock w', db w')) w.
Proof.
  intros H. unfold send_message, send_message_with.
  destruct cur as [conversation|]; [|run_calls].
  destruct (negb (truthy (strip content))); [run_calls|].
  destruct (conv_id conversation) as [id|]; [|run_calls].
  apply wp_try_except. apply wp_bind.
  wp_inner; [|run_calls].
  match goal with |- wp (match ?x with _ => _ end) _ _ => destruct x end;
    [|run_calls].
  apply wp_bind.
  eapply wp_conseq; [apply process_user_message_history; eassumption|].
  cbn beta; intros [b|?] w2 Hw2; cbn beta iota; [|run_calls].
  destruct b as [b|]; [|run_calls].
  apply wp_bind.
  destruct (String.eqb (title conversation) "New Chat"); run_calls.
Qed.

Section Reads.

Variable engine : Engine.
Variable isoformat : Time -> string.

Lemma get_conversation_history X cid (w : World) :
  history X (clock w, db w) ->
  wp (get_conversation cid) (fun _ w' => history X (clock w', db w')) w.
Proof. intros H. unfold get_conversation. run_history. Qed.

Lemma get_user_conversations_history X uid active (w : World) :
  history X (clock w, db w) ->
  wp (get_user_conversations engine uid active)
     (fun _ w' => history X (clock w', db w')) w.
Proof. intros H. unfold get_user_conversations. run_history. Qed.

Lemma get_conversation_messages_history X cid limit (w : World) :
  history X (clock w, db w) ->
  wp (get_conversation_messages engine cid limit)
     (fun _ w' => history X (clock w', db w')) w.
Proof. intros H. unfold get_conversation_messages. run_history. Qed.

Lemma get_conversation_with_messages_history X cid (w : World) :
  history X (clock w, db w) ->
  wp (ConversationView.get_conversation_with_messages engine isoformat cid)
     (fun _ w' => history X (clock w', db w')) w.
Proof.
  intros H.
  unfold ConversationView.get_conversation_with_messages, get_conversation_messages.
  run_history.
Qed.

(** Every call takes the clock and the store from where they are to where
    it leaves them by changes of the kinds of [micro], and by no other. *)
Lemma after_call_history (c : Call) (w : World) :
  history (clock w, db w)
          (clock (after_call engine isoformat c w),
           db (after_call engine isoformat c w)).
Proof.
  pose proof (history_refl (clock w, db w)) as H.
  destruct c; cbn [after_call].
  - apply (get_or_create_user_history _ _ _ _ H).
  - apply (create_conversation_history _ _ _ _ H).
  - apply (get_conversation_history _ _ _ H).
  - apply (get_user_conversations_history _ _ _ _ H).
  - apply (create_message_history _ _ _ _ _ _ _ H).
  - apply (get_conversation_messages_history _ _ _ _ H).
  - apply (get_conversation_with_messages_history _ _ _ H).
  - apply (update_conversation_title_history _ _ _ _ H).
  - apply (delete_conversation_history _ _ _ H).
  - apply (create_bot_message_history _ _ _ _ _ H).
  - apply (process_user_message_history _ _ _ _ H).
  - apply (send_message_history _ _ _ _ H).
Qed.

Lemma after_calls_history (cs : list Call) (w : World) :
  history (clock w, db w)
          (clock (after_calls engine isoformat cs w),
           db (after_calls engine isoformat cs w)).
Proof.
  revert w. induction cs as [|c cs IH]; intros w; simpl.
  - apply history_refl.
  - eapply history_trans; [apply after_call_history|apply IH].
Qed.

End Reads.

End HistoryFacts.

(* ===================================================================== *)
(** ** What every change keeps *)
(* ===================================================================== *)

Module InvariantFacts.
Import PyStr Models Session RunFacts StoreFacts History HistoryFacts.

Lemma not_In_next_id (ids : list (option nat)) : ~ In (Some (next_id ids)) ids.
Proof. intros H. apply next_id_above in H. lia. Qed.

Lemma NoDup_snoc {A : Type} (l : list A) (x : A) :
  NoDup l -> ~ In x l -> NoDup (l ++ [x]).
Proof.
  intros Hl Hx. induction Hl as [|y l Hy Hl IH]; simpl.
  - constructor; [exact (fun H => H)|constructor].
  - constructor.
    + intros Hin. apply in_app_or in Hin. destruct Hin as [Hin|[->|[]]].
      * contradiction.
      * apply Hx. now left.
    + apply IH. intros Hin. apply Hx. now right.
Qed.

Lemma Forall_snoc {A : Type} (P : A -> Prop) (l : list A) (x : A) :
  Forall P l -> P x -> Forall P (l ++ [x]).
Proof. intros Hl Hx. apply Forall_app. split; [exact Hl|now constructor]. Qed.

Lemma find_by_username_none (name : string) (st : Store) :
  find_user_by_username name st = None -> ~ In name (map username (users st)).
Proof.
  unfold find_user_by_username. intros Hn Hin.
  apply in_map_iff in Hin. destruct Hin as [u [Hu Hin]].
  pose proof (find_none _ _ Hn u Hin) as E. simpl in E.
  rewrite Hu, String.eqb_refl in E. discriminate.
Qed.

(** Rewriting a conversation that is there leaves the keys as they are. *)
Lemma conv_ids_written (c' : Conversation) (k : nat) (st : Store) :
  conv_id c' = Some k ->
  map conv_id (conversations (write_conversation c' st))
  = map conv_id (conversations st).
Proof.
  unfold write_conversation. simpl. intros Hid. rewrite Hid.
  induction (conversations st) as [|x rows IH]; simpl; [reflexivity|].
  rewrite IH. f_equal.
  destruct (has_id k (conv_id x)) eqn:E; [|reflexivity].
  apply has_id_true in E. congruence.
Qed.

Lemma find_conversation_written_some (c' : Conversation) (k j : nat) (st : Store) :
  conv_id c' = Some k ->
  find_conversation j st <> None ->
  find_conversation j (write_conversation c' st) <> None.
Proof.
  intros Hid Hj. destruct (Nat.eq_dec j k) as [->|Hne].
  - destruct (find_conversation k st) as [c|] eqn:E; [|contradiction].
    rewrite (find_conversation_written k st c c' E Hid). discriminate.
  - now rewrite (find_conversation_written_other k j st c' Hid Hne).
Qed.

Lemma find_app_some {A : Type} (p : A -> bool) (rows : list A) (r : A) :
  find p rows <> None -> find p (rows ++ [r]) <> None.
Proof.
  intros H. destruct (find p rows) as [x|] eqn:E; [|contradiction].
  rewrite (find_app_old p rows r x E). discriminate.
Qed.

Lemma micro_keys_ok (x y : Time * Store) :
  micro x y -> keys_ok (snd x) -> keys_ok (snd y).
Proof.
  intros Hm [H1 H2 H3 H4 H5 H6 H7].
  destruct Hm as [t t' st Ht|t st u Hu Hd|t st c Hc Hd1 Hd2 Ha|t st m Hm Hd
                  |t st k c nt a Hc Ha];
    cbn [snd] in *.
  - now constructor.
  - constructor; cbn [users conversations messages insert_user]; try assumption.
    + rewrite map_app. apply Forall_snoc; [assumption|discriminate].
    + rewrite map_app. apply NoDup_snoc; [assumption|apply not_In_next_id].
    + rewrite map_app. apply NoDup_snoc; [assumption|].
      now apply find_by_username_none.
  - constructor; cbn [users conversations messages insert_conversation];
      try assumption.
    + rewrite map_app. apply Forall_snoc; [assumption|discriminate].
    + rewrite map_app. apply NoDup_snoc; [assumption|apply not_In_next_id].
  - constructor; cbn [users conversations messages insert_message]; try assumption.
    + rewrite map_app. apply Forall_snoc; [assumption|discriminate].
    + rewrite map_app. apply NoDup_snoc; [assumption|apply not_In_next_id].
  - pose proof (find_conversation_id _ _ _ Hc) as Hid.
    constructor;
      [exact H1|exact H2|exact H3| | |exact H6|exact H7];
      rewrite (conv_ids_written
                 (mkConversation (conv_id c) nt (user_id c) (conv_created_at c) t a)
                 k st Hid); assumption.
Qed.

Lemma micro_references_ok (x y : Time * Store) :
  micro x y -> references_ok (snd x) -> references_ok (snd y).
Proof.
  intros Hm [Hcu Hmc].
  destruct Hm as [t t' st Ht|t st u Hu Hd|t st c Hc Hd1 Hd2 Ha|t st m Hm Hd
                  |t st k c nt a Hc Ha];
    cbn [snd] in *.
  - now constructor.
  - constructor; cbn [conversations messages insert_user].
    + intros c Hc. unfold find_user, insert_user. simpl.
      apply find_app_some. now apply Hcu.
    + exact Hmc.
  - constructor; cbn [conversations messages insert_conversation].
    + intros c' Hin. apply in_app_or in Hin. destruct Hin as [Hin|[<-|[]]].
      * now apply Hcu.
      * exact Hc.
    + intros m Hm. unfold find_conversation, insert_conversation. simpl.
      apply find_app_some. now apply Hmc.
  - constructor; cbn [conversations messages insert_message].
    + exact Hcu.
    + intros m' Hin. apply in_app_or in Hin. destruct Hin as [Hin|[<-|[]]].
      * now apply Hmc.
      * exact Hm.
  - pose proof (find_conversation_id _ _ _ Hc) as Hid.
    constructor.
    + intros c' Hin.
      destruct (In_write_conversation
                  (mkConversation (conv_id c) nt (user_id c) (conv_created_at c) t a)
                  k st c' Hid Hin) as [->|[Hin' _]].
      * cbn [user_id]. apply Hcu. eapply find_conversation_In; eassumption.
      * now apply Hcu.
    + intros m Hm. rewrite messages_write_conversation in Hm.
      apply (find_conversation_written_some
               (mkConversation (conv_id c) nt (user_id c) (conv_created_at c) t a)
               k _ st Hid).
      now apply Hmc.
Qed.

Lemma StronglySorted_snoc {A : Type} (R : A -> A -> Prop) (l : list A) (x : A) :
  StronglySorted R l -> Forall (fun y => R y x) l -> StronglySorted R (l ++ [x]).
Proof.
  intros Hs Hx. induction Hs as [|y l Hl IH Hy]; simpl.
  - constructor; constructor.
  - inversion Hx as [|? ? Hyx Hlx]; subst.
    constructor; [now apply IH|].
    apply Forall_app. split; [exact Hy|now constructor].
Qed.

Lemma micro_dates_ok (x y : Time * Store) :
  micro x y -> dates_ok x -> dates_ok y.
Proof.
  intros Hm [Hu Hc Hmsg Hsorted].
  destruct Hm as [t t' st Ht|t st u Hfu Hd|t st c Hfc Hd1 Hd2 Ha|t st m Hfm Hd
                  |t st k c nt a Hfc Ha];
    cbn [fst snd] in *.
  - constructor; cbn [fst snd].
    + intros u Hin. specialize (Hu u Hin). lia.
    + intros c Hin. specialize (Hc c Hin). lia.
    + intros m Hin. specialize (Hmsg m Hin). lia.
    + exact Hsorted.
  - constructor; cbn [fst snd users conversations messages insert_user];
      try assumption.
    intros u' Hin. apply in_app_or in Hin. destruct Hin as [Hin|[<-|[]]].
    + now apply Hu.
    + cbn. lia.
  - constructor; cbn [fst snd users conversations messages insert_conversation];
      try assumption.
    intros c' Hin. apply in_app_or in Hin. destruct Hin as [Hin|[<-|[]]].
    + now apply Hc.
    + cbn. lia.
  - constructor; cbn [fst snd users conversations messages insert_message];
      try assumption.
    + intros m' Hin. apply in_app_or in Hin. destruct Hin as [Hin|[<-|[]]].
      * now apply Hmsg.
      * cbn. lia.
    + apply StronglySorted_snoc; [exact Hsorted|].
      apply Forall_forall. intros m' Hin. cbn. specialize (Hmsg m' Hin). lia.
  - pose proof (find_conversation_id _ _ _ Hfc) as Hid.
    constructor; [exact Hu| |exact Hmsg|exact Hsorted].
    intros c' Hin. cbn [fst snd] in *.
    destruct (In_write_conversation
                (mkConversation (conv_id c) nt (user_id c) (conv_created_at c) t a)
                k st c' Hid Hin) as [->|[Hin' _]].
    + cbn. specialize (Hc c (find_conversation_In _ _ _ Hfc)). lia.
    + now apply Hc.
Qed.

Lemma grown_refl (st : Store) : grown st st.
Proof.
  constructor; try (exists []; now rewrite app_nil_r).
  intros k c H. exists c. repeat split; auto.
Qed.

Lemma grown_trans (st1 st2 st3 : Store) :
  grown st1 st2 -> grown st2 st3 -> grown st1 st3.
Proof.
  intros [[l1 Hu1] [m1 Hm1] [k1 Hk1] Hc1] [[l2 Hu2] [m2 Hm2] [k2 Hk2] Hc2].
  constructor.
  - exists (l1 ++ l2). now rewrite Hu2, Hu1, app_assoc.
  - exists (m1 ++ m2). now rewrite Hm2, Hm1, app_assoc.
  - exists (k1 ++ k2). now rewrite Hk2, Hk1, app_assoc.
  - intros k c H. destruct (Hc1 k c H) as [c' [H' [E1 [E2 [E3 E4]]]]].
    destruct (Hc2 k c' H') as [c'' [H'' [F1 [F2 [F3 F4]]]]].
    exists c''. repeat split; try congruence. auto.
Qed.

Lemma micro_grown (x y : Time * Store) : micro x y -> grown (snd x) (snd y).
Proof.
  intros Hm.
  destruct Hm as [t t' st Ht|t st u Hfu Hd|t st c Hfc Hd1 Hd2 Ha|t st m Hfm Hd
                  |t st k c nt a Hfc Ha];
    cbn [snd].
  - apply grown_refl.
  - constructor; cbn [users conversations messages insert_user];
      try (exists []; now rewrite app_nil_r).
    + eexists. reflexivity.
    + intros k c H. exists c. repeat split; auto.
  - constructor; cbn [users conversations messages insert_conversation];
      try (exists []; now rewrite app_nil_r).
    + rewrite map_app. eexists. reflexivity.
    + intros k c' H. exists c'. split; [|repeat split; auto].
      unfold find_conversation, insert_conversation in *. simpl.
      now apply find_app_old.
  - constructor; cbn [users conversations messages insert_message];
      try (exists []; now rewrite app_nil_r).
    + eexists. reflexivity.
    + intros k c H. exists c. repeat split; auto.
  - pose proof (find_conversation_id _ _ _ Hfc) as Hid.
    set (c' := mkConversation (conv_id c) nt (user_id c) (conv_created_at c) t a).
    constructor; try (exists []; now rewrite app_nil_r).
    + exists []. rewrite app_nil_r. apply (conv_ids_written c' k st Hid).
    + intros j cj Hj. destruct (Nat.eq_dec j k) as [->|Hne].
      * exists c'. rewrite Hfc in Hj. injection Hj as <-.
        split; [apply (find_conversation_written k st c c' Hfc Hid)|].
        repeat split. intros Hin. destruct Ha as [->| ->]; [exact Hin|reflexivity].
      * exists cj. rewrite (find_conversation_written_other k j st c' Hid Hne).
        repeat split; auto.
Qed.

Lemma not_updated_earlier_trans (st1 st2 st3 : Store) :
  not_updated_earlier st1 st2 -> not_updated_earlier st2 st3 ->
  not_updated_earlier st1 st3.
Proof.
  intros H1 H2 k c H. destruct (H1 k c H) as [c' [H' Hle]].
  destruct (H2 k c' H') as [c'' [H'' Hle']]. exists c''. split; [exact H''|lia].
Qed.

Lemma micro_not_updated_earlier (x y : Time * Store) :
  micro x y -> dates_ok x -> not_updated_earlier (snd x) (snd y).
Proof.
  intros Hm Hd.
  destruct Hm as [t t' st Ht|t st u Hfu Hdu|t st c Hfc Hd1 Hd2 Ha|t st m Hfm Hdm
                  |t st k c nt a Hfc Ha];
    cbn [snd]; intros j cj Hj.
  - exists cj. split; [exact Hj|lia].
  - exists cj. split; [exact Hj|lia].
  - exists cj. split; [|lia].
    unfold find_conversation, insert_conversation in *. simpl.
    now apply find_app_old.
  - exists cj. split; [exact Hj|lia].
  - pose proof (find_conversation_id _ _ _ Hfc) as Hid.
    set (c' := mkConversation (conv_id c) nt (user_id c) (conv_created_at c) t a).
    destruct (Nat.eq_dec j k) as [->|Hne].
    + exists c'. rewrite Hfc in Hj. injection Hj as <-.
      split; [apply (find_conversation_written k st c c' Hfc Hid)|].
      cbn. apply (conversations_dated _ Hd c).
      eapply find_conversation_In. exact Hfc.
    + exists cj. rewrite (find_conversation_written_other k j st c' Hid Hne).
      split; [exact Hj|lia].
Qed.

(** Along any number of changes. *)
Lemma history_keys_ok (x y : Time * Store) :
  history x y -> keys_ok (snd x) -> keys_ok (snd y).
Proof.
  induction 1 as [|x y z _ IH Hm]; [exact (fun H => H)|].
  intros H. eapply micro_keys_ok; [exact Hm|now apply IH].
Qed.

Lemma history_references_ok (x y : Time * Store) :
  history x y -> references_ok (snd x) -> references_ok (snd y).
Proof.
  induction 1 as [|x y z _ IH Hm]; [exact (fun H => H)|].
  intros H. eapply micro_references_ok; [exact Hm|now apply IH].
Qed.

Lemma history_dates_ok (x y : Time * Store) :
  history x y -> dates_ok x -> dates_ok y.
Proof.
  induction 1 as [|x y z _ IH Hm]; [exact (fun H => H)|].
  intros H. eapply micro_dates_ok; [exact Hm|now apply IH].
Qed.

Lemma history_grown (x y : Time * Store) : history x y -> grown (snd x) (snd y).
Proof.
  induction 1 as [|x y z _ IH Hm]; [apply grown_refl|].
  eapply grown_trans; [exact IH|now apply micro_grown].
Qed.

Lemma history_not_updated_earlier (x y : Time * Store) :
  history x y -> dates_ok x -> not_updated_earlier (snd x) (snd y).
Proof.
  induction 1 as [|x y z Hxy IH Hm]; intros Hd.
  - intros k c H. exists c. split; [exact H|lia].
  - eapply not_updated_earlier_trans; [now apply IH|].
    apply micro_not_updated_earlier; [exact Hm|].
    eapply history_dates_ok; eassumption.
Qed.

Lemma history_clock (x y : Time * Store) : history x y -> fst x <= fst y.
Proof.
  induction 1 as [|x y z _ IH Hm]; [lia|].
  destruct Hm; cbn [fst] in *; lia.
Qed.

End InvariantFacts.

(* ===================================================================== *)
(** ** More on the response generator *)
(* ===================================================================== *)

Module ReplyFacts.
Import PyStr Generator GeneratorFacts Blank.

Lemma lower_char_idempotent (c : ascii) : lower_char (lower_char c) = lower_char c.
Proof. destruct c as [[] [] [] [] [] [] [] []]; reflexivity. Qed.

Lemma isspace_lower_char (c : ascii) : isspace (lower_char c) = isspace c.
Proof. destruct c as [[] [] [] [] [] [] [] []]; reflexivity. Qed.

Lemma lower_app (a b : string) : lower (a ++ b) = (lower a ++ lower b)%string.
Proof. induction a as [|c a IH]; simpl; [reflexivity|now rewrite IH]. Qed.

Lemma blank_lower (s : string) : blank (lower s) = blank s.
Proof.
  induction s as [|c s IH]; simpl; [reflexivity|].
  now rewrite isspace_lower_char, IH.
Qed.

Lemma lstrip_blank_app (ws s : string) :
  blank ws = true -> lstrip (ws ++ s) = lstrip s.
Proof.
  induction ws as [|c ws IH]; simpl; [reflexivity|].
  intros H. apply andb_prop in H. destruct H as [Hc Hws].
  rewrite Hc. now apply IH.
Qed.

Lemma lstrip_blank (ws : string) : blank ws = true -> lstrip ws = EmptyString.
Proof.
  induction ws as [|c ws IH]; simpl; [reflexivity|].
  intros H. apply andb_prop in H. destruct H as [Hc Hws].
  rewrite Hc. now apply IH.
Qed.

Lemma rstrip_blank (ws : string) : blank ws = true -> rstrip ws = EmptyString.
Proof.
  induction ws as [|c ws IH]; simpl; [reflexivity|].
  intros H. apply andb_prop in H. destruct H as [Hc Hws].
  rewrite (IH Hws), Hc. reflexivity.
Qed.

Lemma rstrip_app_blank (s ws : string) :
  blank ws = true -> rstrip (s ++ ws) = rstrip s.
Proof.
  intros H. induction s as [|c s IH]; simpl.
  - now apply rstrip_blank.
  - now rewrite IH.
Qed.

Lemma lstrip_app_blank (s ws : string) :
  blank ws = true ->
  rstrip (lstrip (s ++ ws)) = rstrip (lstrip s).
Proof.
  intros H. induction s as [|c s IH]; simpl.
  - now rewrite (lstrip_blank ws H).
  - destruct (isspace c); [exact IH|].
    change (rstrip (String c s ++ ws) = rstrip (String c s)).
    now apply rstrip_app_blank.
Qed.

(** White space around a message does not count. *)
Lemma strip_around (ws1 ws2 s : string) :
  blank ws1 = true -> blank ws2 = true ->
  strip (ws1 ++ s ++ ws2) = strip s.
Proof.
  intros H1 H2. unfold strip.
  rewrite (lstrip_blank_app ws1 _ H1). now apply lstrip_app_blank.
Qed.

(** X1: whatever the message and the draw, the reply is one of the 24
    fixed strings of the rules, between 30 and 150 characters long. *)
Theorem reply_is_fixed_and_short (rnd : nat) (s : string) :
  In (generate_response rnd s) all_responses /\
  30 <= String.length (generate_response rnd s) <= 150.
Proof.
  assert (H : In (generate_response rnd s) all_responses)
    by apply respond_range.
  split; [exact H|].
  assert (Hall : forallb (fun x => (30 <=? String.length x)
                                   && (String.length x <=? 150)) all_responses
                 = true) by (vm_compute; reflexivity).
  rewrite forallb_forall in Hall. specialize (Hall _ H).
  apply andb_prop in Hall. destruct Hall as [H1 H2].
  apply Nat.leb_le in H1, H2. lia.
Qed.

(** X2: for the same draw, the reply does not depend on the case of the
    letters of the message nor on white space before and after it. *)
Theorem reply_ignores_case_and_margins (rnd : nat) (x y ws1 ws2 : string) :
  blank ws1 = true -> blank ws2 = true ->
  lower y = lower x ->
  generate_response rnd (ws1 ++ y ++ ws2) = generate_response rnd x.
Proof.
  intros H1 H2 Hxy. unfold generate_response. f_equal. unfold normalize.
  rewrite !lower_app, Hxy.
  apply strip_around; now rewrite blank_lower.
Qed.

Lemma reply_ignores_case_and_margins_witness :
  generate_response 2 ("  " ++ "WHAT is Your NAME?" ++ " ")
  = generate_response 2 "what is your name?".
Proof.
  apply (reply_ignores_case_and_margins 2 "what is your name?" "WHAT is Your NAME?"
                                        "  " " "); reflexivity.
Defined.

Lemma startswith_split (k s : string) :
  startswith k s = true -> exists b, s = (k ++ b)%string.
Proof.
  revert s. induction k as [|c k IH]; intros s H.
  - exists s. reflexivity.
  - destruct s as [|d s]; [discriminate|]. simpl in H.
    apply andb_prop in H. destruct H as [Hc Hk].
    apply Ascii.eqb_eq in Hc. subst d.
    destruct (IH s Hk) as [b ->]. exists b. reflexivity.
Qed.

Lemma startswith_app (k b : string) : startswith k (k ++ b) = true.
Proof.
  induction k as [|c k IH]; simpl; [reflexivity|].
  now rewrite Ascii.eqb_refl, IH.
Qed.

Lemma contains_split (k s : string) :
  contains k s = true -> exists a b, s = (a ++ k ++ b)%string.
Proof.
  induction s as [|c s IH]; simpl; intros H.
  - rewrite orb_false_r in H. apply startswith_split in H.
    destruct H as [b Hb]. exists EmptyString, b. exact Hb.
  - apply orb_prop in H. destruct H as [H|H].
    + apply startswith_split in H. destruct H as [b Hb].
      exists EmptyString, b. exact Hb.
    + destruct (IH H) as [a [b ->]]. exists (String c a), b. reflexivity.
Qed.

Lemma contains_app (k a b : string) : contains k (a ++ k ++ b) = true.
Proof.
  induction a as [|c a IH]; simpl.
  - destruct (k ++ b)%string eqn:E; simpl.
    + rewrite <- E, startswith_app. reflexivity.
    + rewrite <- E, startswith_app. reflexivity.
  - rewrite IH. apply orb_true_r.
Qed.

Lemma lstrip_keeps (k a b : string) :
  starts_nonspace k = true ->
  exists a', lstrip (a ++ k ++ b) = (a' ++ k ++ b)%string.
Proof.
  intros Hk. induction a as [|c a IH]; simpl.
  - exists EmptyString. destruct k as [|d k]; [discriminate|]. simpl in *.
    apply negb_true_iff in Hk. now rewrite Hk.
  - destruct (isspace c); [exact IH|].
    exists (String c a). reflexivity.
Qed.

Lemma rstrip_keeps_end (k b : string) :
  ends_nonspace k = true -> rstrip (k ++ b) = (k ++ rstrip b)%string.
Proof.
  induction k as [|c k IH]; [discriminate|].
  destruct k as [|d k].
  - simpl. intros Hc. apply negb_true_iff in Hc. rewrite Hc.
    destruct (rstrip b); reflexivity.
  - intros Hk. specialize (IH Hk).
    change (rstrip (String c (String d k ++ b)) = String c (String d k ++ rstrip b)).
    cbn [rstrip]. cbn [rstrip] in IH. rewrite IH. reflexivity.
Qed.

Lemma rstrip_keeps (k a b : string) :
  ends_nonspace k = true ->
  rstrip (a ++ k ++ b) = (a ++ k ++ rstrip b)%string.
Proof.
  intros Hk. induction a as [|c a IH].
  - exact (rstrip_keeps_end k b Hk).
  - change (rstrip (String c (a ++ k ++ b)) = String c (a ++ k ++ rstrip b)).
    cbn [rstrip]. rewrite IH.
    destruct (a ++ k ++ rstrip b)%string eqn:E; [|reflexivity].
    destruct a; [|discriminate]. destruct k; discriminate.
Qed.

(** A keyword that neither starts nor ends with white space and stands
    in the lower-cased message stands in the normalised message. *)
Lemma contains_normalize (k text : string) :
  starts_nonspace k = true -> ends_nonspace k = true ->
  contains k (lower text) = true -> contains k (normalize text) = true.
Proof.
  intros Hs He Hc. unfold normalize, strip.
  destruct (contains_split _ _ Hc) as [a [b ->]].
  destruct (lstrip_keeps k a b Hs) as [a' ->].
  rewrite (rstrip_keeps k a' b He). apply contains_app.
Qed.

(** X28: a greeting keyword anywhere wins. A message whose lower-cased
    text contains "hello", "hi", "hey", "good morning" or "good afternoon",
    at any place and also inside a longer word, gets one of the four
    greeting replies, whatever else it says or asks and whatever the
    draw. *)
Theorem greeting_anywhere (rnd : nat) (k text : string) :
  In k greeting_keywords ->
  contains k (lower text) = true ->
  In (generate_response rnd text) greeting_responses.
Proof.
  intros Hk Hc. apply respond_greeting.
  unfold any_in. apply existsb_exists. exists k. split; [exact Hk|].
  apply contains_normalize; [| |exact Hc];
    simpl in Hk; repeat (destruct Hk as [<-|Hk]; [reflexivity|]); contradiction.
Qed.

Lemma greeting_anywhere_witness :
  In (generate_response 1 "Is THIS the weather forecast?") greeting_responses.
Proof.
  apply (greeting_anywhere 1 "hi" "Is THIS the weather forecast?");
    [right; left; reflexivity|reflexivity].
Defined.

End ReplyFacts.

(* ===================================================================== *)
(** ** Runs without storage faults *)
(* ===================================================================== *)

Module QuietFacts.
Import PyStr Models Session RunFacts StoreFacts ConversationFacts UserFacts.
Import ConversationService ChatbotService ChatbotUI History HistoryFacts.
Local Open Scope session_scope.

Ltac quiet_leaf :=
  lazymatch goal with
  | Hq : quiet ?w |- quiet _ =>
      unfold quiet in *;
      repeat (cbn [faults after_round_trip after_draw set_db]; rewrite ?faults_advance);
      first [exact Hq|rewrite Hq; reflexivity]
  end.

Ltac run_quiet := repeat wp_any; try quiet_leaf.

Lemma get_or_create_user_quiet name d (w : World) :
  quiet w -> wp (get_or_create_user name d) (fun _ w' => quiet w') w.
Proof. intros Hq. unfold get_or_create_user. run_quiet. Qed.

Lemma create_conversation_quiet uid t (w : World) :
  quiet w -> wp (create_conversation uid t) (fun _ w' => quiet w') w.
Proof. intros Hq. unfold create_conversation, commit_new_conversation. run_quiet. Qed.

Lemma create_message_stays_quiet content ty cid rt mu (w : World) :
  quiet w -> wp (create_message content ty cid rt mu) (fun _ w' => quiet w') w.
Proof. intros Hq. unfold create_message. run_quiet. Qed.

Lemma update_conversation_title_quiet cid t (w : World) :
  quiet w -> wp (update_conversation_title cid t) (fun _ w' => quiet w') w.
Proof. intros Hq. unfold update_conversation_title. run_quiet. Qed.

Lemma delete_conversation_quiet cid (w : World) :
  quiet w -> wp (delete_conversation cid) (fun _ w' => quiet w') w.
Proof. intros Hq. unfold delete_conversation. run_quiet. Qed.

Lemma create_bot_message_stays_quiet content cid rt (w : World) :
  quiet w -> wp (create_bot_message content cid rt) (fun _ w' => quiet w') w.
Proof. intros Hq. unfold create_bot_message. run_quiet. Qed.

Lemma process_user_message_quiet s cid (w : World) :
  quiet w -> wp (process_user_message s cid) (fun _ w' => quiet w') w.
Proof.
  intros Hq. rewrite wp_run. intros o w' Hrun.
  rewrite ChatbotFacts.process_user_message_run in Hrun.
  pose proof (create_bot_message_stays_quiet
                (Generator.generate_response (hd 0 (draws w)) s) cid
                (Some (elapsed_ms w)) (at_persistence w)) as H.
  unfold wp in H. rewrite Hrun in H. apply H.
  unfold quiet. now rewrite ChatbotFacts.faults_at_persistence.
Qed.

End QuietFacts.

(* ===================================================================== *)
(** ** Creating, renaming and deleting conversations *)
(* ===================================================================== *)

Module LifecycleFacts.
Import PyStr Models Session RunFacts StoreFacts ConversationFacts UserFacts.
Import ConversationService History HistoryFacts QuietFacts QueryFacts.
Local Open Scope session_scope.

(** [session.refresh] of a conversation raises only on a storage fault or
    when the row is not in the store. *)
Lemma wp_refresh_conversation_why (c : Conversation)
      (Q : Outcome Conversation -> World -> Prop) (w : World) :
  (next_fault w = true -> Q (Raised OperationalError) (after_round_trip w)) ->
  (next_fault w = false ->
   (forall k, conv_id c = Some k -> find_conversation k (db w) = None) ->
   Q (Raised InvalidRequestError) (after_round_trip w)) ->
  (forall c', next_fault w = false ->
              (exists k, conv_id c = Some k /\ find_conversation k (db w) = Some c') ->
              Q (Returned c') (after_round_trip w)) ->
  wp (refresh_conversation c) Q w.
Proof.
  intros H1 H2 H3. unfold refresh_conversation.
  wp_steps; [auto|].
  cbn [db after_round_trip].
  destruct (conv_id c) as [k|] eqn:Ek.
  - destruct (find_conversation k (db w)) as [c'|] eqn:E; wp_steps.
    + apply H3; eauto.
    + apply H2; [assumption|]. intros ? [= <-]. exact E.
  - wp_steps. apply H2; [assumption|]. discriminate.
Qed.

Ltac wp_conv :=
  first
    [ lazymatch goal with
      | |- wp (refresh_conversation _) _ _ =>
          apply wp_refresh_conversation_why; [intros ?|intros ? ?|intros ? ? ?]
      end; cbn beta iota
    | wp_any ].

(** The ways [create_conversation] ends, with what brings each about. *)
Lemma create_conversation_cases uid t (w : World) :
  wp (create_conversation uid t)
     (fun o w' =>
        (o = Returned None /\ w' = w /\
         500 < String.length (or_else t "New Conversation")) \/
        (exists t1 t2,
            String.length (or_else t "New Conversation") <= 500 /\
            clock w <= t1 /\ t1 <= t2 /\ t2 = clock w' /\
            ((o = Returned None /\ db w' = db w /\
              (fault_coming w \/ find_user uid (db w) = None)) \/
             (find_user uid (db w) <> None /\
              db w' = insert_conversation
                      (mkConversation None (or_else t "New Conversation") uid t1 t2 true)
                      (db w) /\
              ((o = Returned None /\ fault_coming w) \/
               o = Returned
                   (Some (mkConversation
                            (Some (next_id (map conv_id (conversations (db w)))))
                            (or_else t "New Conversation") uid t1 t2 true))))))) w.
Proof.
  unfold create_conversation, commit_new_conversation.
  repeat wp_conv; world_simpl; cbn [user_id conv_id stored_conversation] in *;
    try (left; repeat split; assumption);
    right; exists (clock (advance w)), (clock (advance (advance w)));
    (split; [assumption|]); (split; [clock_le|]); (split; [clock_le|]);
    (split; [reflexivity|]).
  - left. repeat split. left. fault_trace.
  - right. repeat split; try congruence. left. split; [reflexivity|fault_trace].
  - exfalso.
    match goal with
    | Hn : forall k, _ -> find_conversation k _ = None |- _ =>
        specialize (Hn _ eq_refl);
        rewrite find_conversation_inserted in Hn; discriminate
    end.
  - right. repeat split; try congruence. right.
    match goal with
    | Hs : exists k, _ /\ find_conversation k _ = Some _ |- _ =>
        destruct Hs as [k [[= <-] Hf]]
    end.
    rewrite find_conversation_inserted in Hf. injection Hf as <-. reflexivity.
  - left. repeat split. now right.
Qed.

Lemma find_app_other {A : Type} (p : A -> bool) (rows : list A) (r : A) :
  p r = false -> find p (rows ++ [r]) = find p rows.
Proof.
  intros Hp. induction rows as [|x rows IH]; simpl.
  - now rewrite Hp.
  - destruct (p x); [reflexivity|exact IH].
Qed.

Lemma find_conversation_fresh (st : Store) :
  find_conversation (next_id (map conv_id (conversations st))) st = None.
Proof. apply (find_fresh conv_id). Qed.

Lemma find_conversation_inserted_other (j : nat) (c : Conversation) (st : Store) :
  j <> next_id (map conv_id (conversations st)) ->
  find_conversation j (insert_conversation c st) = find_conversation j st.
Proof.
  intros Hne. unfold find_conversation, insert_conversation. simpl.
  apply find_app_other. cbn [conv_id stored_conversation has_id].
  apply Nat.eqb_neq. congruence.
Qed.

(** In a quiet world, for a stored user and a title within the bound of
    the schema, [create_conversation] stores the conversation and returns
    it. *)
Lemma create_conversation_run uid t u (w : World) :
  quiet w -> find_user uid (db w) = Some u ->
  String.length (or_else t "New Conversation") <= 500 ->
  exists t1 t2 w',
    create_conversation uid t w
    = (Returned (Some (mkConversation
                         (Some (next_id (map conv_id (conversations (db w)))))
                         (or_else t "New Conversation") uid t1 t2 true)), w') /\
    clock w <= t1 /\ t1 <= t2 /\ t2 = clock w' /\ quiet w' /\
    db w' = insert_conversation
              (mkConversation None (or_else t "New Conversation") uid t1 t2 true)
              (db w).
Proof.
  intros Hq Hu Hlen.
  pose proof (create_conversation_cases uid t w) as H.
  pose proof (create_conversation_quiet uid t w Hq) as Hq'.
  unfold wp in H, Hq'.
  destruct (create_conversation uid t w) as [o w']. cbn [fst snd] in *.
  pose proof (quiet_no_fault w Hq) as Hnf.
  destruct H as [[_ [_ ?]]|[t1 [t2 [_ [H1 [H2 [H3 H]]]]]]]; [lia|].
  destruct H as [[_ [_ [?|?]]]|[_ [Hdb [[_ ?]|Ho]]]];
    try contradiction; try congruence.
  subst o. exists t1, t2, w'. repeat split; assumption.
Qed.

(** X8: [create_conversation] for a user id that is not in the store
    returns None and leaves the store as it is, whatever the title, the
    clock and the faults of the storage. *)
Theorem create_conversation_needs_user uid t (w : World) :
  find_user uid (db w) = None ->
  fst (create_conversation uid t w) = Returned None /\
  db (snd (create_conversation uid t w)) = db w.
Proof.
  intros Hu.
  pose proof (create_conversation_cases uid t w) as H. unfold wp in H.
  destruct (create_conversation uid t w) as [o w']. cbn [fst snd] in *.
  destruct H as [[? [-> _]]|[t1 [t2 [_ [_ [_ [_ H]]]]]]]; [now split|].
  destruct H as [[? [? _]]|[? _]]; [now split|contradiction].
Qed.

Lemma create_conversation_needs_user_witness :
  fst (create_conversation 404 (Some "Test") (Examples.steady Examples.one_chat []))
  = Returned None /\
  db (snd (create_conversation 404 (Some "Test") (Examples.steady Examples.one_chat [])))
  = db (Examples.steady Examples.one_chat []).
Proof.
  apply (create_conversation_needs_user 404 (Some "Test")
           (Examples.steady Examples.one_chat [])).
  reflexivity.
Defined.

(** X9: in a quiet world, for a stored user and a title of at most 500
    characters, [create_conversation] returns a conversation that is active,
    belongs to the user, carries the title given ("New Conversation" when
    the title is None or empty) and a key no conversation had before; its
    dates are clock reads of the call, created_at not after updated_at;
    [get_conversation] on that key then returns the same record; the users,
    the messages and the conversations under other keys are as before. *)
Theorem created_conversation_is_found uid t u (w : World) :
  quiet w -> find_user uid (db w) = Some u ->
  String.length (or_else t "New Conversation") <= 500 ->
  exists c k w',
    create_conversation uid t w = (Returned (Some c), w') /\
    conv_id c = Some k /\ find_conversation k (db w) = None /\
    title c = or_else t "New Conversation" /\
    user_id c = uid /\ is_active c = true /\
    clock w <= conv_created_at c /\ conv_created_at c <= updated_at c /\
    updated_at c <= clock w' /\
    fst (get_conversation k w') = Returned (Some c) /\
    (forall j, j <> k -> find_conversation j (db w') = find_conversation j (db w)) /\
    users (db w') = users (db w) /\ messages (db w') = messages (db w).
Proof.
  intros Hq Hu Hlen.
  destruct (create_conversation_run uid t u w Hq Hu Hlen)
    as [t1 [t2 [w' [Hrun [H1 [H2 [H3 [Hq' Hdb]]]]]]]].
  eexists _, _, w'. split; [exact Hrun|]. cbn [conv_id title user_id is_active
                                                conv_created_at updated_at].
  repeat split; try assumption; try lia.
  - apply find_conversation_fresh.
  - rewrite get_conversation_run, (quiet_next_fault _ Hq'). cbn [fst].
    rewrite Hdb, find_conversation_inserted. reflexivity.
  - intros j Hj. rewrite Hdb. now apply find_conversation_inserted_other.
  - now rewrite Hdb.
  - now rewrite Hdb.
Qed.

Lemma created_conversation_is_found_witness :
  exists c k w',
    create_conversation 1 None (Examples.steady Examples.one_chat [])
    = (Returned (Some c), w') /\
    conv_id c = Some k /\
    find_conversation k (db (Examples.steady Examples.one_chat [])) = None /\
    title c = or_else None "New Conversation" /\
    user_id c = 1 /\ is_active c = true /\
    clock (Examples.steady Examples.one_chat []) <= conv_created_at c /\
    conv_created_at c <= updated_at c /\
    updated_at c <= clock w' /\
    fst (get_conversation k w') = Returned (Some c) /\
    (forall j, j <> k ->
               find_conversation j (db w')
               = find_conversation j (db (Examples.steady Examples.one_chat []))) /\
    users (db w') = users (db (Examples.steady Examples.one_chat [])) /\
    messages (db w') = messages (db (Examples.steady Examples.one_chat [])).
Proof.
  apply (created_conversation_is_found 1 None Examples.alice
           (Examples.steady Examples.one_chat []));
    [reflexivity|reflexivity|simpl; lia].
Defined.

(** The ways [update_conversation_title] ends, with what brings each
    about. *)
Lemma update_conversation_title_ends cid new_title (w : World) :
  wp (update_conversation_title cid new_title)
     (fun o w' =>
        (o = Returned None /\ db w' = db w /\ clock w' = clock w /\
         (fault_coming w \/ find_conversation cid (db w) = None)) \/
        (exists c t,
            find_conversation cid (db w) = Some c /\
            clock w <= t /\ t = clock w' /\
            ((o = Returned None /\ db w' = db w /\ fault_coming w) \/
             (db w' = write_conversation
                        (set_updated_at t (set_title new_title c)) (db w) /\
              ((o = Returned None /\ fault_coming w) \/
               o = Returned (Some (set_updated_at t (set_title new_title c)))))))) w.
Proof.
  unfold update_conversation_title.
  repeat wp_conv; world_simpl;
    try (left; repeat split; solve [left; fault_trace|now right]);
    right; exists c, (clock (advance (after_round_trip w)));
    (split; [reflexivity|]); (split; [clock_le|]); (split; [reflexivity|]).
  - left. repeat split. fault_trace.
  - right. split; [reflexivity|]. left. split; [reflexivity|fault_trace].
  - exfalso.
    pose proof (find_conversation_id _ _ _ Heqo) as Hid.
    match goal with
    | Hn : forall k, _ -> find_conversation k _ = None |- _ =>
        specialize (Hn cid Hid);
        erewrite find_conversation_written in Hn;
        [discriminate|exact Heqo|exact Hid]
    end.
  - right. split; [reflexivity|]. right.
    pose proof (find_conversation_id _ _ _ Heqo) as Hid.
    match goal with
    | Hs : exists k, _ /\ find_conversation k _ = Some _ |- _ =>
        destruct Hs as [k [Hk Hf]]
    end.
    cbn [conv_id set_updated_at set_title] in Hk.
    rewrite Hid in Hk. injection Hk as <-.
    erewrite find_conversation_written in Hf; [|exact Heqo|exact Hid].
    now injection Hf as <-.
Qed.

Lemma update_conversation_title_run cid new_title c (w : World) :
  quiet w -> find_conversation cid (db w) = Some c ->
  exists t w',
    update_conversation_title cid new_title w
    = (Returned (Some (set_updated_at t (set_title new_title c))), w') /\
    clock w <= t /\ t = clock w' /\ quiet w' /\
    db w' = write_conversation (set_updated_at t (set_title new_title c)) (db w).
Proof.
  intros Hq Hc.
  pose proof (update_conversation_title_ends cid new_title w) as H.
  pose proof (update_conversation_title_quiet cid new_title w Hq) as Hq'.
  unfold wp in H, Hq'.
  destruct (update_conversation_title cid new_title w) as [o w']. cbn [fst snd] in *.
  pose proof (quiet_no_fault w Hq) as Hnf.
  destruct H as [[_ [_ [_ [?|?]]]]|[c0 [t [Hc0 [H1 [H2 H]]]]]];
    [contradiction|congruence|].
  rewrite Hc in Hc0. injection Hc0 as <-.
  destruct H as [[_ [_ ?]]|[Hdb [[_ ?]|Ho]]]; try contradiction.
  subst o. exists t, w'. repeat split; assumption.
Qed.

Lemma delete_conversation_run cid c (w : World) :
  quiet w -> find_conversation cid (db w) = Some c ->
  exists t w',
    delete_conversation cid w = (Returned true, w') /\
    clock w <= t /\ t <= clock w' /\ quiet w' /\
    db w' = write_conversation (set_updated_at t (set_is_active false c)) (db w).
Proof.
  intros Hq Hc.
  pose proof (delete_conversation_cases cid w) as H.
  pose proof (delete_conversation_quiet cid w Hq) as Hq'.
  unfold wp in H, Hq'.
  destruct (delete_conversation cid w) as [o w']. cbn [fst snd] in *.
  pose proof (quiet_no_fault w Hq) as Hnf.
  destruct H as [[_ [_ [?|?]]]|[c0 [t [-> [Hc0 [H1 [H2 Hdb]]]]]]];
    [contradiction|congruence|].
  rewrite Hc in Hc0. injection Hc0 as <-.
  exists t, w'. repeat split; assumption.
Qed.

(** X10: [update_conversation_title] on an id that is not in the store
    returns None and changes neither the store nor the clock, with or
    without a storage fault. *)
Theorem update_conversation_title_unknown cid new_title (w : World) :
  find_conversation cid (db w) = None ->
  fst (update_conversation_title cid new_title w) = Returned None /\
  db (snd (update_conversation_title cid new_title w)) = db w /\
  clock (snd (update_conversation_title cid new_title w)) = clock w.
Proof.
  intros Hn.
  pose proof (update_conversation_title_ends cid new_title w) as H. unfold wp in H.
  destruct (update_conversation_title cid new_title w) as [o w']. cbn [fst snd] in *.
  destruct H as [[? [? [? _]]]|[c [t [Hc _]]]]; [now repeat split|congruence].
Qed.

Lemma update_conversation_title_unknown_witness :
  fst (update_conversation_title 404 "Updated Title"
         (Examples.steady Examples.one_chat [true])) = Returned None /\
  db (snd (update_conversation_title 404 "Updated Title"
             (Examples.steady Examples.one_chat [true])))
  = db (Examples.steady Examples.one_chat [true]) /\
  clock (snd (update_conversation_title 404 "Updated Title"
                (Examples.steady Examples.one_chat [true])))
  = clock (Examples.steady Examples.one_chat [true]).
Proof.
  apply (update_conversation_title_unknown 404 "Updated Title"
           (Examples.steady Examples.one_chat [true])).
  reflexivity.
Defined.

(** X11: in a quiet world, [update_conversation_title] on a stored
    conversation, with a title within the 500 characters of the column,
    returns the record with the new title and with updated_at set to a clock
    read of the call, every other field as it was; [get_conversation] then
    returns that record; the users, the messages and the conversations under
    other keys are as before. *)
Theorem renamed_conversation_is_found cid new_title c (w : World) :
  quiet w -> find_conversation cid (db w) = Some c ->
  String.length new_title <= 500 ->
  exists c' w',
    update_conversation_title cid new_title w = (Returned (Some c'), w') /\
    title c' = new_title /\
    clock w <= updated_at c' /\ updated_at c' = clock w' /\
    conv_id c' = Some cid /\ user_id c' = user_id c /\
    conv_created_at c' = conv_created_at c /\ is_active c' = is_active c /\
    fst (get_conversation cid w') = Returned (Some c') /\
    (forall j, j <> cid -> find_conversation j (db w') = find_conversation j (db w)) /\
    users (db w') = users (db w) /\ messages (db w') = messages (db w).
Proof.
  intros Hq Hc _.
  destruct (update_conversation_title_run cid new_title c w Hq Hc)
    as [t [w' [Hrun [H1 [H2 [Hq' Hdb]]]]]].
  pose proof (find_conversation_id _ _ _ Hc) as Hid.
  eexists _, w'. split; [exact Hrun|].
  cbn [conv_id title user_id is_active conv_created_at updated_at
       set_updated_at set_title].
  repeat split; try assumption.
  - rewrite get_conversation_run, (quiet_next_fault _ Hq'). cbn [fst]. rewrite Hdb.
    f_equal. eapply find_conversation_written; [exact Hc|exact Hid].
  - intros j Hj. rewrite Hdb.
    apply (find_conversation_written_other cid j); [exact Hid|exact Hj].
  - now rewrite Hdb.
  - now rewrite Hdb.
Qed.

Lemma renamed_conversation_is_found_witness :
  exists c' w',
    update_conversation_title 1 "Updated Title" (Examples.steady Examples.one_chat [])
    = (Returned (Some c'), w') /\
    title c' = "Updated Title"%string /\
    clock (Examples.steady Examples.one_chat []) <= updated_at c' /\
    updated_at c' = clock w' /\
    conv_id c' = Some 1 /\ user_id c' = user_id Examples.chat /\
    conv_created_at c' = conv_created_at Examples.chat /\
    is_active c' = is_active Examples.chat /\
    fst (get_conversation 1 w') = Returned (Some c') /\
    (forall j, j <> 1 ->
               find_conversation j (db w')
               = find_conversation j (db (Examples.steady Examples.one_chat []))) /\
    users (db w') = users (db (Examples.steady Examples.one_chat [])) /\
    messages (db w') = messages (db (Examples.steady Examples.one_chat [])).
Proof.
  apply (renamed_conversation_is_found 1 "Updated Title" Examples.chat
           (Examples.steady Examples.one_chat []));
    [reflexivity|reflexivity|simpl; lia].
Defined.

(** X12: deleting is repeatable. In a quiet world, [delete_conversation]
    on a stored conversation returns true, and a second call on the same id
    returns true again: the call does not look at is_active. After both the
    record is inactive, updated_at is a clock read of the second call, and
    the title, the user and the creation date are those it had. *)
Theorem delete_conversation_twice cid c (w : World) :
  quiet w -> find_conversation cid (db w) = Some c ->
  exists w1 w2 c2,
    delete_conversation cid w = (Returned true, w1) /\
    delete_conversation cid w1 = (Returned true, w2) /\
    find_conversation cid (db w2) = Some c2 /\
    is_active c2 = false /\
    clock w1 <= updated_at c2 /\ updated_at c2 <= clock w2 /\
    title c2 = title c /\ user_id c2 = user_id c /\
    conv_created_at c2 = conv_created_at c /\
    messages (db w2) = messages (db w).
Proof.
  intros Hq Hc.
  pose proof (find_conversation_id _ _ _ Hc) as Hid.
  destruct (delete_conversation_run cid c w Hq Hc)
    as [t1 [w1 [Hrun1 [_ [_ [Hq1 Hdb1]]]]]].
  assert (Hc1 : find_conversation cid (db w1)
                = Some (set_updated_at t1 (set_is_active false c))).
  { rewrite Hdb1. eapply find_conversation_written; [exact Hc|exact Hid]. }
  destruct (delete_conversation_run cid _ w1 Hq1 Hc1)
    as [t2 [w2 [Hrun2 [H1 [H2 [_ Hdb2]]]]]].
  eexists w1, w2, _. split; [exact Hrun1|]. split; [exact Hrun2|].
  split; [rewrite Hdb2; eapply find_conversation_written; [exact Hc1|exact Hid]|].
  cbn [conv_id title user_id is_active conv_created_at updated_at
       set_updated_at set_is_active].
  repeat split; try assumption.
  now rewrite Hdb2, Hdb1.
Qed.

Lemma delete_conversation_twice_witness :
  exists w1 w2 c2,
    delete_conversation 1 (Examples.steady Examples.one_chat []) = (Returned true, w1) /\
    delete_conversation 1 w1 = (Returned true, w2) /\
    find_conversation 1 (db w2) = Some c2 /\
    is_active c2 = false /\
    clock w1 <= updated_at c2 /\ updated_at c2 <= clock w2 /\
    title c2 = title Examples.chat /\ user_id c2 = user_id Examples.chat /\
    conv_created_at c2 = conv_created_at Examples.chat /\
    messages (db w2) = messages (db (Examples.steady Examples.one_chat [])).
Proof.
  apply (delete_conversation_twice 1 Examples.chat
           (Examples.steady Examples.one_chat []));
    reflexivity.
Defined.

End LifecycleFacts.

(* ===================================================================== *)
(** ** Creating a user *)
(* ===================================================================== *)

Module NewUserFacts.
Import PyStr Models Session RunFacts StoreFacts ConversationFacts UserFacts.
Import ConversationService History HistoryFacts QuietFacts.
Local Open Scope session_scope.

(** The ways [get_or_create_user] ends for a name that is not stored. *)
Lemma get_or_create_user_new_ends name d (w : World) :
  find_user_by_username name (db w) = None ->
  wp (get_or_create_user name d)
     (fun o w' =>
        (o = Returned None /\ db w' = db w /\
         (fault_coming w \/ 100 < String.length name
          \/ 200 < String.length (or_else d name))) \/
        (exists t,
            String.length name <= 100 /\ String.length (or_else d name) <= 200 /\
            clock w <= t /\ t = clock w' /\
            db w' = insert_user (mkUser None name (or_else d name) t true) (db w) /\
            ((o = Returned None /\ fault_coming w) \/
             o = Returned
                   (Some (mkUser (Some (next_id (map usr_id (users (db w)))))
                                 name (or_else d name) t true))))) w.
Proof.
  intros Hu. unfold get_or_create_user.
  repeat wp_user_call; world_simpl;
    try (left; repeat split; left; fault_trace).
  rewrite Hu.
  repeat wp_user_call; world_simpl; cbn [username usr_id stored_user] in *;
    try (left; repeat split; solve [left; fault_trace|right; left; assumption
                                   |right; right; assumption]);
    try congruence;
    right; exists (clock (advance (after_round_trip w)));
    (split; [assumption|]); (split; [assumption|]); (split; [clock_le|]);
    (split; [reflexivity|]); (split; [reflexivity|]).
  - left. split; [reflexivity|fault_trace].
  - right.
    match goal with
    | Hs : exists k, _ /\ find_user k _ = Some _ |- _ =>
        destruct Hs as [k [[= <-] Hf]]
    end.
    rewrite find_user_inserted in Hf. injection Hf as <-. reflexivity.
  - exfalso.
    match goal with
    | Hn : forall k, _ -> find_user k _ = None |- _ =>
        specialize (Hn _ eq_refl); rewrite find_user_inserted in Hn; discriminate
    end.
Qed.

(** X13: in a quiet world, for a username that is not stored and within
    the bounds of the schema (100 characters, 200 for the display name),
    [get_or_create_user] stores and returns a new user: active, under a key
    no user had, dated by a clock read of the call, with the display name
    given, and with the username as display name when none or an empty one
    is given. The conversations and the messages are as before, and the
    user is then found under the username. *)
Theorem new_user_is_stored name d (w : World) :
  quiet w -> find_user_by_username name (db w) = None ->
  String.length name <= 100 -> String.length (or_else d name) <= 200 ->
  exists u k w',
    get_or_create_user name d w = (Returned (Some u), w') /\
    usr_id u = Some k /\ find_user k (db w) = None /\
    username u = name /\ display_name u = or_else d name /\
    (d = None \/ d = Some EmptyString -> display_name u = name) /\
    user_is_active u = true /\
    clock w <= user_created_at u /\ user_created_at u = clock w' /\
    find_user_by_username name (db w') = Some u /\
    find_user k (db w') = Some u /\
    conversations (db w') = conversations (db w) /\
    messages (db w') = messages (db w).
Proof.
  intros Hq Hu Hn Hd.
  pose proof (get_or_create_user_new_ends name d w Hu) as H. unfold wp in H.
  destruct (get_or_create_user name d w) as [o w']. cbn [fst snd] in *.
  pose proof (quiet_no_fault w Hq) as Hnf.
  destruct H as [[_ [_ [?|[?|?]]]]|[t [_ [_ [H1 [H2 [Hdb [[_ ?]|Ho]]]]]]]];
    try contradiction; try lia.
  subst o. eexists _, _, w'. split; [reflexivity|].
  cbn [usr_id username display_name user_is_active user_created_at].
  repeat split; try assumption.
  - apply (find_fresh usr_id).
  - intros [->| ->]; reflexivity.
  - rewrite Hdb.
    apply (find_user_by_username_inserted (mkUser None name (or_else d name) t true)).
    exact Hu.
  - rewrite Hdb. apply find_user_inserted.
  - now rewrite Hdb.
  - now rewrite Hdb.
Qed.

Lemma new_user_is_stored_witness :
  exists u k w',
    get_or_create_user "simple_user" None (Examples.steady Examples.one_chat [])
    = (Returned (Some u), w') /\
    usr_id u = Some k /\
    find_user k (db (Examples.steady Examples.one_chat [])) = None /\
    username u = "simple_user"%string /\
    display_name u = or_else None "simple_user" /\
    (@None string = None \/ None = Some EmptyString ->
     display_name u = "simple_user"%string) /\
    user_is_active u = true /\
    clock (Examples.steady Examples.one_chat []) <= user_created_at u /\
    user_created_at u = clock w' /\
    find_user_by_username "simple_user" (db w') = Some u /\
    find_user k (db w') = Some u /\
    conversations (db w') = conversations (db (Examples.steady Examples.one_chat [])) /\
    messages (db w') = messages (db (Examples.steady Examples.one_chat [])).
Proof.
  apply (new_user_is_stored "simple_user" None (Examples.steady Examples.one_chat []));
    [reflexivity|reflexivity|simpl; lia|simpl; lia].
Defined.

(** X14: for a username that is not stored, [get_or_create_user] with a
    username of more than 100 characters, or a display name (the username
    when none is given) of more than 200, returns None and stores nothing. *)
Theorem long_user_name_is_refused name d (w : World) :
  find_user_by_username name (db w) = None ->
  100 < String.length name \/ 200 < String.length (or_else d name) ->
  fst (get_or_create_user name d w) = Returned None /\
  db (snd (get_or_create_user name d w)) = db w.
Proof.
  intros Hu Hlong.
  pose proof (get_or_create_user_new_ends name d w Hu) as H. unfold wp in H.
  destruct (get_or_create_user name d w) as [o w']. cbn [fst snd] in *.
  destruct H as [[? [? _]]|[t [? [? _]]]]; [now split|lia].
Qed.

Lemma long_user_name_is_refused_witness :
  fst (get_or_create_user Samples.long_name None (Examples.steady Examples.one_chat []))
  = Returned None /\
  db (snd (get_or_create_user Samples.long_name None
             (Examples.steady Examples.one_chat [])))
  = db (Examples.steady Examples.one_chat []).
Proof.
  apply (long_user_name_is_refused Samples.long_name None
           (Examples.steady Examples.one_chat []));
    [reflexivity|left; vm_compute; lia].
Defined.

End NewUserFacts.

(* ===================================================================== *)
(** ** The listings *)
(* ===================================================================== *)

Module ListingFacts.
Import PyStr Models Session RunFacts StoreFacts ConversationFacts QueryFacts.
Import ConversationService History InvariantFacts LifecycleFacts.
Local Open Scope session_scope.

Lemma filter_snoc {A : Type} (p : A -> bool) (l : list A) (x : A) :
  filter p (l ++ [x]) = if p x then filter p l ++ [x] else filter p l.
Proof.
  rewrite filter_app. simpl. destruct (p x); [reflexivity|apply app_nil_r].
Qed.

Section WithEngine.

Variable engine : Engine.
Hypothesis contract : engine_contract engine.

Lemma select_user_conversations_sorted (uid : nat) (active_only : bool) (st : Store) :
  StronglySorted (fun a b => updated_at b <= updated_at a)
                 (select_user_conversations engine uid active_only st).
Proof.
  unfold select_user_conversations.
  apply (order_by_sorted engine contract Conversation Desc updated_at).
Qed.

(** X15: [get_user_conversations] lists the conversations newest first.
    When the storage answers, the list is sorted by updated_at descending
    and holds exactly the stored conversations of the user (the active ones
    only when active_only is set), each as often as it is stored; when the
    storage fails the list is empty. The store and the clock are not
    changed. *)
Theorem user_conversations_newest_first (uid : nat) (active_only : bool) (w : World) :
  exists l w',
    get_user_conversations engine uid active_only w = (Returned l, w') /\
    db w' = db w /\ clock w' = clock w /\
    StronglySorted (fun a b => updated_at b <= updated_at a) l /\
    (next_fault w = true -> l = []) /\
    (next_fault w = false ->
     Permutation
       (filter (fun c => (user_id c =? uid) && (if active_only then is_active c else true))
               (conversations (db w)))
       l).
Proof.
  rewrite get_user_conversations_run.
  eexists _, _. split; [reflexivity|].
  split; [reflexivity|]. split; [reflexivity|].
  destruct (next_fault w).
  - split; [constructor|]. split; [reflexivity|discriminate].
  - split; [apply select_user_conversations_sorted|].
    split; [discriminate|]. intros _.
    unfold select_user_conversations.
    eapply Permutation_trans;
      [|apply (order_by_permutation engine contract)].
    destruct active_only.
    + induction (conversations (db w)) as [|c rows IH]; simpl; [constructor|].
      destruct (user_id c =? uid); simpl; [|exact IH].
      destruct (is_active c); [now constructor|exact IH].
    + induction (conversations (db w)) as [|c rows IH]; simpl; [constructor|].
      destruct (user_id c =? uid); simpl; [now constructor|exact IH].
Qed.

(** X16: the limit of [get_conversation_messages]. When the storage
    answers, a limit of n+1 gives the first n+1 messages of the full
    listing (all of them when there are fewer), and a limit of 0 gives the
    full listing, as no limit does: [if limit:] takes 0 for no limit. *)
Theorem message_limit (cid : nat) (limit : option nat) (w : World) :
  next_fault w = false ->
  exists l full,
    fst (get_conversation_messages engine cid limit w) = Returned l /\
    fst (get_conversation_messages engine cid None w) = Returned full /\
    length full = length (filter (fun m => conversation_id m =? cid) (messages (db w))) /\
    match limit with
    | Some (S n) => l = firstn (S n) full /\ length l = Nat.min (S n) (length full)
    | _ => l = full
    end.
Proof.
  intros Hf. rewrite !get_conversation_messages_run, Hf. cbn [fst].
  eexists _, _. split; [reflexivity|]. split; [reflexivity|].
  split.
  - symmetry. apply Permutation_length.
    apply (select_conversation_messages_all engine contract).
  - destruct limit as [[|n]|]; try reflexivity.
    split; [reflexivity|].
    unfold select_conversation_messages. apply length_firstn.
Qed.

(** X17: a message that [create_message] has stored is listed. In a quiet
    world, for a stored conversation and a text within the bounds of the
    schema, [create_message] returns the message with the text, the type and
    the metadata as given, under a key no message had, dated by a clock read
    of the call; the message table is the old one with the message at its
    end; [get_conversation_messages] of the conversation then holds the
    messages it held before and the new one, and the listings of the other
    conversations are as before. *)
Theorem created_message_is_listed text ty cid rt mu c (w : World) :
  quiet w -> String.length text <= 5000 ->
  (forall s, mu = Some s -> String.length s <= 100) ->
  find_conversation cid (db w) = Some c ->
  exists m k w' l,
    create_message text ty cid rt mu w = (Returned (Some m), w') /\
    content m = text /\ message_type m = ty /\ conversation_id m = cid /\
    response_time_ms m = rt /\ model_used m = mu /\
    msg_id m = Some k /\ find_message k (db w) = None /\
    clock w <= created_at m /\ created_at m <= clock w' /\
    messages (db w') = messages (db w) ++ [m] /\
    fst (get_conversation_messages engine cid None w') = Returned l /\
    Permutation (select_conversation_messages engine cid None (db w) ++ [m]) l /\
    (forall cid' limit, cid' <> cid ->
       select_conversation_messages engine cid' limit (db w')
       = select_conversation_messages engine cid' limit (db w)).
Proof.
  intros Hq Hlen Hmu Hc.
  destruct (create_message_quiet text ty cid rt mu c w Hq Hlen Hmu Hc)
    as [t [t' [w' [Hrun [H1 [H2 [H3 Hdb]]]]]]].
  pose proof (QuietFacts.create_message_stays_quiet text ty cid rt mu w Hq) as Hq'.
  unfold wp in Hq'. rewrite Hrun in Hq'. cbn [snd] in Hq'.
  assert (Hmsgs : messages (db w')
                  = messages (db w)
                      ++ [mkMessage (Some (next_id (map msg_id (messages (db w)))))
                                    text ty cid t rt mu]).
  { rewrite Hdb. reflexivity. }
  eexists _, _, w', _. split; [exact Hrun|].
  cbn [content message_type conversation_id response_time_ms model_used msg_id
       created_at].
  repeat split; try assumption; try lia.
  - apply (find_fresh msg_id).
  - rewrite get_conversation_messages_run, (quiet_next_fault _ Hq'). reflexivity.
  - eapply Permutation_trans;
      [|apply (select_conversation_messages_all engine contract)].
    rewrite Hmsgs, filter_snoc. cbn [conversation_id]. rewrite Nat.eqb_refl.
    apply Permutation_app_tail, Permutation_sym.
    apply (select_conversation_messages_all engine contract).
  - intros cid' limit Hne. unfold select_conversation_messages.
    rewrite Hmsgs, filter_snoc. cbn [conversation_id].
    destruct (Nat.eqb_spec cid cid'); [congruence|reflexivity].
Qed.

End WithEngine.

Lemma user_conversations_newest_first_witness :
  engine_contract keep_ties_engine /\
  exists l w',
    get_user_conversations keep_ties_engine 1 true (Examples.steady Examples.one_chat [])
    = (Returned l, w') /\
    db w' = db (Examples.steady Examples.one_chat []) /\
    clock w' = clock (Examples.steady Examples.one_chat []) /\
    StronglySorted (fun a b => updated_at b <= updated_at a) l /\
    (next_fault (Examples.steady Examples.one_chat []) = true -> l = []) /\
    (next_fault (Examples.steady Examples.one_chat []) = false ->
     Permutation
       (filter (fun c => (user_id c =? 1) && (if true then is_active c else true))
               (conversations (db (Examples.steady Examples.one_chat []))))
       l).
Proof.
  split; [exact keep_ties_engine_contract|].
  exact (user_conversations_newest_first keep_ties_engine keep_ties_engine_contract
           1 true (Examples.steady Examples.one_chat [])).
Defined.

Lemma message_limit_witness :
  engine_contract keep_ties_engine /\
  next_fault (Examples.frozen Examples.tie_store) = false /\
  exists l full,
    fst (get_conversation_messages keep_ties_engine 1 (Some 1)
           (Examples.frozen Examples.tie_store)) = Returned l /\
    fst (get_conversation_messages keep_ties_engine 1 None
           (Examples.frozen Examples.tie_store)) = Returned full /\
    length full
    = length (filter (fun m => conversation_id m =? 1)
                     (messages (db (Examples.frozen Examples.tie_store)))) /\
    l = firstn 1 full /\ length l = Nat.min 1 (length full).
Proof.
  split; [exact keep_ties_engine_contract|]. split; [reflexivity|].
  exact (message_limit keep_ties_engine keep_ties_engine_contract 1 (Some 1)
           (Examples.frozen Examples.tie_store) eq_refl).
Defined.

Lemma created_message_is_listed_witness :
  engine_contract keep_ties_engine /\
  exists m k w' l,
    create_message "Hello world!" USER 1 None None (Examples.steady Examples.one_chat [])
    = (Returned (Some m), w') /\
    content m = "Hello world!"%string /\ message_type m = USER /\
    conversation_id m = 1 /\
    response_time_ms m = None /\ model_used m = None /\
    msg_id m = Some k /\
    find_message k (db (Examples.steady Examples.one_chat [])) = None /\
    clock (Examples.steady Examples.one_chat []) <= created_at m /\
    created_at m <= clock w' /\
    messages (db w') = messages (db (Examples.steady Examples.one_chat [])) ++ [m] /\
    fst (get_conversation_messages keep_ties_engine 1 None w') = Returned l /\
    Permutation
      (select_conversation_messages keep_ties_engine 1 None
         (db (Examples.steady Examples.one_chat [])) ++ [m]) l /\
    (forall cid' limit, cid' <> 1 ->
       select_conversation_messages keep_ties_engine cid' limit (db w')
       = select_conversation_messages keep_ties_engine cid' limit
           (db (Examples.steady Examples.one_chat []))).
Proof.
  split; [exact keep_ties_engine_contract|].
  apply (created_message_is_listed keep_ties_engine keep_ties_engine_contract
           "Hello world!" USER 1 None None Examples.chat
           (Examples.steady Examples.one_chat []));
    [reflexivity|simpl; lia|discriminate|reflexivity].
Defined.

End ListingFacts.

(* ===================================================================== *)
(** ** The exchange: what is refused, what a turn stores *)
(* ===================================================================== *)

Module ExchangeFacts.
Import PyStr Blank Models Session RunFacts StoreFacts ConversationFacts.
Import ChatbotFacts QuietFacts LifecycleFacts ReplyFacts TurnFacts.
Import ConversationService ChatbotService ChatbotUI.
Local Open Scope session_scope.

Lemma strip_blank (s : string) : blank s = true -> strip s = EmptyString.
Proof. intros H. unfold strip. now rewrite (lstrip_blank s H). Qed.

Lemma rstrip_empty (s : string) : rstrip s = EmptyString -> blank s = true.
Proof.
  induction s as [|c s IH]; simpl; [reflexivity|].
  destruct (rstrip s); [|discriminate].
  destruct (isspace c); [intros _; now apply IH|discriminate].
Qed.

Lemma lstrip_blank_inv (s : string) : blank (lstrip s) = true -> blank s = true.
Proof.
  induction s as [|c s IH]; simpl; [reflexivity|].
  destruct (isspace c) eqn:E; [exact IH|].
  simpl. rewrite E. discriminate.
Qed.

(** A text is blank exactly when nothing is left of it once stripped. *)
Lemma truthy_strip (s : string) : truthy (strip s) = negb (blank s).
Proof.
  destruct (blank s) eqn:E.
  - now rewrite (strip_blank s E).
  - destruct (strip s) eqn:Es; [|reflexivity].
    apply rstrip_empty, lstrip_blank_inv in Es. congruence.
Qed.

Lemma length_take (n : nat) (s : string) :
  String.length (take n s) = Nat.min n (String.length s).
Proof.
  revert s. induction n as [|n IH]; intros [|c s]; simpl; try reflexivity.
  now rewrite IH.
Qed.

Lemma length_append (a b : string) :
  String.length (a ++ b) = String.length a + String.length b.
Proof. induction a as [|c a IH]; simpl; [reflexivity|now rewrite IH]. Qed.

Lemma check_max_length_refuses (n : nat) (s : string) (w : World) :
  n < String.length s -> check_max_length n s w = (Raised ValidationError, w).
Proof.
  intros H. unfold check_max_length.
  destruct (Nat.leb_spec (String.length s) n); [lia|reflexivity].
Qed.

(** X18: a text of more than 5000 characters is refused before anything
    is read or written: [create_message] and [create_bot_message] return
    None and leave the whole world (store, clock, faults to come) as it
    is, and so does [send_message] when the text typed, stripped, is that
    long. *)
Theorem long_text_is_refused text ty cid rt mu conv (w : World) :
  5000 < String.length text ->
  create_message text ty cid rt mu w = (Returned None, w) /\
  create_bot_message text cid rt w = (Returned None, w) /\
  (5000 < String.length (strip text) ->
   send_message conv text w = (Returned None, w)).
Proof.
  intros Hlong. split; [|split].
  - unfold create_message, try_except, bind.
    now rewrite (check_max_length_refuses 5000 text w Hlong).
  - unfold create_bot_message, try_except, bind.
    now rewrite (check_max_length_refuses 5000 text w Hlong).
  - intros Hstrip. unfold send_message, send_message_with.
    destruct conv as [c|]; [|reflexivity].
    destruct (negb (truthy (strip text))); [reflexivity|].
    destruct (conv_id c) as [id|]; [|reflexivity].
    unfold try_except at 1. unfold bind at 1.
    assert (E : create_message (strip text) USER id None None w = (Returned None, w)).
    { unfold create_message, try_except, bind.
      now rewrite (check_max_length_refuses 5000 (strip text) w Hstrip). }
    rewrite E. reflexivity.
Qed.

Lemma long_text_is_refused_witness :
  create_message Samples.long_text USER 1 None None (Examples.steady Examples.one_chat [])
  = (Returned None, Examples.steady Examples.one_chat []) /\
  create_bot_message Samples.long_text 1 None (Examples.steady Examples.one_chat [])
  = (Returned None, Examples.steady Examples.one_chat []) /\
  (5000 < String.length (strip Samples.long_text) ->
   send_message (Some Examples.chat) Samples.long_text
                (Examples.steady Examples.one_chat [])
   = (Returned None, Examples.steady Examples.one_chat [])).
Proof.
  apply (long_text_is_refused Samples.long_text USER 1 None None (Some Examples.chat)
           (Examples.steady Examples.one_chat [])).
  vm_compute. lia.
Defined.

(** X19: [send_message] does nothing, and returns nothing, when the page
    has no conversation, when the text typed is empty or white space only,
    or when the page's conversation has no id: the world is left as it is. *)
Theorem send_message_ignores_blank conv text (w : World) :
  conv = None \/ blank text = true
  \/ (exists c, conv = Some c /\ conv_id c = None) ->
  send_message conv text w = (Returned None, w).
Proof.
  intros H. unfold send_message, send_message_with.
  destruct conv as [c|]; [|reflexivity].
  destruct H as [H|[H|[c' [[= <-] H]]]]; [discriminate| |].
  - rewrite (strip_blank text H). reflexivity.
  - rewrite H. destruct (negb (truthy (strip text))); reflexivity.
Qed.

Lemma send_message_ignores_blank_witness :
  send_message (Some Examples.chat) "   " (Examples.steady Examples.one_chat [])
  = (Returned None, Examples.steady Examples.one_chat []).
Proof.
  apply (send_message_ignores_blank (Some Examples.chat) "   "
           (Examples.steady Examples.one_chat [])).
  right. left. reflexivity.
Defined.

(** X20: the title made from a first message has at most 50 characters.
    When the first four words joined by single spaces have more than 50
    characters, the title is their first 47 characters followed by "...",
    50 characters in all; otherwise it is the joined words themselves.
    White space around the text does not change it. *)
Theorem auto_title_is_short (text ws1 ws2 : string) :
  let joined := join " " (firstn 4 (split (strip text))) in
  String.length (auto_title text) <= 50 /\
  (String.length joined <= 50 -> auto_title text = joined) /\
  (50 < String.length joined ->
   auto_title text = (take 47 joined ++ "...")%string /\
   String.length (auto_title text) = 50) /\
  (blank ws1 = true -> blank ws2 = true ->
   auto_title (ws1 ++ text ++ ws2) = auto_title text).
Proof.
  cbn zeta. unfold auto_title.
  set (joined := join " " (firstn 4 (split (strip text)))).
  assert (Hlong : 50 < String.length joined ->
                  String.length (take 47 joined ++ "...") = 50).
  { intros H. rewrite length_append, length_take.
    change (String.length "...") with 3. lia. }
  assert (Hws : blank ws1 = true -> blank ws2 = true ->
                (if 50 <? String.length
                            (join " " (firstn 4 (split (strip (ws1 ++ text ++ ws2)))))
                 then (take 47 (join " " (firstn 4 (split (strip (ws1 ++ text ++ ws2)))))
                         ++ "...")%string
                 else join " " (firstn 4 (split (strip (ws1 ++ text ++ ws2)))))
                = if 50 <? String.length joined
                  then (take 47 joined ++ "...")%string else joined).
  { intros H1 H2. now rewrite (strip_around ws1 ws2 text H1 H2). }
  destruct (Nat.ltb_spec 50 (String.length joined)) as [H|H].
  - split; [rewrite (Hlong H); lia|].
    split; [intros; lia|].
    split; [intros _; split; [reflexivity|exact (Hlong H)]|exact Hws].
  - split; [exact H|].
    split; [reflexivity|].
    split; [intros; lia|exact Hws].
Qed.

(** A turn in a quiet world, step by step: the user message is stored and
    the conversation touched, the reply is generated and stored, and the
    conversation is renamed when the page holds it as "New Chat". *)
Lemma send_message_run conv id c text (w : World) :
  quiet w -> conv_id conv = Some id ->
  find_conversation id (db w) = Some c ->
  truthy (strip text) = true -> String.length (strip text) <= 5000 ->
  exists t t' w1 b w2,
    clock w <= t /\ t <= t' /\ t' = clock w1 /\
    db w1 = write_conversation
              (set_updated_at t' c)
              (insert_message (mkMessage None (strip text) USER id t None None) (db w)) /\
    quiet w1 /\
    process_user_message (strip text) id w1 = (Returned (Some b), w2) /\
    b = mkMessage (Some (next_id (map msg_id (messages (db w1)))))
                  (Generator.generate_response (hd 0 (draws w1)) (strip text))
                  BOT id (clock w2) (Some (elapsed_ms w1)) (Some model_name) /\
    db w2 = insert_message
              (mkMessage None
                         (Generator.generate_response (hd 0 (draws w1)) (strip text))
                         BOT id (clock w2) (Some (elapsed_ms w1)) (Some model_name))
              (db w1) /\
    clock w1 <= clock w2 /\ quiet w2 /\
    send_message (Some conv) text w
    = (Returned (Some b),
       if String.eqb (title conv) "New Chat"
       then snd (update_conversation_title id (auto_title text) w2)
       else w2).
Proof.
  intros Hq Hid Hc Ht Hlen.
  destruct (create_message_quiet (strip text) USER id None None c w Hq Hlen
              ltac:(discriminate) Hc)
    as [t [t' [w1 [Hum [H1 [H2 [H3 Hdb1]]]]]]].
  pose proof (create_message_stays_quiet (strip text) USER id None None w Hq) as Hq1.
  unfold wp in Hq1. rewrite Hum in Hq1. cbn [snd] in Hq1.
  assert (Hc1 : find_conversation id (db w1) = Some (set_updated_at t' c)).
  { rewrite Hdb1. eapply find_conversation_written; [exact Hc|].
    exact (find_conversation_id _ _ _ Hc). }
  destruct (create_bot_message_quiet
              (Generator.generate_response (hd 0 (draws w1)) (strip text)) id
              (Some (elapsed_ms w1)) (set_updated_at t' c) (at_persistence w1))
    as [b [w2 [Hbot [Hb [Hdb2 Hclock]]]]].
  { unfold quiet. now rewrite faults_at_persistence. }
  { apply generated_reply_length. }
  { now rewrite db_at_persistence. }
  rewrite <- process_user_message_run in Hbot.
  rewrite db_at_persistence in Hb, Hdb2.
  pose proof (process_user_message_quiet (strip text) id w1 Hq1) as Hq2.
  unfold wp in Hq2. rewrite Hbot in Hq2. cbn [snd] in Hq2.
  exists t, t', w1, b, w2.
  repeat split; try assumption.
  - etransitivity; [apply clock_at_persistence|exact Hclock].
  - unfold send_message, send_message_with. rewrite Hid, Ht. cbn [negb].
    unfold process_user_message in Hbot.
    unfold try_except at 1. unfold bind at 1. rewrite Hum.
    unfold bind at 1. rewrite Hbot.
    destruct (String.eqb (title conv) "New Chat").
    + unfold bind at 1. unfold bind at 1.
      pose proof (update_conversation_title_ends id (auto_title text) w2) as Hup.
      unfold wp in Hup.
      destruct (update_conversation_title id (auto_title text) w2) as [o w3].
      cbn [fst snd] in *.
      destruct Hup as [[-> _]|[? [? [_ [_ [_ [[-> _]|[_ [[-> _]| ->]]]]]]]]];
        reflexivity.
    + reflexivity.
Qed.

(** X21: a turn appends the user's text, then the reply. In a quiet
    world, for a page conversation that is stored and a text that is not
    blank and has, stripped, at most 5000 characters, [send_message] returns
    the bot message, and the message table afterwards is the old one
    followed by exactly two rows: the USER message with the stripped text,
    and the BOT message returned, whose content is one of the generator's
    fixed replies, with the model name and the response time measured; the
    two rows have consecutive keys and the bot message is not dated before
    the user's. *)
Theorem turn_appends_user_then_bot conv id c text (w : World) :
  quiet w -> conv_id conv = Some id ->
  find_conversation id (db w) = Some c ->
  blank text = false -> String.length (strip text) <= 5000 ->
  exists um b w',
    send_message (Some conv) text w = (Returned (Some b), w') /\
    messages (db w') = messages (db w) ++ [um; b] /\
    content um = strip text /\ message_type um = USER /\
    conversation_id um = id /\ response_time_ms um = None /\ model_used um = None /\
    message_type b = BOT /\ conversation_id b = id /\
    In (content b) Generator.all_responses /\
    model_used b = Some model_name /\ response_time_ms b <> None /\
    msg_id um = Some (next_id (map msg_id (messages (db w)))) /\
    msg_id b = Some (S (next_id (map msg_id (messages (db w))))) /\
    clock w <= created_at um /\ created_at um <= created_at b /\
    created_at b <= clock w'.
Proof.
  intros Hq Hid Hc Hb0 Hlen.
  assert (Ht : truthy (strip text) = true) by (now rewrite truthy_strip, Hb0).
  destruct (send_message_run conv id c text w Hq Hid Hc Ht Hlen)
    as [t [t' [w1 [b [w2 [H1 [H2 [H3 [Hdb1 [Hq1 [Hbot [Hb [Hdb2 [H4 [Hq2 Hrun]]]]]]]]]]]]]]].
  assert (Hm1 : messages (db w1)
                = messages (db w)
                    ++ [mkMessage (Some (next_id (map msg_id (messages (db w)))))
                                  (strip text) USER id t None None]).
  { rewrite Hdb1. reflexivity. }
  assert (Hm2 : messages (db w2) = messages (db w1) ++ [b]).
  { rewrite Hdb2, Hb. reflexivity. }
  assert (Hnext : next_id (map msg_id (messages (db w1)))
                  = S (next_id (map msg_id (messages (db w))))).
  { rewrite Hm1, map_app. cbn [map msg_id]. unfold next_id. f_equal.
    rewrite fold_right_app. cbn [fold_right].
    fold (next_id (map msg_id (messages (db w)))).
    assert (Hmax : forall ids n,
               (forall j, In (Some j) ids -> j <= n) ->
               fold_right (fun id m => match id with
                                       | Some j => Nat.max j m
                                       | None => m
                                       end) n ids = n).
    { induction ids as [|[j|] ids IH]; intros n Hn; simpl; [reflexivity| |].
      - rewrite IH by (intros; apply Hn; now right).
        specialize (Hn j (or_introl eq_refl)). lia.
      - apply IH. intros; apply Hn; now right. }
    rewrite Nat.max_0_r. apply Hmax.
    intros j Hj. apply next_id_above in Hj. lia. }
  assert (Hafter :
            forall w3, db w3 = db w2 \/
                       (exists c', db w3 = write_conversation c' (db w2)) ->
                       messages (db w3) = messages (db w2)).
  { intros w3 [->|[c' ->]]; reflexivity. }
  set (w' := if String.eqb (title conv) "New Chat"
             then snd (update_conversation_title id (auto_title text) w2)
             else w2) in *.
  assert (Hw' : messages (db w') = messages (db w2) /\ clock w2 <= clock w').
  { unfold w'. destruct (String.eqb (title conv) "New Chat"); [|split; [reflexivity|lia]].
    pose proof (update_conversation_title_ends id (auto_title text) w2) as Hup.
    unfold wp in Hup.
    destruct (update_conversation_title id (auto_title text) w2) as [o w3].
    cbn [fst snd] in *.
    destruct Hup as [[_ [Hd [Hcl _]]]|[c' [t3 [_ [Hle [Heq [[_ [Hd _]]|[Hd _]]]]]]]].
    - rewrite Hd, Hcl. split; [reflexivity|lia].
    - rewrite Hd. split; [reflexivity|lia].
    - rewrite Hd. split; [reflexivity|lia]. }
  destruct Hw' as [Hmw' Hcw'].
  eexists _, b, w'. split; [exact Hrun|].
  split; [rewrite Hmw', Hm2, Hm1, <- app_assoc; reflexivity|].
  subst b.
  cbn [content message_type conversation_id response_time_ms model_used msg_id
       created_at].
  repeat split; try assumption; try lia; try discriminate.
  - apply GeneratorFacts.respond_range.
  - now rewrite Hnext.
Qed.

Lemma turn_appends_user_then_bot_witness :
  exists um b w',
    send_message (Some Examples.chat) " Hello " (Examples.steady Examples.one_chat [])
    = (Returned (Some b), w') /\
    messages (db w') = messages (db (Examples.steady Examples.one_chat [])) ++ [um; b] /\
    content um = strip " Hello " /\ message_type um = USER /\
    conversation_id um = 1 /\ response_time_ms um = None /\ model_used um = None /\
    message_type b = BOT /\ conversation_id b = 1 /\
    In (content b) Generator.all_responses /\
    model_used b = Some model_name /\ response_time_ms b <> None /\
    msg_id um
    = Some (next_id (map msg_id (messages (db (Examples.steady Examples.one_chat []))))) /\
    msg_id b
    = Some (S (next_id (map msg_id
                          (messages (db (Examples.steady Examples.one_chat [])))))) /\
    clock (Examples.steady Examples.one_chat []) <= created_at um /\
    created_at um <= created_at b /\
    created_at b <= clock w'.
Proof.
  apply (turn_appends_user_then_bot Examples.chat 1 Examples.chat " Hello "
           (Examples.steady Examples.one_chat []));
    [reflexivity|reflexivity|reflexivity|reflexivity|simpl; lia].
Defined.

(** The conversation after a turn in a quiet world: touched by the user
    message, and renamed when the page holds it as "New Chat". *)
Lemma conversation_after_turn conv id c text (w : World) :
  quiet w -> conv_id conv = Some id ->
  find_conversation id (db w) = Some c ->
  blank text = false -> String.length (strip text) <= 5000 ->
  exists b w' t t',
    send_message (Some conv) text w = (Returned (Some b), w') /\
    clock w <= t /\ t <= created_at b /\ t <= t' /\ t' <= clock w' /\
    (String.eqb (title conv) "New Chat" = true -> created_at b <= t') /\
    find_conversation id (db w')
    = Some (if String.eqb (title conv) "New Chat"
            then set_updated_at t' (set_title (auto_title text) (set_updated_at t c))
            else set_updated_at t c).
Proof.
  intros Hq Hid Hc Hb0 Hlen.
  assert (Ht : truthy (strip text) = true) by (now rewrite truthy_strip, Hb0).
  destruct (send_message_run conv id c text w Hq Hid Hc Ht Hlen)
    as [t [t' [w1 [b [w2 [H1 [H2 [H3 [Hdb1 [Hq1 [Hbot [Hb [Hdb2 [H4 [Hq2 Hrun]]]]]]]]]]]]]]].
  pose proof (find_conversation_id _ _ _ Hc) as Hcid.
  assert (Hc2 : find_conversation id (db w2) = Some (set_updated_at t' c)).
  { rewrite Hdb2.
    change (find_conversation id (insert_message ?m ?st))
      with (find_conversation id st).
    rewrite Hdb1. eapply find_conversation_written; [exact Hc|exact Hcid]. }
  assert (Hdate : created_at b = clock w2) by (now subst b).
  destruct (String.eqb (title conv) "New Chat") eqn:Etitle.
  - destruct (update_conversation_title_run id (auto_title text) _ w2 Hq2 Hc2)
      as [t3 [w3 [Hup [H5 [H6 [_ Hdb3]]]]]].
    rewrite Hup in Hrun. cbn [snd] in Hrun.
    exists b, w3, t', t3. split; [exact Hrun|].
    repeat split; try lia.
    rewrite Hdb3. eapply find_conversation_written; [exact Hc2|exact Hcid].
  - exists b, w2, t', t'. split; [exact Hrun|].
    repeat split; try lia; try discriminate. exact Hc2.
Qed.

(** X22: the first exchange names the chat. After a turn as in X21, when
    the page holds the conversation under the title "New Chat", the stored
    conversation carries the title made from the text typed, and its
    updated_at is not before the bot message; when the page holds it under
    any other title, the stored title is as it was. In both cases the user,
    the creation date and is_active of the conversation are as before. *)
Theorem first_exchange_names_the_chat conv id c text (w : World) :
  quiet w -> conv_id conv = Some id ->
  find_conversation id (db w) = Some c ->
  blank text = false -> String.length (strip text) <= 5000 ->
  exists b w' c',
    send_message (Some conv) text w = (Returned (Some b), w') /\
    find_conversation id (db w') = Some c' /\
    title c' = (if String.eqb (title conv) "New Chat"
                then auto_title text else title c) /\
    (String.eqb (title conv) "New Chat" = true -> created_at b <= updated_at c') /\
    clock w <= updated_at c' /\ updated_at c' <= clock w' /\
    conv_id c' = Some id /\ user_id c' = user_id c /\
    conv_created_at c' = conv_created_at c /\ is_active c' = is_active c.
Proof.
  intros Hq Hid Hc Hb0 Hlen.
  destruct (conversation_after_turn conv id c text w Hq Hid Hc Hb0 Hlen)
    as [b [w' [t [t' [Hrun [H1 [H2 [H3 [H4 [H5 Hfind]]]]]]]]]].
  pose proof (find_conversation_id _ _ _ Hc) as Hcid.
  eexists b, w', _. split; [exact Hrun|]. split; [exact Hfind|].
  destruct (String.eqb (title conv) "New Chat");
    cbn [title updated_at conv_id user_id conv_created_at is_active
         set_updated_at set_title];
    repeat split; try assumption; try lia; try discriminate.
Qed.

Lemma first_exchange_names_the_chat_witness :
  exists b w' c',
    send_message (Some Samples.new_chat) "Tell me a good joke please"
                 (Examples.steady Samples.new_chat_store [])
    = (Returned (Some b), w') /\
    find_conversation 1 (db w') = Some c' /\
    title c' = (if String.eqb (title Samples.new_chat) "New Chat"
                then auto_title "Tell me a good joke please"
                else title Samples.new_chat) /\
    (String.eqb (title Samples.new_chat) "New Chat" = true ->
     created_at b <= updated_at c') /\
    clock (Examples.steady Samples.new_chat_store []) <= updated_at c' /\
    updated_at c' <= clock w' /\
    conv_id c' = Some 1 /\ user_id c' = user_id Samples.new_chat /\
    conv_created_at c' = conv_created_at Samples.new_chat /\
    is_active c' = is_active Samples.new_chat.
Proof.
  apply (first_exchange_names_the_chat Samples.new_chat 1 Samples.new_chat
           "Tell me a good joke please" (Examples.steady Samples.new_chat_store []));
    [reflexivity|reflexivity|reflexivity|reflexivity|simpl; lia].
Defined.

(** X25: the bot step on its own. In a quiet world, for a stored
    conversation and any text, [process_user_message] returns a BOT message
    whose content is the generator's reply to the text (never the apology),
    with the model name and the time measured between its two clock reads;
    the message is stored at the end of the message table under a new key,
    dated by the last clock read of the call; the users and the
    conversations are left as they are. *)
Theorem bot_reply_is_stored text cid c (w : World) :
  quiet w -> find_conversation cid (db w) = Some c ->
  exists b w',
    process_user_message text cid w = (Returned (Some b), w') /\
    content b = Generator.generate_response (hd 0 (draws w)) text /\
    content b <> error_reply /\
    message_type b = BOT /\ conversation_id b = cid /\
    model_used b = Some model_name /\
    response_time_ms b = Some (elapsed_ms w) /\
    msg_id b = Some (next_id (map msg_id (messages (db w)))) /\
    clock w <= created_at b /\ created_at b = clock w' /\
    messages (db w') = messages (db w) ++ [b] /\
    conversations (db w') = conversations (db w) /\
    users (db w') = users (db w).
Proof.
  intros Hq Hc.
  destruct (create_bot_message_quiet
              (Generator.generate_response (hd 0 (draws w)) text) cid
              (Some (elapsed_ms w)) c (at_persistence w))
    as [b [w' [Hbot [Hb [Hdb Hclock]]]]].
  { unfold quiet. now rewrite faults_at_persistence. }
  { apply generated_reply_length. }
  { now rewrite db_at_persistence. }
  rewrite <- process_user_message_run in Hbot.
  rewrite db_at_persistence in Hb, Hdb.
  exists b, w'. split; [exact Hbot|]. rewrite Hdb. subst b.
  cbn [content message_type conversation_id response_time_ms model_used msg_id
       created_at].
  repeat split.
  - apply error_reply_not_generated.
  - etransitivity; [apply clock_at_persistence|exact Hclock].
Qed.

Lemma bot_reply_is_stored_witness :
  exists b w',
    process_user_message "Hello there!" 1 (Examples.steady Examples.one_chat [])
    = (Returned (Some b), w') /\
    content b
    = Generator.generate_response
        (hd 0 (draws (Examples.steady Examples.one_chat []))) "Hello there!" /\
    content b <> error_reply /\
    message_type b = BOT /\ conversation_id b = 1 /\
    model_used b = Some model_name /\
    response_time_ms b = Some (elapsed_ms (Examples.steady Examples.one_chat [])) /\
    msg_id b
    = Some (next_id (map msg_id (messages (db (Examples.steady Examples.one_chat []))))) /\
    clock (Examples.steady Examples.one_chat []) <= created_at b /\
    created_at b = clock w' /\
    messages (db w') = messages (db (Examples.steady Examples.one_chat [])) ++ [b] /\
    conversations (db w') = conversations (db (Examples.steady Examples.one_chat [])) /\
    users (db w') = users (db (Examples.steady Examples.one_chat [])).
Proof.
  apply (bot_reply_is_stored "Hello there!" 1 Examples.chat
           (Examples.steady Examples.one_chat []));
    reflexivity.
Defined.

End ExchangeFacts.

(* ===================================================================== *)
(** ** The conversation with its messages *)
(* ===================================================================== *)

Module ViewFacts.
Import PyStr Models Session RunFacts StoreFacts ConversationFacts QueryFacts.
Import ConversationService ConversationView.
Local Open Scope session_scope.

Section WithEngine.

Variable engine : Engine.
Hypothesis contract : engine_contract engine.
Variable isoformat : Time -> string.

Lemma get_conversation_with_messages_run (cid : nat) (w : World) :
  get_conversation_with_messages engine isoformat cid w
  = if next_fault w then (Returned None, after_round_trip w)
    else match find_conversation cid (db w) with
         | None => (Returned None, after_round_trip w)
         | Some c =>
             (Returned
                (Some (mkConversationWithMessages
                         (id_or_0 (conv_id c)) (title c) (user_id c)
                         (isoformat (conv_created_at c)) (isoformat (updated_at c))
                         (is_active c)
                         (map (message_response isoformat)
                              (if next_fault (after_round_trip w) then []
                               else select_conversation_messages
                                      engine cid None (db w))))),
              after_round_trip (after_round_trip w))
         end.
Proof.
  unfold get_conversation_with_messages, get.
  unfold try_except at 1. unfold bind at 1. unfold bind at 1.
  unfold round_trip at 1. unfold read at 1.
  destruct (next_fault w); [reflexivity|].
  cbn [db after_round_trip].
  destruct (find_conversation cid (db w)) as [c|]; [|reflexivity].
  unfold bind at 1. rewrite get_conversation_messages_run. reflexivity.
Qed.

(** X23: [get_conversation_with_messages] changes neither the store nor
    the clock and never raises. It returns None when the id is not stored
    or the storage fails at the lookup. For a stored conversation it
    returns the view with the conversation's id, title, user and is_active
    and its dates in ISO format; when the listing of the messages succeeds
    the view holds every message of the conversation once, sorted by
    created_at, each with its content, type and metadata as stored; when
    the storage fails at the listing the view is returned with no
    message. *)
Theorem conversation_view (cid : nat) (w : World) :
  exists r w',
    get_conversation_with_messages engine isoformat cid w = (Returned r, w') /\
    db w' = db w /\ clock w' = clock w /\
    (next_fault w = true \/ find_conversation cid (db w) = None -> r = None) /\
    (forall c, next_fault w = false -> find_conversation cid (db w) = Some c ->
       exists v l,
         r = Some v /\
         view_id v = cid /\ view_title v = title c /\ view_user_id v = user_id c /\
         view_is_active v = is_active c /\
         view_created_at v = isoformat (conv_created_at c) /\
         view_updated_at v = isoformat (updated_at c) /\
         view_messages v = map (message_response isoformat) l /\
         StronglySorted (fun a b => created_at a <= created_at b) l /\
         (next_fault (after_round_trip w) = true -> l = []) /\
         (next_fault (after_round_trip w) = false ->
          Permutation (filter (fun m => conversation_id m =? cid) (messages (db w))) l)).
Proof.
  rewrite get_conversation_with_messages_run.
  destruct (next_fault w) eqn:Hf.
  - eexists _, _. split; [reflexivity|]. repeat split. discriminate.
  - destruct (find_conversation cid (db w)) as [c|] eqn:Hc.
    + eexists _, _. split; [reflexivity|]. split; [reflexivity|].
      split; [reflexivity|]. split; [intros [?|?]; discriminate|].
      intros c0 _ [= <-].
      eexists _, _. split; [reflexivity|].
      cbn [view_id view_title view_user_id view_is_active view_created_at
           view_updated_at view_messages].
      rewrite (find_conversation_id _ _ _ Hc). cbn [id_or_0].
      repeat split.
      * destruct (next_fault (after_round_trip w)); [constructor|].
        apply (select_conversation_messages_sorted engine contract).
      * now intros ->.
      * intros ->. apply (select_conversation_messages_all engine contract).
    + eexists _, _. split; [reflexivity|]. repeat split. intros c _ [=].
Qed.

End WithEngine.

Lemma conversation_view_witness :
  engine_contract keep_ties_engine /\
  exists r w',
    get_conversation_with_messages keep_ties_engine Samples.isoformat 1
      (Examples.frozen Examples.tie_store) = (Returned r, w') /\
    db w' = db (Examples.frozen Examples.tie_store) /\
    clock w' = clock (Examples.frozen Examples.tie_store) /\
    (next_fault (Examples.frozen Examples.tie_store) = true
     \/ find_conversation 1 (db (Examples.frozen Examples.tie_store)) = None ->
     r = None) /\
    (forall c, next_fault (Examples.frozen Examples.tie_store) = false ->
               find_conversation 1 (db (Examples.frozen Examples.tie_store)) = Some c ->
       exists v l,
         r = Some v /\
         view_id v = 1 /\ view_title v = title c /\ view_user_id v = user_id c /\
         view_is_active v = is_active c /\
         view_created_at v = Samples.isoformat (conv_created_at c) /\
         view_updated_at v = Samples.isoformat (updated_at c) /\
         view_messages v = map (message_response Samples.isoformat) l /\
         StronglySorted (fun a b => created_at a <= created_at b) l /\
         (next_fault (after_round_trip (Examples.frozen Examples.tie_store)) = true ->
          l = []) /\
         (next_fault (after_round_trip (Examples.frozen Examples.tie_store)) = false ->
          Permutation
            (filter (fun m => conversation_id m =? 1)
                    (messages (db (Examples.frozen Examples.tie_store)))) l)).
Proof.
  split; [exact keep_ties_engine_contract|].
  exact (conversation_view keep_ties_engine keep_ties_engine_contract
           Samples.isoformat 1 (Examples.frozen Examples.tie_store)).
Defined.

End ViewFacts.

(* ===================================================================== *)
(** ** What no sequence of calls does *)
(* ===================================================================== *)

Module CallFacts.
Import PyStr Models Session RunFacts StoreFacts ConversationFacts QueryFacts.
Import ConversationService History HistoryFacts InvariantFacts.
Local Open Scope session_scope.

Lemma keys_ok_one_chat : keys_ok Examples.one_chat.
Proof.
  constructor; cbn;
    repeat constructor; unfold has_key; try discriminate; intros [].
Qed.

Lemma references_ok_one_chat : references_ok Examples.one_chat.
Proof.
  constructor; cbn; [|contradiction].
  intros c [<-|[]]. discriminate.
Qed.

Lemma dates_ok_one_chat (faults : list bool) :
  dates_ok (clock (Examples.steady Examples.one_chat faults),
            db (Examples.steady Examples.one_chat faults)).
Proof.
  constructor; cbn.
  - intros u [<-|[]]. cbn. lia.
  - intros c [<-|[]]. cbn. lia.
  - contradiction.
  - constructor.
Qed.

Section Calls.

Variable engine : Engine.
Variable isoformat : Time -> string.

(** X3: the calls keep the keys in order. From a store in which every
    row has a key, no two rows of a table share a key and no two users share
    a username, any sequence of calls of the services, whatever the storage
    faults met on the way, leads to a store of which the same holds. *)
Theorem calls_keep_keys (cs : list Call) (w : World) :
  keys_ok (db w) -> keys_ok (db (after_calls engine isoformat cs w)).
Proof.
  intros H.
  exact (history_keys_ok _ _ (after_calls_history engine isoformat cs w) H).
Qed.

(** X4: the calls leave no dangling reference. From a store in which
    every conversation has its user and every message its conversation, any
    sequence of calls leads to a store of which the same holds: no call
    removes a user or a conversation, and none stores a row under a
    reference that is not there. *)
Theorem calls_keep_references (cs : list Call) (w : World) :
  references_ok (db w) -> references_ok (db (after_calls engine isoformat cs w)).
Proof.
  intros H.
  exact (history_references_ok _ _ (after_calls_history engine isoformat cs w) H).
Qed.

(** X5: the calls keep the dates in order. From a world in which no row
    is dated after the clock, no conversation is updated before it is
    created and the messages stand in the table in the order of created_at,
    any sequence of calls leads to a world of which the same holds. *)
Theorem calls_keep_dates (cs : list Call) (w : World) :
  dates_ok (clock w, db w) ->
  dates_ok (clock (after_calls engine isoformat cs w),
            db (after_calls engine isoformat cs w)).
Proof.
  intros H.
  exact (history_dates_ok _ _ (after_calls_history engine isoformat cs w) H).
Qed.

(** X6: nothing is removed and nothing is undeleted. After any sequence
    of calls, whatever the store at the start and the faults met, the users
    and the messages that were stored are stored as they were, in their
    places; every conversation that was stored is stored under its key with
    the user and the creation date it had; and a conversation that was
    inactive is inactive. *)
Theorem calls_only_add (cs : list Call) (w : World) :
  grown (db w) (db (after_calls engine isoformat cs w)).
Proof.
  exact (history_grown _ _ (after_calls_history engine isoformat cs w)).
Qed.

(** X7: updated_at never goes back. From a world with the dates in
    order, after any sequence of calls every conversation that was stored
    has an updated_at not earlier than the one it had. *)
Theorem calls_never_rewind_updated_at (cs : list Call) (w : World) :
  dates_ok (clock w, db w) ->
  not_updated_earlier (db w) (db (after_calls engine isoformat cs w)).
Proof.
  intros H.
  exact (history_not_updated_earlier _ _
           (after_calls_history engine isoformat cs w) H).
Qed.

Hypothesis contract : engine_contract engine.

(** X24: a stored message stays listed. After any sequence of calls, a
    message that was stored is in the listing of its conversation that
    [get_conversation_messages] gives without limit when the storage
    answers, with the content and every other field it had. *)
Theorem stored_message_stays_listed (cs : list Call) (m : Message) (w : World) :
  In m (messages (db w)) ->
  next_fault (after_calls engine isoformat cs w) = false ->
  exists l,
    fst (get_conversation_messages engine (conversation_id m) None
           (after_calls engine isoformat cs w)) = Returned l /\
    In m l.
Proof.
  intros Hin Hf.
  rewrite get_conversation_messages_run, Hf. cbn [fst].
  eexists. split; [reflexivity|].
  eapply Permutation_in;
    [apply (select_conversation_messages_all engine contract)|].
  apply filter_In. split; [|apply Nat.eqb_refl].
  destruct (messages_kept _ _ (history_grown _ _
              (after_calls_history engine isoformat cs w))) as [l Hl].
  cbn [snd] in Hl. rewrite Hl. apply in_or_app. now left.
Qed.

End Calls.

Lemma calls_keep_keys_witness :
  keys_ok (db (Examples.steady Examples.one_chat [false; true])) /\
  keys_ok (db (after_calls keep_ties_engine Samples.isoformat Samples.session_calls
                 (Examples.steady Examples.one_chat [false; true]))).
Proof.
  split; [exact keys_ok_one_chat|].
  apply (calls_keep_keys keep_ties_engine Samples.isoformat Samples.session_calls
           (Examples.steady Examples.one_chat [false; true])).
  exact keys_ok_one_chat.
Defined.

Lemma calls_keep_references_witness :
  references_ok (db (Examples.steady Examples.one_chat [false; true])) /\
  references_ok
    (db (after_calls keep_ties_engine Samples.isoformat Samples.session_calls
           (Examples.steady Examples.one_chat [false; true]))).
Proof.
  split; [exact references_ok_one_chat|].
  apply (calls_keep_references keep_ties_engine Samples.isoformat Samples.session_calls
           (Examples.steady Examples.one_chat [false; true])).
  exact references_ok_one_chat.
Defined.

Lemma calls_keep_dates_witness :
  dates_ok (clock (Examples.steady Examples.one_chat [false; true]),
            db (Examples.steady Examples.one_chat [false; true])) /\
  dates_ok
    (clock (after_calls keep_ties_engine Samples.isoformat Samples.session_calls
              (Examples.steady Examples.one_chat [false; true])),
     db (after_calls keep_ties_engine Samples.isoformat Samples.session_calls
           (Examples.steady Examples.one_chat [false; true]))).
Proof.
  split; [exact (dates_ok_one_chat [false; true])|].
  apply (calls_keep_dates keep_ties_engine Samples.isoformat Samples.session_calls
           (Examples.steady Examples.one_chat [false; true])).
  exact (dates_ok_one_chat [false; true]).
Defined.

Lemma calls_never_rewind_updated_at_witness :
  dates_ok (clock (Examples.steady Examples.one_chat [false; true]),
            db (Examples.steady Examples.one_chat [false; true])) /\
  not_updated_earlier
    (db (Examples.steady Examples.one_chat [false; true]))
    (db (after_calls keep_ties_engine Samples.isoformat Samples.session_calls
           (Examples.steady Examples.one_chat [false; true]))).
Proof.
  split; [exact (dates_ok_one_chat [false; true])|].
  apply (calls_never_rewind_updated_at keep_ties_engine Samples.isoformat
           Samples.session_calls (Examples.steady Examples.one_chat [false; true])).
  exact (dates_ok_one_chat [false; true]).
Defined.

Lemma stored_message_stays_listed_witness :
  engine_contract keep_ties_engine /\
  exists l,
    fst (get_conversation_messages keep_ties_engine
           (conversation_id Examples.first_message) None
           (after_calls keep_ties_engine Samples.isoformat Samples.session_calls
              (Examples.frozen Examples.tie_store))) = Returned l /\
    In Examples.first_message l.
Proof.
  split; [exact keep_ties_engine_contract|].
  apply (stored_message_stays_listed keep_ties_engine Samples.isoformat
           keep_ties_engine_contract Samples.session_calls Examples.first_message
           (Examples.frozen Examples.tie_store)).
  - left. reflexivity.
  - vm_compute. reflexivity.
Defined.

End CallFacts.

(* ===================================================================== *)
(** ** The page *)
(* ===================================================================== *)

Module PageFacts.
Import PyStr Blank Models Session RunFacts StoreFacts ConversationFacts QueryFacts.
Import LifecycleFacts ExchangeFacts.
Import ConversationService ChatbotUI Page.
Local Open Scope session_scope.

(** X26: a new chat is named by its first message. In a quiet world,
    for a page whose user is stored, [create_new_conversation] returns true
    and leaves the page with a stored conversation titled "New Chat" and its
    id in the tab storage; [send_message] of a text that is not blank (and,
    stripped, within 5000 characters) on that page then returns the bot's
    reply and leaves the stored conversation under the title made from the
    text. *)
Theorem new_chat_is_named_by_first_message (p : Page) (u u' : User) (uid : nat)
        (text : string) (w : World) :
  quiet w -> current_user p = Some u -> usr_id u = Some uid ->
  find_user uid (db w) = Some u' ->
  blank text = false -> String.length (strip text) <= 5000 ->
  exists p' c id w1 b w2 c',
    create_new_conversation p w = (Returned (true, p'), w1) /\
    current_user p' = current_user p /\
    current_conversation p' = Some c /\
    conv_id c = Some id /\ tab_conversation_id p' = Some id /\
    title c = "New Chat"%string /\ user_id c = uid /\
    find_conversation id (db w) = None /\
    find_conversation id (db w1) = Some c /\
    send_message (current_conversation p') text w1 = (Returned (Some b), w2) /\
    find_conversation id (db w2) = Some c' /\
    title c' = auto_title text /\ user_id c' = uid /\ is_active c' = true.
Proof.
  intros Hq Hu Huid Hfu Hb Hlen.
  destruct (create_conversation_run uid (Some "New Chat"%string) u' w Hq Hfu)
    as [t1 [t2 [w1 [Hrun [H1 [H2 [H3 [Hq1 Hdb1]]]]]]]]; [simpl; lia|].
  cbn [or_else truthy] in Hrun, Hdb1.
  set (c := mkConversation (Some (next_id (map conv_id (conversations (db w)))))
                           "New Chat" uid t1 t2 true) in *.
  assert (Hc1 : find_conversation (next_id (map conv_id (conversations (db w)))) (db w1)
                = Some c).
  { rewrite Hdb1. apply find_conversation_inserted. }
  destruct (conversation_after_turn c _ c text w1 Hq1 eq_refl Hc1 Hb Hlen)
    as [b [w2 [t [t' [Hsend [_ [_ [_ [_ [_ Hc2]]]]]]]]]].
  change (String.eqb (title c) "New Chat") with true in Hc2. cbn iota in Hc2.
  eexists _, c, _, w1, b, w2, _.
  split.
  { unfold create_new_conversation. rewrite Hu, Huid.
    unfold try_except, bind. rewrite Hrun. reflexivity. }
  cbn [current_user current_conversation tab_conversation_id set_conversation].
  repeat split; try eassumption; try reflexivity.
  apply find_conversation_fresh.
Qed.

Section WithEngine.

Variable engine : Engine.

(** X27: a load that fails leaves the page without a conversation.
    [load_conversation] on an id that is not stored, or when the storage
    fails at the lookup, returns false, changes no row, keeps the id in the
    tab storage as it was and sets the page's conversation to None,
    whatever conversation the page held; [send_message] on that page
    then does nothing. *)
Theorem failed_load_clears_conversation (p : Page) (cid : nat) (w : World) :
  find_conversation cid (db w) = None \/ next_fault w = true ->
  exists p' w',
    load_conversation engine p cid w = (Returned (false, p'), w') /\
    db w' = db w /\
    current_conversation p' = None /\
    current_user p' = current_user p /\
    tab_conversation_id p' = tab_conversation_id p /\
    forall text w2, send_message (current_conversation p') text w2 = (Returned None, w2).
Proof.
  intros H. unfold load_conversation.
  unfold try_except at 1. unfold bind at 1.
  rewrite get_conversation_run.
  assert (E : (if next_fault w then None else find_conversation cid (db w)) = None).
  { destruct H as [->| ->]; [now destruct (next_fault w)|reflexivity]. }
  rewrite E.
  eexists _, _. split; [reflexivity|].
  repeat split.
Qed.

End WithEngine.

Lemma new_chat_is_named_by_first_message_witness :
  exists p' c id w1 b w2 c',
    create_new_conversation Samples.fresh_page (Examples.steady Examples.one_chat [])
    = (Returned (true, p'), w1) /\
    current_user p' = current_user Samples.fresh_page /\
    current_conversation p' = Some c /\
    conv_id c = Some id /\ tab_conversation_id p' = Some id /\
    title c = "New Chat"%string /\ user_id c = 1 /\
    find_conversation id (db (Examples.steady Examples.one_chat [])) = None /\
    find_conversation id (db w1) = Some c /\
    send_message (current_conversation p') "Tell me a good joke please" w1
    = (Returned (Some b), w2) /\
    find_conversation id (db w2) = Some c' /\
    title c' = auto_title "Tell me a good joke please" /\
    user_id c' = 1 /\ is_active c' = true.
Proof.
  apply (new_chat_is_named_by_first_message Samples.fresh_page Examples.alice
           Examples.alice 1 "Tell me a good joke please"
           (Examples.steady Examples.one_chat []));
    [reflexivity|reflexivity|reflexivity|reflexivity|reflexivity|simpl; lia].
Defined.

Lemma failed_load_clears_conversation_witness :
  exists p' w',
    load_conversation keep_ties_engine Samples.chat_page 404
                      (Examples.steady Examples.one_chat [])
    = (Returned (false, p'), w') /\
    db w' = db (Examples.steady Examples.one_chat []) /\
    current_conversation p' = None /\
    current_user p' = current_user Samples.chat_page /\
    tab_conversation_id p' = tab_conversation_id Samples.chat_page /\
    forall text w2, send_message (current_conversation p') text w2 = (Returned None, w2).
Proof.
  apply (failed_load_clears_conversation keep_ties_engine Samples.chat_page 404
           (Examples.steady Examples.one_chat [])).
  left. reflexivity.
Defined.

End PageFacts.
